(** * PortfolioPanic: the game simulation core, embedded and verified

    The development follows the TypeScript sources:
    - [ChartUtils]   is [src/utils/chartUtils.ts] (bounded price and
      portfolio histories, sparkline generator);
    - [AssetList]    is the [generatePriceHistory] helper of
      [src/components/AssetList.tsx];
    - [GameContext]  is the game provider (net worth, trade entry point,
      the per-frame driver [updateTimer] and its timer callbacks).

    Conventions of the embedding.
    - A JavaScript [number] that carries an amount, a price or a ratio is
      an exact rational [Q]; decimal literals such as [0.9] denote the
      rational 9/10.  Rounding of binary64 arithmetic, [NaN] and the
      infinities are outside the model.  Equalities between computed
      amounts are stated with [==] (equality of rationals).
    - Millisecond clock readings ([Date.now()]) and array lengths are
      integers in [Z] / [nat].
    - [Date.now()], [Math.random()], [uuidv4()] are read from an explicit
      environment, so every function stays executable. *)

From Stdlib Require Import ZArith QArith Qminmax Qabs Qround Lqa Lia.
From stdpp Require Import gmap strings list.

Open Scope Q_scope.

(** The comparison [x < y] of two numbers, as the boolean a conditional
    tests. *)
Definition Qltb (x y : Q) : bool :=
  if Qlt_le_dec x y then true else false.

(** ** chartUtils.ts *)

Module ChartUtils.

(** [ChartDataPoint = { value: number; timestamp: number }] *)
Record ChartDataPoint := mkPoint { value : Q; timestamp : Z }.

Module AssetChartData.
Record t := mk {
  timestamps : list Z;
  prices : list Q;
  min : Q;
  max : Q;
  data : list ChartDataPoint
}.
End AssetChartData.

Record PortfolioEvent := mkEvent {
  ev_timestamp : Z;
  ev_value : Q;
  ev_type : string;
  ev_description : string
}.

Record PortfolioAnnotation := mkAnnotation {
  an_timestamp : Z;
  an_value : Q;
  an_text : string
}.

Module PortfolioHistoryData.
Record t := mk {
  timestamps : list Z;
  values : list Q;
  events : list PortfolioEvent;
  annotations : list PortfolioAnnotation;
  min : Q;
  max : Q;
  startValue : Q;
  data : list ChartDataPoint
}.
End PortfolioHistoryData.

(** [Array.prototype.shift]: drop the element at index 0. *)
Definition shift {A} (l : list A) : list A := tail l.

(** [Array.prototype.push] of one element. *)
Definition push {A} (l : list A) (x : A) : list A := l ++ [x].

(** [Math.min(...xs)] and [Math.max(...xs)] on a non-empty array, given as
    its head and tail. *)
Definition spread_min (x : Q) (xs : list Q) : Q := fold_left Qmin xs x.
Definition spread_max (x : Q) (xs : list Q) : Q := fold_left Qmax xs x.

(** The module-level object [assetPriceHistory: Record<string, AssetChartData>]
    is threaded explicitly as a finite map. *)
Definition initAssetPriceHistory (now : Z) (assetId : string) (initialPrice : Q)
    (assetPriceHistory : gmap string AssetChartData.t)
  : gmap string AssetChartData.t :=
  let timestamp := now in
  <[assetId := AssetChartData.mk [timestamp] [initialPrice]
                 initialPrice initialPrice
                 [mkPoint initialPrice timestamp]]> assetPriceHistory.

(** The body of [updateAssetPriceHistory] once the entry exists. *)
Definition appendAssetPoint (price : Q) (timestamp : Z)
    (history : AssetChartData.t) : AssetChartData.t :=
  (* Add new data point *)
  let timestamps := push (AssetChartData.timestamps history) timestamp in
  let prices := push (AssetChartData.prices history) price in
  let data := push (AssetChartData.data history) (mkPoint price timestamp) in
  (* Update min/max tracking *)
  let min := Qmin (AssetChartData.min history) price in
  let max := Qmax (AssetChartData.max history) price in
  (* Limit history length - keep most recent 50 points *)
  if (50 <? length prices)%nat then
    let timestamps := shift timestamps in
    let prices := shift prices in
    let data := shift data in
    (* Recalculate min/max when removing points *)
    match prices with
    | p :: ps =>
        AssetChartData.mk timestamps prices
          (spread_min p ps) (spread_max p ps) data
    | [] => AssetChartData.mk timestamps prices min max data
    end
  else AssetChartData.mk timestamps prices min max data.

(** [now] is the reading of [Date.now()] used by the initialisation branch;
    [timestamp] is the (defaulted) third argument. *)
Definition updateAssetPriceHistory (now : Z) (assetId : string) (price : Q)
    (timestamp : Z) (assetPriceHistory : gmap string AssetChartData.t)
  : gmap string AssetChartData.t :=
  match assetPriceHistory !! assetId with
  | None => initAssetPriceHistory now assetId price assetPriceHistory
  | Some history =>
      <[assetId := appendAssetPoint price timestamp history]> assetPriceHistory
  end.

(** The initial value of the module-level [portfolioHistory]. *)
Definition portfolioHistory0 : PortfolioHistoryData.t :=
  PortfolioHistoryData.mk [] [] [] [] 0 0 0 [].

Definition updatePortfolioHistory (value : Q) (timestamp : Z)
    (event : option (string * string)) (ph : PortfolioHistoryData.t)
  : PortfolioHistoryData.t :=
  let '(PortfolioHistoryData.mk timestamps values events annotations
          min max startValue data) := ph in
  (* Store initial value if first data point *)
  let '(startValue, min, max) :=
    if (length values =? 0)%nat
    then (value, value * 0.9, value * 1.1)
    else (startValue, min, max) in
  (* Add new data point *)
  let timestamps := push timestamps timestamp in
  let values := push values value in
  let data := push data (mkPoint value timestamp) in
  (* Track min/max with 10% padding *)
  let min := Qmin min (value * 0.9) in
  let max := Qmax max (value * 1.1) in
  (* Add event if provided *)
  let events :=
    match event with
    | Some (type, description) =>
        push events (mkEvent timestamp value type description)
    | None => events
    end in
  (* Keep reasonable history size *)
  if (200 <? length values)%nat then
    PortfolioHistoryData.mk (shift timestamps) (shift values) events
      annotations min max startValue (shift data)
  else
    PortfolioHistoryData.mk timestamps values events annotations
      min max startValue data.

(** The asset fields read by the sparkline generator. *)
Record SparkAsset := mkSparkAsset {
  price : Q;
  previousPrice : Q;
  volatility : Q
}.

(** One intermediate sample of the sparkline, at loop index [i]; [r] is the
    value returned by [Math.random()] in that iteration and [t0] the
    timestamp of [history[0]]. *)
Definition sparklinePoint (basePrice previousPrice volatility : Q)
    (length : Z) (t0 : Z) (i : Z) (r : Q) : ChartDataPoint :=
  let position := inject_Z i / inject_Z (length - 1) in
  let trendFactor :=
    if Qltb 0.5 position then (position - 0.5) * 2 else 0 in
  let baseValue := previousPrice * (1 - position) + basePrice * position in
  let deviation := (r - 0.5) * volatility * basePrice * 0.6 in
  let value := baseValue + deviation * (1 - trendFactor) in
  mkPoint value (t0 + i * 500)%Z.

(** [for (let i = start; i < length - 1; i++) history.push(...)], run for
    [n] iterations. *)
Fixpoint sparklineLoop (basePrice previousPrice volatility : Q)
    (length : Z) (t0 : Z) (random : Z -> Q)
    (n : nat) (i : Z) (history : list ChartDataPoint) : list ChartDataPoint :=
  match n with
  | O => history
  | S n' =>
      sparklineLoop basePrice previousPrice volatility length t0 random
        n' (i + 1)%Z
        (push history
           (sparklinePoint basePrice previousPrice volatility length t0 i
              (random i)))
  end.

(** [now0] and [now1] are the two readings of [Date.now()]; [random i] is
    the draw of [Math.random()] in iteration [i].  The guard [i < length - 1]
    starting from [i = 1] holds for exactly [length - 2] iterations. *)
Definition generateEnhancedSparklineData (now0 now1 : Z) (random : Z -> Q)
    (asset : SparkAsset) (length : Z) : list ChartDataPoint :=
  let basePrice := price asset in
  let previousPrice := previousPrice asset in
  let volatility := volatility asset in
  let history := [mkPoint previousPrice (now0 - length * 500)%Z] in
  let t0 := (now0 - length * 500)%Z in
  let history :=
    sparklineLoop basePrice previousPrice volatility length t0 random
      (Z.to_nat (length - 2)) 1%Z history in
  push history (mkPoint basePrice now1).

End ChartUtils.

(** ** types/game.ts *)

Module Types.

(** Modelled from the spec: the declarations of [types/game.ts] are not
    part of the sources at hand.  Each record keeps the fields that the
    provider and the components read, under the names they are read by;
    section 3 of the specification lists the same fields. *)

Module Asset.
Record t := mk {
  id : string;
  name : string;
  price : Q;
  previousPrice : Q;
  volatility : Q;
  color : string
}.
End Asset.

Module Holding.
Record t := mk {
  quantity : Q;
  shortQuantity : Q;
  averageShortPrice : Q
}.
End Holding.

Inductive TradeAction := buy | sell | short | cover.

Module NewsItem.
Record t := mk {
  id : string;
  title : string;
  description : string;
  magnitude : Q;
  impactedAssets : list string;
  chainId : option string;
  chainSequence : option Z
}.
End NewsItem.

(** Modelled from the spec: the event-density parameter comes from
    [utils/difficultyManager], which is not part of the sources; section 4.2
    describes it as a numeric policy value. *)
Definition Density : Type := Q.

(** [holdings] is the object [Record<string, Holding>], kept as its entries
    in property order, which is the order [Object.entries] visits them in. *)
Module GameState.
Record t := mk {
  cash : Q;
  holdings : list (string * Holding.t);
  assets : list Asset.t;
  isPaused : bool;
  isGameOver : bool;
  round : Z;
  timeRemaining : Q;
  marketHealth : Q;
  eventDensity : Density;
  activeNews : list NewsItem.t
}.
End GameState.

End Types.

(** ** components/AssetList.tsx *)

Module AssetList.
Import Types.

(** The object literal [{ value }]. *)
Record HistoryPoint := mkHistoryPoint { value : Q }.

(** One intermediate sample of the chart history, at loop index [i], where
    [r] is the value returned by [Math.random()] in that iteration. *)
Definition historyPoint (basePrice previousPrice volatility : Q)
    (points : Z) (i : Z) (r : Q) : HistoryPoint :=
  let position := inject_Z i / inject_Z (points - 1) in
  let trendFactor :=
    if Qltb 0.5 position then (position - 0.5) * 2 else 0 in
  let baseValue := previousPrice * (1 - position) + basePrice * position in
  let deviation := (r - 0.5) * volatility * basePrice * 0.3 in
  let value := baseValue + deviation * (1 - trendFactor) in
  mkHistoryPoint value.

(** [for (let i = start; i < points - 1; i++) history.push({ value })], run
    for [n] iterations. *)
Fixpoint historyLoop (basePrice previousPrice volatility : Q)
    (points : Z) (random : Z -> Q)
    (n : nat) (i : Z) (history : list HistoryPoint) : list HistoryPoint :=
  match n with
  | O => history
  | S n' =>
      historyLoop basePrice previousPrice volatility points random
        n' (i + 1)%Z
        (ChartUtils.push history
           (historyPoint basePrice previousPrice volatility points i
              (random i)))
  end.

Definition generatePriceHistory (random : Z -> Q) (asset : Asset.t)
  : list HistoryPoint :=
  let points := 20%Z in (* Number of data points *)
  let basePrice := Asset.price asset in
  let previousPrice := Asset.previousPrice asset in
  let volatility := Asset.volatility asset in
  let history := [mkHistoryPoint previousPrice] in
  let history :=
    historyLoop basePrice previousPrice volatility points random
      (Z.to_nat (points - 2)) 1%Z history in
  ChartUtils.push history (mkHistoryPoint basePrice).

End AssetList.

(** ** contexts/GameContext.tsx

    The text of the provider follows the asset list component in
    [src/components/AssetList.tsx]. *)

Module GameContext.
Import Types.

(** The payload of an [EXECUTE_TRADE] action. *)
Record TradePayload := mkTradePayload {
  tp_assetId : string;
  tp_action : TradeAction;
  tp_amount : Q;
  tp_price : Q;
  tp_timestamp : Z
}.

(** The reducer actions that the modelled handlers dispatch. *)
Inductive Action :=
| TICK (deltaTime : Q)
| UPDATE_PRICES
| ADD_NEWS (payload : NewsItem.t)
| EXPIRE_NEWS (id : string)
| UPDATE_MARKET_HEALTH (newHealth : Q)
| UPDATE_NET_WORTH (timestamp : Z)
| UPDATE_EVENT_DENSITY (density : Density)
| SET_LAST_NEWS_UPDATE (time : Z)
| EXECUTE_TRADE (payload : TradePayload).

(** The arrow functions handed to [setTimeout], each with the variables of
    the enclosing scope that it closes over.  [state] is the constant bound
    by [useReducer] in the render that created the callback: a closure
    keeps that snapshot, whatever the reducer state becomes later. *)
Inductive Callback :=
| FollowUpNews (state : GameState.t) (newsItem : NewsItem.t) (chainId : string)
| ExpireNews (newsItem : NewsItem.t).

(** The argument of [toast({ title, description, duration, variant })]. *)
Record Toast := mkToast {
  toast_title : string;
  toast_description : string;
  toast_duration : Z;
  toast_variant : string
}.

(** The [useState] cells of the provider that the driver reads and sets. *)
Record Hooks := mkHooks {
  lastTickTime : option Q;
  lastPriceUpdate : Z;
  lastNetWorthUpdate : Z;
  eventSchedule : list Q
}.

(** Everything a handler can read or change besides the reducer state it
    closes over: the clock, the random source position, the actions
    dispatched so far (oldest first), the pending [setTimeout] entries with
    their due time, the toasts shown, the next values of the [useState]
    cells, and the two module-level chart stores. *)
Record World := mkWorld {
  clock : Z;
  draws : nat;
  dispatched : list Action;
  timers : list (Z * Callback);
  toasts : list Toast;
  hooks : Hooks;
  assetPriceHistory : gmap string ChartUtils.AssetChartData.t;
  portfolioHistory : ChartUtils.PortfolioHistoryData.t
}.

(** A handler is a state transformer over the world. *)
Definition M (A : Type) : Type := World -> A * World.

#[export] Instance M_ret : MRet M := fun A a w => (a, w).
#[export] Instance M_bind : MBind M :=
  fun A B k m w => let '(a, w') := m w in k a w'.

Definition when (b : bool) (m : M unit) : M unit :=
  if b then m else mret tt.

(** [xs.forEach((x, index) => f x index)] *)
Fixpoint forEachFrom {A} (f : A -> nat -> M unit) (index : nat) (xs : list A)
  : M unit :=
  match xs with
  | [] => mret tt
  | x :: xs' => f x index;; forEachFrom f (S index) xs'
  end.

Definition forEach {A} (xs : list A) (f : A -> nat -> M unit) : M unit :=
  forEachFrom f 0%nat xs.

Definition Date_now : M Z := fun w => (clock w, w).

Definition dispatch (a : Action) : M unit := fun w =>
  (tt, mkWorld (clock w) (draws w) (ChartUtils.push (dispatched w) a)
         (timers w) (toasts w) (hooks w)
         (assetPriceHistory w) (portfolioHistory w)).

(** [setTimeout(cb, delay)]: the callback becomes due [delay] milliseconds
    after the current clock reading. *)
Definition setTimeout (cb : Callback) (delay : Z) : M unit := fun w =>
  (tt, mkWorld (clock w) (draws w) (dispatched w)
         (ChartUtils.push (timers w) ((clock w + delay)%Z, cb))
         (toasts w) (hooks w)
         (assetPriceHistory w) (portfolioHistory w)).

Definition toast (t : Toast) : M unit := fun w =>
  (tt, mkWorld (clock w) (draws w) (dispatched w) (timers w)
         (ChartUtils.push (toasts w) t) (hooks w)
         (assetPriceHistory w) (portfolioHistory w)).

Definition setHooks (f : Hooks -> Hooks) : M unit := fun w =>
  (tt, mkWorld (clock w) (draws w) (dispatched w) (timers w) (toasts w)
         (f (hooks w)) (assetPriceHistory w) (portfolioHistory w)).

Definition setLastTickTime (v : Q) : M unit :=
  setHooks (fun h => mkHooks (Some v) (lastPriceUpdate h)
                       (lastNetWorthUpdate h) (eventSchedule h)).
Definition setLastPriceUpdate (v : Z) : M unit :=
  setHooks (fun h => mkHooks (lastTickTime h) v
                       (lastNetWorthUpdate h) (eventSchedule h)).
Definition setLastNetWorthUpdate (v : Z) : M unit :=
  setHooks (fun h => mkHooks (lastTickTime h) (lastPriceUpdate h)
                       v (eventSchedule h)).
(** [setEventSchedule(prev => f prev)] and [setEventSchedule(v)] *)
Definition setEventSchedule (f : list Q -> list Q) : M unit :=
  setHooks (fun h => mkHooks (lastTickTime h) (lastPriceUpdate h)
                       (lastNetWorthUpdate h) (f (eventSchedule h))).

(** Calls into chartUtils, which mutate its module-level stores. *)
Definition updateAssetPriceHistory (assetId : string) (price : Q)
    (timestamp : Z) : M unit := fun w =>
  (tt, mkWorld (clock w) (draws w) (dispatched w) (timers w) (toasts w)
         (hooks w)
         (ChartUtils.updateAssetPriceHistory (clock w) assetId price
            timestamp (assetPriceHistory w))
         (portfolioHistory w)).

Definition updatePortfolioHistory (value : Q) (timestamp : Z) : M unit :=
  fun w =>
  (tt, mkWorld (clock w) (draws w) (dispatched w) (timers w) (toasts w)
         (hooks w) (assetPriceHistory w)
         (ChartUtils.updatePortfolioHistory value timestamp None
            (portfolioHistory w))).

(** One call of an impure external function: its result is read from the
    oracle at the current position of the random source, which then moves
    on. *)
Definition draw {A} (oracle : nat -> A) : M A := fun w =>
  (oracle (draws w),
   mkWorld (clock w) (S (draws w)) (dispatched w) (timers w) (toasts w)
     (hooks w) (assetPriceHistory w) (portfolioHistory w)).

(** [state.assets.find(a => a.id === assetId)] *)
Definition findAsset (assets : list Asset.t) (assetId : string)
  : option Asset.t :=
  List.find (fun a => String.eqb (Asset.id a) assetId) assets.

(** [prev.filter((_, i) => i !== index)] *)
Fixpoint filterIndexFrom {A} (i index : nat) (l : list A) : list A :=
  match l with
  | [] => []
  | x :: l' =>
      if (i =? index)%nat then filterIndexFrom (S i) index l'
      else x :: filterIndexFrom (S i) index l'
  end.

Definition PRICE_UPDATE_INTERVAL : Z := 1000.

(** Calculate the net worth of the portfolio; [state] is the snapshot the
    closure sees. *)
Definition calculateNetWorth (state : GameState.t) : Q :=
  fold_left
    (fun netWorth '(assetId, holding) =>
       match findAsset (GameState.assets state) assetId with
       | Some asset =>
           let netWorth :=
             netWorth + Holding.quantity holding * Asset.price asset in
           if Qltb 0 (Holding.shortQuantity holding) then
             let shortProfit :=
               Holding.shortQuantity holding
               * (Holding.averageShortPrice holding - Asset.price asset) in
             netWorth + shortProfit
           else netWorth
       | None => netWorth
       end)
    (GameState.holdings state)
    (GameState.cash state).

(** The error kinds that section 7 of the specification names.  The
    provider declares none of them; they are listed so that a claimed
    result can be compared with what a call evaluates to. *)
Inductive TradeError :=
| InsufficientFunds | InsufficientHoldings | InvalidAsset | InvalidState.

(** What a call evaluates to.  The provider's functions are declared
    [=> void]: every path of theirs returns [undefined]. *)
Inductive ReturnValue :=
| undefined
| error (e : TradeError).

(** Execute a trade. *)
Definition executeTrade (state : GameState.t) (assetId : string)
    (action : TradeAction) (amount : Q) : M ReturnValue :=
  if GameState.isGameOver state then mret undefined
  else
    match findAsset (GameState.assets state) assetId with
    | None => mret undefined
    | Some asset =>
        now ← Date_now;
        dispatch (EXECUTE_TRADE
                    (mkTradePayload assetId action amount
                       (Asset.price asset) now));;
        mret undefined
    end.

Section Externals.

(** The collaborators imported from [utils/newsGenerator],
    [utils/difficultyManager] and [uuid], and [Math.random].  Their last
    argument is the position of the random source at the call. *)
Variable generateMarketNews : list Asset.t -> Z -> bool -> nat -> NewsItem.t.
Variable shouldBeHighImpactEvent : Density -> nat -> bool.
Variable shouldBeChainedEvent : Density -> nat -> bool.
Variable uuidv4 : nat -> string.
Variable Math_random : nat -> Q.
Variable getRoundEventDensity : Z -> Density.
Variable calculateRoundEventCount : Density -> Z.
Variable scheduleRoundEvents : Z -> Z -> Density -> nat -> list Q.

(** The follow-up item built inside the delayed callback:
    [{ ...followUpNews, chainId, chainSequence: 2, title, impactedAssets,
       magnitude }]. *)
Definition followUpPayload (followUpNews newsItem : NewsItem.t)
    (chainId : string) : NewsItem.t :=
  NewsItem.mk (NewsItem.id followUpNews)
    ("UPDATE: " +:+ NewsItem.title followUpNews)
    (NewsItem.description followUpNews)
    (NewsItem.magnitude newsItem * 1.5) (* Increased impact *)
    (NewsItem.impactedAssets newsItem)
    (Some chainId)
    (Some 2%Z).

(** Running a [setTimeout] callback when it fires.  The guard of the
    follow-up reads [state.isPaused] and [state.isGameOver] from the
    snapshot the closure captured when the event was scheduled, not from
    the reducer state at the time of firing. *)
Definition runCallback (cb : Callback) : M unit :=
  match cb with
  | FollowUpNews state newsItem chainId =>
      if negb (GameState.isPaused state) && negb (GameState.isGameOver state)
      then
        followUpNews ←
          draw (generateMarketNews (GameState.assets state)
                  (GameState.round state) true);
        dispatch (ADD_NEWS (followUpPayload followUpNews newsItem chainId))
      else mret tt
  | ExpireNews newsItem => dispatch (EXPIRE_NEWS (NewsItem.id newsItem))
  end.

(** The body of [eventSchedule.forEach((timing, index) => ...)] once the
    timing matched: generate, maybe chain, emit, unschedule, notify and
    arm the expiry. *)
Definition onScheduledEvent (state : GameState.t) (index : nat) : M unit :=
  let density := GameState.eventDensity state in
  (* Generate a news event *)
  highImpact ← draw (shouldBeHighImpactEvent density);
  newsItem ← draw (generateMarketNews (GameState.assets state)
                     (GameState.round state) highImpact);
  (* Check for chained events *)
  chained ← draw (shouldBeChainedEvent density);
  newsItem ←
    (if chained : bool then
       chainId ← draw uuidv4;
       let newsItem :=
         NewsItem.mk (NewsItem.id newsItem) (NewsItem.title newsItem)
           (NewsItem.description newsItem) (NewsItem.magnitude newsItem)
           (NewsItem.impactedAssets newsItem) (Some chainId) (Some 1%Z) in
       (* Schedule follow-up news *)
       r ← draw Math_random;
       let followUpDelay := (Qfloor (r * 10000) + 5000)%Z in
       setTimeout (FollowUpNews state newsItem chainId) followUpDelay;;
       mret newsItem
     else mret newsItem);
  (* Add the news item *)
  dispatch (ADD_NEWS newsItem);;
  (* Remove this timing from the schedule *)
  setEventSchedule (filterIndexFrom 0 index);;
  (* If high-impact events, show toast notification *)
  when (Qltb 0.7 (NewsItem.magnitude newsItem))
    (toast (mkToast "Breaking News!" (NewsItem.title newsItem) 4000
              "destructive"));;
  (* Set expiration time for the news item *)
  setTimeout (ExpireNews newsItem) 15000.

(** The per-frame driver.  [state] and [hk] are the reducer state and the
    [useState] values of the render whose effect installed the callback;
    [timestamp] is the frame time handed over by [requestAnimationFrame].
    Re-arming the next frame is left to the caller. *)
Definition updateTimer (state : GameState.t) (hk : Hooks) (timestamp : Q)
  : M unit :=
  if negb (GameState.isGameOver state) then
    match lastTickTime hk with
    | None => setLastTickTime timestamp
    | Some last =>
        let deltaTime := (timestamp - last) / 1000 in
        dispatch (TICK deltaTime);;
        now ← Date_now;
        (* Update asset prices *)
        when (PRICE_UPDATE_INTERVAL <=? now - lastPriceUpdate hk)%Z
          (dispatch UPDATE_PRICES;;
           forEach (GameState.assets state) (fun asset _ =>
             updateAssetPriceHistory (Asset.id asset) (Asset.price asset) now);;
           setLastPriceUpdate now);;
        (* Check scheduled news events *)
        when (negb (GameState.isPaused state))
          (let elapsedTime := 60 - GameState.timeRemaining state in
           let elapsedMs := elapsedTime * 1000 in
           forEach (eventSchedule hk) (fun timing index =>
             when (Qltb (Qabs (elapsedMs - timing)) 100)
               (onScheduledEvent state index)));;
        (* Occasionally update market health *)
        r ← draw Math_random;
        when (Qltb r 0.02)
          (r' ← draw Math_random;
           let healthChange := r' * 6 - 3 in
           let newHealth :=
             Qmax 0 (Qmin 100 (GameState.marketHealth state + healthChange)) in
           dispatch (UPDATE_MARKET_HEALTH newHealth));;
        (* Update net worth periodically *)
        when (PRICE_UPDATE_INTERVAL <=? now - lastNetWorthUpdate hk)%Z
          (let netWorth := calculateNetWorth state in
           dispatch (UPDATE_NET_WORTH now);;
           updatePortfolioHistory netWorth now;;
           setLastNetWorthUpdate now);;
        setLastTickTime timestamp
    end
  else mret tt.

(** The effect that schedules the news events of a round; it runs when
    [state.round], [state.isPaused] or [state.isGameOver] changes. *)
Definition scheduleRoundEffect (state : GameState.t) : M unit :=
  if negb (GameState.isPaused state) && negb (GameState.isGameOver state)
     && (0 <? GameState.round state)%Z
  then
    let density := getRoundEventDensity (GameState.round state) in
    let eventCount := calculateRoundEventCount density in
    timings ← draw (scheduleRoundEvents eventCount 60 density);
    dispatch (UPDATE_EVENT_DENSITY density);;
    setEventSchedule (fun _ => timings);;
    now ← Date_now;
    dispatch (SET_LAST_NEWS_UPDATE now)
  else mret tt.

(** The runtime firing the [k]-th pending timer, which it may do once the
    timer is due.  The runtime does not look at the game state. *)
Definition fireTimer (k : nat) (w : World) : option World :=
  match timers w !! k with
  | Some (due, cb) =>
      if (due <=? clock w)%Z then
        Some (snd (runCallback cb
                     (mkWorld (clock w) (draws w) (dispatched w)
                        (delete k (timers w)) (toasts w) (hooks w)
                        (assetPriceHistory w) (portfolioHistory w))))
      else None
  | None => None
  end.

End Externals.

(** Time passing between two handlers. *)
Definition advanceClock (ms : Z) (w : World) : World :=
  mkWorld (clock w + ms)%Z (draws w) (dispatched w) (timers w) (toasts w)
    (hooks w) (assetPriceHistory w) (portfolioHistory w).

End GameContext.

(** ** reducers/gameReducer.ts *)

Module GameReducer.
Import Types GameContext.

Definition setTimeRemaining (state : GameState.t) (t : Q) : GameState.t :=
  GameState.mk (GameState.cash state) (GameState.holdings state)
    (GameState.assets state) (GameState.isPaused state)
    (GameState.isGameOver state) (GameState.round state) t
    (GameState.marketHealth state) (GameState.eventDensity state)
    (GameState.activeNews state).

Definition setActiveNews (state : GameState.t) (news : list NewsItem.t)
  : GameState.t :=
  GameState.mk (GameState.cash state) (GameState.holdings state)
    (GameState.assets state) (GameState.isPaused state)
    (GameState.isGameOver state) (GameState.round state)
    (GameState.timeRemaining state)
    (GameState.marketHealth state) (GameState.eventDensity state) news.

(** Modelled from the spec: [reducers/gameReducer.ts] is not part of the
    sources.  Three of its cases are written down from the specification:
    - TICK: the countdown of [timeRemaining] advances towards 0 while the
      game runs; pausing prevents countdown advancement, and game over
      accepts no further mutation (sections 3, 4.6 and 5);
    - ADD_NEWS: the item joins the active news list (section 4.3);
    - EXPIRE_NEWS: the item with that id is removed from the active news
      list (section 4.3).
    Game over gates every case at its entry (section 5); the pause flag
    gates the countdown only.  [None] stands for the cases that the
    specification does not pin down. *)
Definition gameReducer (state : GameState.t) (a : Action)
  : option GameState.t :=
  if GameState.isGameOver state then Some state
  else
    match a with
    | TICK deltaTime =>
        if GameState.isPaused state then Some state
        else
          Some (setTimeRemaining state
                  (Qmax 0 (GameState.timeRemaining state - deltaTime)))
    | ADD_NEWS payload =>
        Some (setActiveNews state
                (ChartUtils.push (GameState.activeNews state) payload))
    | EXPIRE_NEWS id =>
        Some (setActiveNews state
                (List.filter
                   (fun n => negb (String.eqb (NewsItem.id n) id))
                   (GameState.activeNews state)))
    | _ => None
    end.

(** The reducer state after a list of dispatched actions. *)
Fixpoint reduceAll (state : GameState.t) (acts : list Action)
  : option GameState.t :=
  match acts with
  | [] => Some state
  | a :: acts' =>
      match gameReducer state a with
      | Some state' => reduceAll state' acts'
      | None => None
      end
  end.

End GameReducer.

(** ** The specification's formula for net worth (section 4.5) *)

Module NetWorthSpec.
Import Types GameContext.

Definition Qsum (l : list Q) : Q := fold_right Qplus 0 l.

(** The holdings whose asset is on the asset list, each with that asset. *)
Definition heldAssets (state : GameState.t)
  : list (Holding.t * Asset.t) :=
  omap (fun '(assetId, holding) =>
          match findAsset (GameState.assets state) assetId with
          | Some asset => Some (holding, asset)
          | None => None
          end)
    (GameState.holdings state).

(** Market value of the long positions: quantity times current price. *)
Definition longValue (state : GameState.t) : Q :=
  Qsum (map (fun '(holding, asset) =>
               Holding.quantity holding * Asset.price asset)
          (heldAssets state)).

(** Profit and loss of the short positions: for each holding with a short
    position, shortQuantity times (averageShortPrice - current price). *)
Definition shortPnL (state : GameState.t) : Q :=
  Qsum (map (fun '(holding, asset) =>
               Holding.shortQuantity holding
               * (Holding.averageShortPrice holding - Asset.price asset))
          (List.filter (fun '(holding, _) =>
                          Qltb 0 (Holding.shortQuantity holding))
             (heldAssets state))).

Definition netWorth (state : GameState.t) : Q :=
  GameState.cash state + longValue state + shortPnL state.

End NetWorthSpec.

(** ** Runs of the history stores *)

Module Runs.
Import ChartUtils.

(** One call [updateAssetPriceHistory(assetId, price, timestamp)], made
    when [Date.now()] reads [aa_now]. *)
Record AssetAppend := mkAssetAppend {
  aa_now : Z;
  aa_assetId : string;
  aa_price : Q;
  aa_timestamp : Z
}.

(** One call [updatePortfolioHistory(value, timestamp, event)]. *)
Record PortfolioAppend := mkPortfolioAppend {
  pa_value : Q;
  pa_timestamp : Z;
  pa_event : option (string * string)
}.

Definition assetAppend (h : gmap string AssetChartData.t) (op : AssetAppend)
  : gmap string AssetChartData.t :=
  updateAssetPriceHistory (aa_now op) (aa_assetId op) (aa_price op)
    (aa_timestamp op) h.

Definition portfolioAppend (ph : PortfolioHistoryData.t)
    (op : PortfolioAppend) : PortfolioHistoryData.t :=
  updatePortfolioHistory (pa_value op) (pa_timestamp op) (pa_event op) ph.

(** The store after a sequence of appends, starting from the module's
    initial value: the empty object, resp. [portfolioHistory0]. *)
Definition assetRun (ops : list AssetAppend) : gmap string AssetChartData.t :=
  fold_left assetAppend ops ∅.

Definition portfolioRun (ops : list PortfolioAppend)
  : PortfolioHistoryData.t :=
  fold_left portfolioAppend ops portfolioHistory0.

(** [x] is the least, resp. the greatest, of the values stored in [l]. *)
Definition is_minimum (x : Q) (l : list Q) : Prop :=
  In x l /\ Forall (fun y => x <= y) l.
Definition is_maximum (x : Q) (l : list Q) : Prop :=
  In x l /\ Forall (fun y => y <= x) l.

(** The three parallel arrays of a per-asset history stay aligned and
    within the cap. *)
Definition asset_wf (d : AssetChartData.t) : Prop :=
  (1 <= length (AssetChartData.prices d) <= 50)%nat
  /\ length (AssetChartData.timestamps d) = length (AssetChartData.prices d)
  /\ length (AssetChartData.data d) = length (AssetChartData.prices d).

(** The stored bounds of a per-asset history are those of its prices. *)
Definition asset_minmax (d : AssetChartData.t) : Prop :=
  is_minimum (AssetChartData.min d) (AssetChartData.prices d)
  /\ is_maximum (AssetChartData.max d) (AssetChartData.prices d).

(** The three parallel arrays of the portfolio history stay aligned and
    within the cap. *)
Definition portfolio_wf (ph : PortfolioHistoryData.t) : Prop :=
  (length (PortfolioHistoryData.values ph) <= 200)%nat
  /\ length (PortfolioHistoryData.timestamps ph)
     = length (PortfolioHistoryData.values ph)
  /\ length (PortfolioHistoryData.data ph)
     = length (PortfolioHistoryData.values ph).

End Runs.

(** ** The shape of a trend series (section 4.1) *)

Module TrendSpec.

(** Linear interpolation between the two prices at sample [i] of [n]. *)
Definition interpolation (previousPrice basePrice : Q) (n i : Z) : Q :=
  previousPrice * (1 - inject_Z i / inject_Z (n - 1))
  + basePrice * (inject_Z i / inject_Z (n - 1)).

(** The random deviation drawn for a sample: proportional to volatility
    times price times the scale constant of the call site. *)
Definition deviation (scale r volatility basePrice : Q) : Q :=
  (r - 0.5) * volatility * basePrice * scale.

(** The weight of the deviation at sample [i] of [n]: full up to the
    midpoint, then falling linearly to 0 at the last sample. *)
Definition weight (n i : Z) : Q :=
  if (2 * i <=? n - 1)%Z then 1
  else 2 * (1 - inject_Z i / inject_Z (n - 1)).

End TrendSpec.

(** ** Steps of the world *)

Module Handlers.
Import Types GameContext.

(** An action other than the emission of a news item. *)
Definition not_news (a : Action) : Prop :=
  match a with ADD_NEWS _ => False | _ => True end.

(** A step of the world that arms no timer, leaves the event schedule
    alone and emits no news item. *)
Definition quiet (w w' : World) : Prop :=
  timers w' = timers w
  /\ eventSchedule (hooks w') = eventSchedule (hooks w)
  /\ exists acts,
       dispatched w' = dispatched w ++ acts /\ Forall not_news acts.

(** A pending callback whose guard, evaluated on the snapshot it closed
    over, lets it through. *)
Definition armed (cb : Callback) : Prop :=
  match cb with
  | FollowUpNews state _ _ =>
      GameState.isPaused state = false /\ GameState.isGameOver state = false
  | ExpireNews _ => True
  end.

(** A step of the world that only adds armed callbacks to the pending
    timers. *)
Definition arming (w w' : World) : Prop :=
  exists new,
    timers w' = timers w ++ new /\ Forall (fun t => armed (snd t)) new.

(** A step that touches neither the pending timers, nor the dispatched
    actions, nor the event schedule. *)
Definition silent (w w' : World) : Prop :=
  timers w' = timers w
  /\ dispatched w' = dispatched w
  /\ eventSchedule (hooks w') = eventSchedule (hooks w).

(** Every run of the handler [m] is a step in the relation [R]. *)
Definition respects (R : World -> World -> Prop) {A} (m : M A) : Prop :=
  forall w, R w (snd (m w)).

(** [wp m Q w]: the handler [m], run from the world [w], ends with a
    result and a world that satisfy [Q]. *)
Definition wp {A} (m : M A) (Q : A -> World -> Prop) (w : World) : Prop :=
  Q (fst (m w)) (snd (m w)).

End Handlers.

(** ** Example data *)

Module Examples.
Import Types ChartUtils Runs GameContext GameReducer.

(** A run whose first point is small and is evicted by the 201st append,
    and a run that stores the same 200 points afterwards. *)
Definition opsA : list PortfolioAppend :=
  mkPortfolioAppend 1 0 None :: repeat (mkPortfolioAppend 100 0 None) 200.
Definition opsB : list PortfolioAppend :=
  repeat (mkPortfolioAppend 100 0 None) 201.

(** The asset of the specification's example: previous price 100, current
    price 120, volatility 0.1. *)
Definition sparkAsset : SparkAsset :=
  mkSparkAsset 120 100 0.1.
Definition chartAsset : Asset.t :=
  Asset.mk "gold" "Gold" 120 100 0.1 "gold".
(** A random source that always returns 0, the least value of
    [Math.random()]. *)
Definition random0 : Z -> Q := fun _ => 0.

Definition stock : Asset.t := Asset.mk "stock" "Stock" 50 48 0.2 "stock".
Definition oil : Asset.t := Asset.mk "oil" "Oil" 30 33 0.3 "oil".

(** The snapshot of the specification's net worth example: cash 1000, two
    units held of an asset priced 50, and one unit shorted at an average
    of 40 of an asset now priced 30.  The game runs, in round 1 with the
    60 seconds of the round still to go. *)
Definition exampleState : GameState.t :=
  GameState.mk 1000
    [("stock"%string, Holding.mk 2 0 0); ("oil"%string, Holding.mk 0 1 40)]
    [stock; oil] false false 1 60 50 1 [].

(** The same portfolio once the game is over. *)
Definition gameOverState : GameState.t :=
  GameState.mk 1000
    [("stock"%string, Holding.mk 2 0 0); ("oil"%string, Holding.mk 0 1 40)]
    [stock; oil] false true 10 0 50 1 [].

(** A world in which nothing has happened yet, the clock reading
    1000000. *)
Definition world0 : World :=
  mkWorld 1000000 0 [] [] [] (mkHooks None 0 0 [])
    ∅ portfolioHistory0.

(** Example collaborators: the generator returns one item for the event
    and another one for the follow-up; every event is chained and none is
    high impact; [Math.random()] returns one half. *)
Definition exampleNews : list Asset.t -> Z -> bool -> nat -> NewsItem.t :=
  fun _ _ _ n =>
    if (n <? 3)%nat
    then NewsItem.mk "news-1" "Oil supply shock" "Output cut" 0.6
           ["oil"%string] None None
    else NewsItem.mk "news-2" "Markets react" "Sell-off" 0.4
           ["stock"%string] None None.
Definition neverHighImpact : Density -> nat -> bool := fun _ _ => false.
Definition alwaysChained : Density -> nat -> bool := fun _ _ => true.
Definition exampleUuid : nat -> string := fun _ => "chain-1"%string.
Definition exampleRandom : nat -> Q := fun _ => 0.5.

(** The two items of the example, as they are emitted. *)
Definition exampleOriginal : NewsItem.t :=
  NewsItem.mk "news-1" "Oil supply shock" "Output cut" 0.6
    ["oil"%string] (Some "chain-1"%string) (Some 1%Z).
Definition exampleFollowUp : NewsItem.t :=
  NewsItem.mk "news-2" "UPDATE: Markets react" "Sell-off" (0.6 * 1.5)
    ["oil"%string] (Some "chain-1"%string) (Some 2%Z).

(** The same portfolio while the game is paused, 42 seconds to go. *)
Definition pausedState : GameState.t :=
  GameState.mk 1000
    [("stock"%string, Holding.mk 2 0 0); ("oil"%string, Holding.mk 0 1 40)]
    [stock; oil] true false 1 42 50 1 [].

(** The chained event of the example fires, then time passes and the
    runtime fires the two pending timers, each once it is due. *)
Definition afterEvent : World :=
  snd (onScheduledEvent exampleNews neverHighImpact alwaysChained
         exampleUuid exampleRandom exampleState 0 world0).
Definition afterFollowUp : option World :=
  fireTimer exampleNews 0 (advanceClock 10000 afterEvent).
Definition afterExpiry : option World :=
  w ← afterFollowUp; fireTimer exampleNews 0 (advanceClock 5000 w).

(** A frame on a running snapshot in which the event scheduled at 50 ms is
    due (no time of the round has elapsed yet), seen 16 ms after the
    previous frame. *)
Definition frameHooks : Hooks := mkHooks (Some 0) 0 0 [50].
Definition afterFrame : World :=
  snd (updateTimer exampleNews neverHighImpact alwaysChained exampleUuid
         exampleRandom exampleState frameHooks 16 world0).

End Examples.

(** ** Property lookup on plain objects *)

Module ObjectPrototype.

(** The properties an object literal inherits from [Object.prototype].
    Each of them is a function or an object, hence truthy, and has none of
    the properties the program reads from an entry. *)
Definition inherited : list string :=
  ["constructor"; "__defineGetter__"; "__defineSetter__"; "hasOwnProperty";
   "__lookupGetter__"; "__lookupSetter__"; "isPrototypeOf";
   "propertyIsEnumerable"; "toString"; "valueOf"; "__proto__";
   "toLocaleString"]%string.

End ObjectPrototype.

(** ** chartUtils.ts: the asset store as the object it is *)

Module ObjectStore.
Import ChartUtils Runs ObjectPrototype.

(** [updateAssetPriceHistory] with the lookup [assetPriceHistory[assetId]]
    as JavaScript performs it.  For an id that names an inherited property
    the lookup is truthy, so the entry is not initialised, and
    [history.timestamps] is [undefined]: the call to [push] throws a
    [TypeError], rendered as [None]. *)
Definition updateAssetPriceHistory (now : Z) (assetId : string) (price : Q)
    (timestamp : Z) (assetPriceHistory : gmap string AssetChartData.t)
  : option (gmap string AssetChartData.t) :=
  match assetPriceHistory !! assetId with
  | Some history =>
      Some (<[assetId := appendAssetPoint price timestamp history]>
              assetPriceHistory)
  | None =>
      if bool_decide (assetId ∈ inherited) then None
      else Some (initAssetPriceHistory now assetId price assetPriceHistory)
  end.

(** A sequence of calls from the empty object; the first call that throws
    ends it. *)
Definition run (ops : list AssetAppend)
  : option (gmap string AssetChartData.t) :=
  fold_left
    (fun store op =>
       h ← store;
       updateAssetPriceHistory (aa_now op) (aa_assetId op) (aa_price op)
         (aa_timestamp op) h)
    ops (Some ∅).

(** No call of the sequence names an inherited property. *)
Definition ownIds (ops : list AssetAppend) : bool :=
  forallb (fun op => negb (bool_decide (aa_assetId op ∈ inherited))) ops.

End ObjectStore.

(** ** What a run of the history stores has been given *)

Module HistorySpec.
Import ChartUtils Runs.

(** The last [n] elements of a list, in their order. *)
Definition lastN {A} (n : nat) (l : list A) : list A :=
  drop (length l - n) l.

(** The calls of a run that concern one asset. *)
Definition callsFor (assetId : string) (ops : list AssetAppend)
  : list AssetAppend :=
  List.filter (fun op => String.eqb (aa_assetId op) assetId) ops.

(** The prices handed over for one asset, oldest first. *)
Definition appendedPrices (assetId : string) (ops : list AssetAppend)
  : list Q :=
  map aa_price (callsFor assetId ops).

(** The timestamps the store keeps for them: that of the clock for the
    call that creates the entry, the timestamp argument afterwards. *)
Definition appendedStamps (assetId : string) (ops : list AssetAppend)
  : list Z :=
  match callsFor assetId ops with
  | [] => []
  | op :: rest => aa_now op :: map aa_timestamp rest
  end.

(** The events handed over to the portfolio history, oldest first. *)
Definition appendedEvents (ops : list PortfolioAppend)
  : list PortfolioEvent :=
  omap (fun op =>
          match pa_event op with
          | Some (type, description) =>
              Some (mkEvent (pa_timestamp op) (pa_value op) type description)
          | None => None
          end)
    ops.

(** The [data] array pairs the two parallel arrays point by point. *)
Definition paired (values : list Q) (timestamps : list Z)
  : list ChartDataPoint :=
  zip_with mkPoint values timestamps.

(** What a per-asset history holds after a run: nothing for an asset never
    updated, else the last 50 prices and stamps it was given. *)
Definition asset_tracks (assetId : string) (ops : list AssetAppend)
    (entry : option AssetChartData.t) : Prop :=
  match entry with
  | None => callsFor assetId ops = []
  | Some d =>
      callsFor assetId ops <> []
      /\ AssetChartData.prices d = lastN 50 (appendedPrices assetId ops)
      /\ AssetChartData.timestamps d
         = lastN 50 (appendedStamps assetId ops)
      /\ AssetChartData.data d
         = paired (AssetChartData.prices d) (AssetChartData.timestamps d)
  end.

(** The entry of an asset after one more call for it. *)
Definition entryStep (entry : option AssetChartData.t) (op : AssetAppend)
  : AssetChartData.t :=
  match entry with
  | Some d => appendAssetPoint (aa_price op) (aa_timestamp op) d
  | None =>
      AssetChartData.mk [aa_now op] [aa_price op] (aa_price op) (aa_price op)
        [mkPoint (aa_price op) (aa_now op)]
  end.

End HistorySpec.

(** ** chartUtils.ts: chart colours *)

Module ChartColors.
Import ObjectPrototype.

(** The comparison [x >= y] of two numbers. *)
Definition Qgeb (x y : Q) : bool := Qle_bool y x.

Record ColorSet := mkColorSet { positive : string; negative : string }.

(** The object [{ line, area }] that the function returns; [line] is
    [undefined] when the colour set found has no such property. *)
Record Colors := mkColors { line : option string; area : string }.

(** The base colour mapping, an object literal: its own properties. *)
Definition baseColors : gmap string ColorSet :=
  list_to_map
    [("stock"%string, mkColorSet "#4A7CFF" "#FF4A7C");
     ("gold"%string, mkColorSet "#FFD700" "#D7A700");
     ("oil"%string, mkColorSet "#4CAF50" "#EF5350");
     ("crypto"%string, mkColorSet "#8A2BE2" "#E22B8A");
     ("default"%string, mkColorSet "#10B981" "#EF4444")].

(** What [baseColors[assetType]] evaluates to when it is not
    [undefined]. *)
Inductive Found :=
| palette (colorSet : ColorSet)
| inheritedProperty.

Definition lookupColors (assetType : string) : option Found :=
  match baseColors !! assetType with
  | Some colorSet => Some (palette colorSet)
  | None =>
      if bool_decide (assetType ∈ inherited) then Some inheritedProperty
      else None
  end.

(** The template literal [`${color}20`]. *)
Definition withAlpha (color : option string) : string :=
  match color with
  | Some color => color +:+ "20"
  | None => "undefined20"
  end.

(** Determine color based on price trend. *)
Definition getAssetChartColors (assetType : string) (prices : list Q)
  : option Colors :=
  (* Determine if trend is up or down *)
  let isPositive :=
    if (1 <? length prices)%nat then
      match prices !! (length prices - 1)%nat, prices !! 0%nat with
      | Some last, Some first => Qgeb last first
      | _, _ => false
      end
    else true in
  (* Get appropriate colors *)
  colorSet ←
    match lookupColors assetType with
    | Some found => Some found
    | None => lookupColors "default"
    end;
  let color :=
    match colorSet with
    | palette colorSet =>
        Some (if isPositive then positive colorSet else negative colorSet)
    | inheritedProperty => None
    end in
  Some (mkColors color
          (if isPositive then withAlpha color else withAlpha color)).

End ChartColors.

(** ** components/InvestmentSummary.tsx *)

Module InvestmentSummary.

(** [InvestmentSummaryProps] *)
Record Props := mkProps {
  totalInvested : Q;
  netWorth : Q;
  cash : Q
}.

Definition investedPercentage (p : Props) : Q :=
  if Qltb 0 (netWorth p) then totalInvested p / netWorth p * 100 else 0.

Definition cashPercentage (p : Props) : Q :=
  if Qltb 0 (netWorth p) then cash p / netWorth p * 100 else 0.

(** Determine if we should show warning for cash levels. *)
Definition lowCash (p : Props) : bool := Qltb (cashPercentage p) 10.
Definition highCash (p : Props) : bool := Qltb 50 (cashPercentage p).

(** The three looks of the cash panel, chosen by
    [lowCash ? red : highCash ? amber : green]. *)
Inductive Tone := red | amber | green.

Definition cashTone (p : Props) : Tone :=
  if lowCash p then red else if highCash p then amber else green.

(** The two hints under the cash figure, each rendered when its flag is
    set: [lowCash && ...] and [highCash && ...]. *)
Definition hints (p : Props) : list string :=
  (if lowCash p then ["Low on cash for new opportunities"%string] else [])
  ++ (if highCash p then ["Consider investing more cash"%string] else []).

End InvestmentSummary.

(** ** The blocks of the per-frame driver *)

Module DriverBlocks.
Import Types GameContext.

Section Externals.
Variable generateMarketNews : list Asset.t -> Z -> bool -> nat -> NewsItem.t.
Variable shouldBeHighImpactEvent : Density -> nat -> bool.
Variable shouldBeChainedEvent : Density -> nat -> bool.
Variable uuidv4 : nat -> string.
Variable Math_random : nat -> Q.

(** The statements of [updateTimer] that follow [const now = Date.now()],
    one definition per commented block of the source. *)

(** Update asset prices. *)
Definition priceBlock (state : GameState.t) (hk : Hooks) (now : Z) : M unit :=
  when (PRICE_UPDATE_INTERVAL <=? now - lastPriceUpdate hk)%Z
    (dispatch UPDATE_PRICES;;
     forEach (GameState.assets state) (fun asset _ =>
       updateAssetPriceHistory (Asset.id asset) (Asset.price asset) now);;
     setLastPriceUpdate now).

(** Check scheduled news events. *)
Definition eventsBlock (state : GameState.t) (hk : Hooks) : M unit :=
  when (negb (GameState.isPaused state))
    (let elapsedTime := 60 - GameState.timeRemaining state in
     let elapsedMs := elapsedTime * 1000 in
     forEach (eventSchedule hk) (fun timing index =>
       when (Qltb (Qabs (elapsedMs - timing)) 100)
         (onScheduledEvent generateMarketNews shouldBeHighImpactEvent
            shouldBeChainedEvent uuidv4 Math_random state index))).

(** Occasionally update market health. *)
Definition healthBlock (state : GameState.t) : M unit :=
  r ← draw Math_random;
  when (Qltb r 0.02)
    (r' ← draw Math_random;
     let healthChange := r' * 6 - 3 in
     let newHealth :=
       Qmax 0 (Qmin 100 (GameState.marketHealth state + healthChange)) in
     dispatch (UPDATE_MARKET_HEALTH newHealth)).

(** The market health that the block proposes when it does: the value
    computed from the second draw. *)
Definition proposedHealth (state : GameState.t) (w : World) : Q :=
  Qmax 0
    (Qmin 100
       (GameState.marketHealth state
        + (Math_random (S (draws w)) * 6 - 3))).

(** Update net worth periodically. *)
Definition netWorthBlock (state : GameState.t) (hk : Hooks) (now : Z)
  : M unit :=
  when (PRICE_UPDATE_INTERVAL <=? now - lastNetWorthUpdate hk)%Z
    (let netWorth := calculateNetWorth state in
     dispatch (UPDATE_NET_WORTH now);;
     updatePortfolioHistory netWorth now;;
     setLastNetWorthUpdate now).

(** The driver, block by block. *)
Definition updateTimerBlocks (state : GameState.t) (hk : Hooks)
    (timestamp : Q) : M unit :=
  if negb (GameState.isGameOver state) then
    match lastTickTime hk with
    | None => setLastTickTime timestamp
    | Some last =>
        let deltaTime := (timestamp - last) / 1000 in
        dispatch (TICK deltaTime);;
        now ← Date_now;
        priceBlock state hk now;;
        eventsBlock state hk;;
        healthBlock state;;
        netWorthBlock state hk now;;
        setLastTickTime timestamp
    end
  else mret tt.

End Externals.

(** The timings of a schedule that a frame on [state] finds due: those
    within 100 ms of the time elapsed in the round. *)
Definition dueTimings (state : GameState.t) (schedule : list Q) : list Q :=
  List.filter
    (fun timing =>
       Qltb (Qabs ((60 - GameState.timeRemaining state) * 1000 - timing)) 100)
    schedule.

(** The news items among a list of dispatched actions, in order. *)
Definition newsOf (acts : list Action) : list NewsItem.t :=
  omap (fun a => match a with ADD_NEWS item => Some item | _ => None end)
    acts.

(** The removals among a list of pending timers, each with its due time. *)
Definition expiriesOf (pending : list (Z * Callback))
  : list (Z * NewsItem.t) :=
  omap (fun '(due, cb) =>
          match cb with
          | ExpireNews item => Some (due, item)
          | FollowUpNews _ _ _ => None
          end)
    pending.

(** The asset histories after the driver has handed over the price of each
    asset of a list, stamped [now], at clock reading [clock]. *)
Definition recordPrices (clock now : Z) (assets : list Asset.t)
    (h : gmap string ChartUtils.AssetChartData.t)
  : gmap string ChartUtils.AssetChartData.t :=
  fold_left
    (fun h asset =>
       ChartUtils.updateAssetPriceHistory clock (Asset.id asset)
         (Asset.price asset) now h)
    assets h.

(** A step of the world that emits the news [items] and nothing else,
    arms the removal of each of them 15000 ms ahead (and follow-ups), and
    leaves the clock, the chart stores and the three time cells alone. *)
Definition announced (items : list NewsItem.t) (w w' : World) : Prop :=
  clock w' = clock w
  /\ assetPriceHistory w' = assetPriceHistory w
  /\ portfolioHistory w' = portfolioHistory w
  /\ lastTickTime (hooks w') = lastTickTime (hooks w)
  /\ lastPriceUpdate (hooks w') = lastPriceUpdate (hooks w)
  /\ lastNetWorthUpdate (hooks w') = lastNetWorthUpdate (hooks w)
  /\ dispatched w' = dispatched w ++ map ADD_NEWS items
  /\ exists new,
       timers w' = timers w ++ new
       /\ expiriesOf new
          = map (fun item => ((clock w + 15000)%Z, item)) items.

End DriverBlocks.

(** ** The mount effect and the achievement tracking of the provider *)

Module Lifecycle.
Import Types GameContext.

(** The effect that initialises the asset and portfolio histories when
    the provider mounts. *)
Definition initEffect (state : GameState.t) : M unit :=
  currentTime ← Date_now;
  forEach (GameState.assets state) (fun asset _ =>
    updateAssetPriceHistory (Asset.id asset) (Asset.price asset)
      currentTime);;
  let startingNetWorth := calculateNetWorth state in
  updatePortfolioHistory startingNetWorth currentTime.

(** The two cells that achievement tracking writes: the pending value of
    [achievementsUnlocked] and the achievements handed to
    [showAchievementToast], oldest first. *)
Record Badges := mkBadges {
  achievementsUnlocked : gset string;
  achievementToasts : list string
}.

(** Unlock an achievement.  [seen] is the value of [achievementsUnlocked]
    in the render whose closure runs; the update is applied to the pending
    value. *)
Definition unlockAchievement (seen : gset string) (achievement : string)
    (b : Badges) : Badges :=
  if negb (bool_decide (achievement ∈ seen)) then
    mkBadges ({[achievement]} ∪ achievementsUnlocked b)
      (achievementToasts b ++ [achievement])
  else b.

(** [new Set(state.assets.map(asset => asset.color))] *)
Definition assetTypes (state : GameState.t) : gset string :=
  list_to_set (map Asset.color (GameState.assets state)).

(** The set filled by the loop over [Object.entries(state.holdings)]. *)
Definition investedTypes (state : GameState.t) : gset string :=
  fold_left
    (fun investedTypes '(assetId, holding) =>
       if Qltb 0 (Holding.quantity holding) then
         match findAsset (GameState.assets state) assetId with
         | Some asset => {[Asset.color asset]} ∪ investedTypes
         | None => investedTypes
         end
       else investedTypes)
    (GameState.holdings state) ∅.

(** A colour is held when some holding with a positive quantity names an
    asset of the list that has it. *)
Definition held (state : GameState.t) (colour : string) : Prop :=
  exists assetId holding asset,
    In (assetId, holding) (GameState.holdings state)
    /\ 0 < Holding.quantity holding
    /\ findAsset (GameState.assets state) assetId = Some asset
    /\ Asset.color asset = colour.

(** The three conditions of the tracking effect. *)
Definition firstTrade (state : GameState.t) : bool :=
  (0 <? length (GameState.holdings state))%nat.
Definition doubledPortfolio (state : GameState.t) : bool :=
  Qle_bool 20000 (calculateNetWorth state).
Definition diversified (state : GameState.t) : bool :=
  (size (assetTypes state) <=? size (investedTypes state))%nat.

(** The achievements whose condition holds and that the render has not
    seen unlocked, in the order the effect checks them. *)
Definition newlyUnlocked (state : GameState.t) (seen : gset string)
  : list string :=
  (if firstTrade state && negb (bool_decide ("first-trade"%string ∈ seen))
   then ["first-trade"%string] else [])
  ++ (if doubledPortfolio state
         && negb (bool_decide ("doubled-portfolio"%string ∈ seen))
      then ["doubled-portfolio"%string] else [])
  ++ (if diversified state
         && negb (bool_decide ("diversified"%string ∈ seen))
      then ["diversified"%string] else []).

(** Achievement tracking: the effect that runs when the holdings or the
    net worth history change. *)
Definition trackAchievements (state : GameState.t) (seen : gset string)
    (b : Badges) : Badges :=
  let b :=
    if firstTrade state && negb (bool_decide ("first-trade"%string ∈ seen))
    then unlockAchievement seen "first-trade" b else b in
  let b :=
    if doubledPortfolio state
       && negb (bool_decide ("doubled-portfolio"%string ∈ seen))
    then unlockAchievement seen "doubled-portfolio" b else b in
  if diversified state && negb (bool_decide ("diversified"%string ∈ seen))
  then unlockAchievement seen "diversified" b else b.

End Lifecycle.

(** ** contexts/GameContext.tsx: the game-loop effect and its dependencies *)

Module GameLoop.
Import Types GameContext.

(** What a render of the provider hands to the game-loop effect: the
    reducer state and the [useState] cells of that render.  Two of the
    effect's dependencies are arrays, which React compares by identity
    ([Object.is]); the value of a list does not show it, so [assetsRef]
    and [scheduleRef] name the array objects behind [state.assets] and
    [eventSchedule]. *)
Record Render := mkRender {
  snapshot : GameState.t;
  cells : Hooks;
  assetsRef : nat;
  scheduleRef : nat
}.

(** [Object.is] on two values of type [number | null]. *)
Definition sameNumber (a b : option Q) : bool :=
  match a, b with
  | None, None => true
  | Some x, Some y => Qeq_bool x y
  | _, _ => false
  end.

(** The dependency list of the game-loop effect,
    [[state.isGameOver, lastTickTime, lastPriceUpdate, lastNetWorthUpdate,
      state.assets, eventSchedule]], compared entry by entry between two
    renders.  [state.isPaused] is not on the list. *)
Definition depsUnchanged (prev next : Render) : bool :=
  Bool.eqb (GameState.isGameOver (snapshot prev))
    (GameState.isGameOver (snapshot next))
  && sameNumber (lastTickTime (cells prev)) (lastTickTime (cells next))
  && (lastPriceUpdate (cells prev) =? lastPriceUpdate (cells next))%Z
  && (lastNetWorthUpdate (cells prev) =? lastNetWorthUpdate (cells next))%Z
  && (assetsRef prev =? assetsRef next)%nat
  && (scheduleRef prev =? scheduleRef next)%nat.

(** [useEffect(() => { ...; frameId = requestAnimationFrame(updateTimer);
    return () => cancelAnimationFrame(frameId) }, deps)] at a render: when
    a dependency changed, the pending frame is cancelled and a frame is
    requested for the closure of the new render; otherwise the pending
    frame stays, and with it the closure of the render that requested it.
    The result is the render whose closure the pending frame runs. *)
Definition gameLoopEffect (pending next : Render) : Render :=
  if depsUnchanged pending next then pending else next.

Section Externals.
Variable generateMarketNews : list Asset.t -> Z -> bool -> nat -> NewsItem.t.
Variable shouldBeHighImpactEvent : Density -> nat -> bool.
Variable shouldBeChainedEvent : Density -> nat -> bool.
Variable uuidv4 : nat -> string.
Variable Math_random : nat -> Q.

(** The runtime running the pending frame: [updateTimer] with the state
    and the cells its closure captured. *)
Definition pendingFrame (pending : Render) (timestamp : Q) : M unit :=
  updateTimer generateMarketNews shouldBeHighImpactEvent
    shouldBeChainedEvent uuidv4 Math_random (snapshot pending)
    (cells pending) timestamp.

End Externals.

End GameLoop.

Module MoreExamples.

(** A random source that always returns one hundredth: it triggers the
    market health block. *)
Definition lowRandom : nat -> Q := fun _ => 0.01.

(** The market health proposed on a snapshot whose health is 50 when the
    draw is one hundredth. *)
Definition lowHealth : Q := Qmax 0 (Qmin 100 (50 + (0.01 * 6 - 3))).

(** The snapshot of the example right after the player pauses: the
    pause flag is set and nothing else has changed. *)
Definition justPaused : Types.GameState.t :=
  Types.GameState.mk 1000
    [("stock"%string, Types.Holding.mk 2 0 0);
     ("oil"%string, Types.Holding.mk 0 1 40)]
    [Examples.stock; Examples.oil] true false 1 60 50 1 [].

(** The render in which the example's frame was requested, and the render
    that follows the pause: same cells, same arrays. *)
Definition runningRender : GameLoop.Render :=
  GameLoop.mkRender Examples.exampleState Examples.frameHooks 0 0.
Definition pausedRender : GameLoop.Render :=
  GameLoop.mkRender justPaused Examples.frameHooks 0 0.

End MoreExamples.

(** * Properties *)

(** ** The history stores *)

Module ChartFacts.
Import ChartUtils Runs.

Lemma length_shift {A} (l : list A) : length (shift l) = Nat.pred (length l).
Proof. by destruct l. Qed.

Lemma length_push {A} (l : list A) (x : A) : length (push l x) = S (length l).
Proof. unfold push. rewrite length_app. simpl. lia. Qed.

Lemma shift_push {A} (l : list A) (x : A) :
  l <> [] -> shift (push l x) = push (shift l) x.
Proof. by destruct l. Qed.

Lemma appendAssetPoint_prices price ts d :
  AssetChartData.prices (appendAssetPoint price ts d) =
  if (50 <? length (push (AssetChartData.prices d) price))%nat
  then shift (push (AssetChartData.prices d) price)
  else push (AssetChartData.prices d) price.
Proof.
  unfold appendAssetPoint.
  destruct (50 <? _)%nat; [|done].
  by destruct (shift (push (AssetChartData.prices d) price)).
Qed.

Lemma appendAssetPoint_timestamps price ts d :
  AssetChartData.timestamps (appendAssetPoint price ts d) =
  if (50 <? length (push (AssetChartData.prices d) price))%nat
  then shift (push (AssetChartData.timestamps d) ts)
  else push (AssetChartData.timestamps d) ts.
Proof.
  unfold appendAssetPoint.
  destruct (50 <? _)%nat; [|done].
  by destruct (shift (push (AssetChartData.prices d) price)).
Qed.

Lemma appendAssetPoint_data price ts d :
  AssetChartData.data (appendAssetPoint price ts d) =
  if (50 <? length (push (AssetChartData.prices d) price))%nat
  then shift (push (AssetChartData.data d) (mkPoint price ts))
  else push (AssetChartData.data d) (mkPoint price ts).
Proof.
  unfold appendAssetPoint.
  destruct (50 <? _)%nat; [|done].
  by destruct (shift (push (AssetChartData.prices d) price)).
Qed.

Lemma appendAssetPoint_wf price ts d :
  asset_wf d -> asset_wf (appendAssetPoint price ts d).
Proof.
  intros (Hlen & Hts & Hdata). unfold asset_wf.
  rewrite appendAssetPoint_prices, appendAssetPoint_timestamps,
    appendAssetPoint_data.
  destruct (Nat.ltb_spec 50 (length (push (AssetChartData.prices d) price)))
    as [Hgt|Hle];
    rewrite ?length_shift, !length_push in *; lia.
Qed.

Lemma assetAppend_wf h op :
  map_Forall (fun _ d => asset_wf d) h ->
  map_Forall (fun _ d => asset_wf d) (assetAppend h op).
Proof.
  intros Hh. unfold assetAppend, updateAssetPriceHistory.
  destruct (h !! aa_assetId op) as [d|] eqn:Hd.
  - apply map_Forall_insert_2; [|done].
    apply appendAssetPoint_wf. by eapply Hh.
  - unfold initAssetPriceHistory. apply map_Forall_insert_2; [|done].
    unfold asset_wf. simpl. lia.
Qed.

Lemma assetRun_snoc ops op :
  assetRun (ops ++ [op]) = assetAppend (assetRun ops) op.
Proof. unfold assetRun. by rewrite fold_left_app. Qed.

Lemma assetRun_wf ops : map_Forall (fun _ d => asset_wf d) (assetRun ops).
Proof.
  induction ops as [|op ops IH] using rev_ind.
  - unfold assetRun. simpl. apply map_Forall_empty.
  - rewrite assetRun_snoc. by apply assetAppend_wf.
Qed.

(** *** Minimum and maximum by rescan *)

Lemma Qmin_cases (x y : Q) : Qmin x y = x \/ Qmin x y = y.
Proof.
  unfold Qmin, GenericMinMax.gmin. destruct (x ?= y); auto.
Qed.

Lemma Qmax_cases (x y : Q) : Qmax x y = x \/ Qmax x y = y.
Proof.
  unfold Qmax, GenericMinMax.gmax. destruct (x ?= y); auto.
Qed.

Lemma Qmin_same (x : Q) : Qmin x x = x.
Proof. destruct (Qmin_cases x x); auto. Qed.

Lemma Qmax_same (x : Q) : Qmax x x = x.
Proof. destruct (Qmax_cases x x); auto. Qed.

Lemma spread_min_is_minimum ps : forall p, is_minimum (spread_min p ps) (p :: ps).
Proof.
  unfold spread_min, is_minimum.
  induction ps as [|q ps IH]; intros p; simpl.
  - split; [auto|]. constructor; [apply Qle_refl|constructor].
  - destruct (IH (Qmin p q)) as [Hin Hall].
    apply Forall_cons in Hall as [Hhd Htl].
    split.
    + destruct Hin as [Heq|Hin]; [|auto].
      rewrite <- Heq. destruct (Qmin_cases p q) as [->| ->]; auto.
    + repeat constructor; [| |exact Htl].
      * eapply Qle_trans; [exact Hhd|apply Q.le_min_l].
      * eapply Qle_trans; [exact Hhd|apply Q.le_min_r].
Qed.

Lemma spread_max_is_maximum ps : forall p, is_maximum (spread_max p ps) (p :: ps).
Proof.
  unfold spread_max, is_maximum.
  induction ps as [|q ps IH]; intros p; simpl.
  - split; [auto|]. constructor; [apply Qle_refl|constructor].
  - destruct (IH (Qmax p q)) as [Hin Hall].
    apply Forall_cons in Hall as [Hhd Htl].
    split.
    + destruct Hin as [Heq|Hin]; [|auto].
      rewrite <- Heq. destruct (Qmax_cases p q) as [->| ->]; auto.
    + repeat constructor; [| |exact Htl].
      * eapply Qle_trans; [apply Q.le_max_l|exact Hhd].
      * eapply Qle_trans; [apply Q.le_max_r|exact Hhd].
Qed.

Lemma is_minimum_push m l p :
  is_minimum m l -> is_minimum (Qmin m p) (push l p).
Proof.
  intros [Hin Hall]. unfold is_minimum, push. split.
  - apply in_or_app. destruct (Qmin_cases m p) as [->| ->]; simpl; auto.
  - apply Forall_app. split.
    + eapply Forall_impl; [exact Hall|]. simpl. intros y Hy.
      eapply Qle_trans; [apply Q.le_min_l|exact Hy].
    + repeat constructor. apply Q.le_min_r.
Qed.

Lemma is_maximum_push m l p :
  is_maximum m l -> is_maximum (Qmax m p) (push l p).
Proof.
  intros [Hin Hall]. unfold is_maximum, push. split.
  - apply in_or_app. destruct (Qmax_cases m p) as [->| ->]; simpl; auto.
  - apply Forall_app. split.
    + eapply Forall_impl; [exact Hall|]. simpl. intros y Hy.
      eapply Qle_trans; [exact Hy|apply Q.le_max_l].
    + repeat constructor. apply Q.le_max_r.
Qed.

Lemma appendAssetPoint_minmax price ts d :
  asset_minmax d -> asset_minmax (appendAssetPoint price ts d).
Proof.
  intros [Hmin Hmax]. unfold asset_minmax, appendAssetPoint.
  destruct (Nat.ltb_spec 50 (length (push (AssetChartData.prices d) price)))
    as [Hgt|Hle]; simpl.
  - destruct (shift (push (AssetChartData.prices d) price)) as [|p ps] eqn:Hs;
      simpl.
    + exfalso. apply (f_equal length) in Hs.
      rewrite length_shift in Hs. simpl in Hs. lia.
    + split; [apply spread_min_is_minimum|apply spread_max_is_maximum].
  - split; [by apply is_minimum_push|by apply is_maximum_push].
Qed.

Lemma assetAppend_minmax h op :
  map_Forall (fun _ d => asset_minmax d) h ->
  map_Forall (fun _ d => asset_minmax d) (assetAppend h op).
Proof.
  intros Hh. unfold assetAppend, updateAssetPriceHistory.
  destruct (h !! aa_assetId op) as [d|] eqn:Hd.
  - apply map_Forall_insert_2; [|done].
    apply appendAssetPoint_minmax. by eapply Hh.
  - unfold initAssetPriceHistory. apply map_Forall_insert_2; [|done].
    unfold asset_minmax, is_minimum, is_maximum. simpl.
    repeat split; auto; repeat constructor; apply Qle_refl.
Qed.

Lemma assetRun_minmax ops :
  map_Forall (fun _ d => asset_minmax d) (assetRun ops).
Proof.
  induction ops as [|op ops IH] using rev_ind.
  - unfold assetRun. simpl. apply map_Forall_empty.
  - rewrite assetRun_snoc. by apply assetAppend_minmax.
Qed.

(** *** The portfolio history *)

Lemma portfolioAppend_values ph op :
  PortfolioHistoryData.values (portfolioAppend ph op) =
  if (200 <? length (push (PortfolioHistoryData.values ph) (pa_value op)))%nat
  then shift (push (PortfolioHistoryData.values ph) (pa_value op))
  else push (PortfolioHistoryData.values ph) (pa_value op).
Proof.
  unfold portfolioAppend, updatePortfolioHistory. destruct ph; simpl.
  destruct (length values =? 0)%nat; simpl;
    by destruct (200 <? _)%nat.
Qed.

Lemma portfolioAppend_timestamps ph op :
  PortfolioHistoryData.timestamps (portfolioAppend ph op) =
  if (200 <? length (push (PortfolioHistoryData.values ph) (pa_value op)))%nat
  then shift (push (PortfolioHistoryData.timestamps ph) (pa_timestamp op))
  else push (PortfolioHistoryData.timestamps ph) (pa_timestamp op).
Proof.
  unfold portfolioAppend, updatePortfolioHistory. destruct ph; simpl.
  destruct (length values =? 0)%nat; simpl;
    by destruct (200 <? _)%nat.
Qed.

Lemma portfolioAppend_data ph op :
  PortfolioHistoryData.data (portfolioAppend ph op) =
  if (200 <? length (push (PortfolioHistoryData.values ph) (pa_value op)))%nat
  then shift (push (PortfolioHistoryData.data ph)
                (mkPoint (pa_value op) (pa_timestamp op)))
  else push (PortfolioHistoryData.data ph)
         (mkPoint (pa_value op) (pa_timestamp op)).
Proof.
  unfold portfolioAppend, updatePortfolioHistory. destruct ph; simpl.
  destruct (length values =? 0)%nat; simpl;
    by destruct (200 <? _)%nat.
Qed.

(** The bounds after an append never depend on whether a point was
    evicted. *)
Lemma portfolioAppend_min ph op :
  PortfolioHistoryData.min (portfolioAppend ph op) =
  if (length (PortfolioHistoryData.values ph) =? 0)%nat
  then pa_value op * 0.9
  else Qmin (PortfolioHistoryData.min ph) (pa_value op * 0.9).
Proof.
  unfold portfolioAppend, updatePortfolioHistory. destruct ph; simpl.
  destruct (length values =? 0)%nat; simpl;
    destruct (200 <? _)%nat; simpl; auto using Qmin_same.
Qed.

Lemma portfolioAppend_max ph op :
  PortfolioHistoryData.max (portfolioAppend ph op) =
  if (length (PortfolioHistoryData.values ph) =? 0)%nat
  then pa_value op * 1.1
  else Qmax (PortfolioHistoryData.max ph) (pa_value op * 1.1).
Proof.
  unfold portfolioAppend, updatePortfolioHistory. destruct ph; simpl.
  destruct (length values =? 0)%nat; simpl;
    destruct (200 <? _)%nat; simpl; auto using Qmax_same.
Qed.

Lemma portfolioAppend_wf ph op :
  portfolio_wf ph -> portfolio_wf (portfolioAppend ph op).
Proof.
  intros (Hlen & Hts & Hdata). unfold portfolio_wf.
  rewrite portfolioAppend_values, portfolioAppend_timestamps,
    portfolioAppend_data.
  destruct (Nat.ltb_spec 200
              (length (push (PortfolioHistoryData.values ph) (pa_value op))))
    as [Hgt|Hle];
    rewrite ?length_shift, !length_push in *; lia.
Qed.

Lemma portfolioRun_snoc ops op :
  portfolioRun (ops ++ [op]) = portfolioAppend (portfolioRun ops) op.
Proof. unfold portfolioRun. by rewrite fold_left_app. Qed.

Lemma portfolioRun_wf ops : portfolio_wf (portfolioRun ops).
Proof.
  induction ops as [|op ops IH] using rev_ind.
  - unfold portfolioRun, portfolio_wf. simpl. lia.
  - rewrite portfolioRun_snoc. by apply portfolioAppend_wf.
Qed.

Lemma portfolioRun_length ops :
  length (PortfolioHistoryData.values (portfolioRun ops))
  = Nat.min (length ops) 200.
Proof.
  induction ops as [|op ops IH] using rev_ind; [done|].
  rewrite portfolioRun_snoc, portfolioAppend_values, length_app. simpl.
  destruct (Nat.ltb_spec 200
              (length (push (PortfolioHistoryData.values (portfolioRun ops))
                         (pa_value op)))) as [Hgt|Hle];
    rewrite ?length_shift, !length_push in *; lia.
Qed.

End ChartFacts.

Module ChartTheorems.
Import ChartUtils Runs ChartFacts Examples.

(** C3: after any sequence of appends, a per-asset price history holds at
    most 50 points and the portfolio history at most 200, their parallel
    arrays staying aligned; an append below the cap keeps every stored
    point, and an append at the cap drops exactly the oldest one. *)
Theorem history_length_capped
    (aops : list AssetAppend) (anext : AssetAppend)
    (pops : list PortfolioAppend) (pnext : PortfolioAppend) :
  let h := assetRun aops in
  let ph := portfolioRun pops in
  (forall assetId d, h !! assetId = Some d ->
     (length (AssetChartData.prices d) <= 50)%nat
     /\ length (AssetChartData.timestamps d) = length (AssetChartData.prices d)
     /\ length (AssetChartData.data d) = length (AssetChartData.prices d))
  /\ ((length (PortfolioHistoryData.values ph) <= 200)%nat
      /\ length (PortfolioHistoryData.timestamps ph)
         = length (PortfolioHistoryData.values ph)
      /\ length (PortfolioHistoryData.data ph)
         = length (PortfolioHistoryData.values ph))
  /\ (forall d, h !! aa_assetId anext = Some d ->
        assetAppend h anext !! aa_assetId anext
        = Some (appendAssetPoint (aa_price anext) (aa_timestamp anext) d)
        /\ AssetChartData.prices
             (appendAssetPoint (aa_price anext) (aa_timestamp anext) d)
           = if (length (AssetChartData.prices d) <? 50)%nat
             then AssetChartData.prices d ++ [aa_price anext]
             else tail (AssetChartData.prices d) ++ [aa_price anext])
  /\ PortfolioHistoryData.values (portfolioAppend ph pnext)
     = if (length (PortfolioHistoryData.values ph) <? 200)%nat
       then PortfolioHistoryData.values ph ++ [pa_value pnext]
       else tail (PortfolioHistoryData.values ph) ++ [pa_value pnext].
Proof.
  intros h ph. split; [|split; [|split]].
  - intros assetId d Hd.
    destruct (assetRun_wf aops assetId d Hd) as (Hlen & Hts & Hdata).
    repeat split; [lia|done|done].
  - apply portfolioRun_wf.
  - intros d Hd.
    destruct (assetRun_wf aops _ d Hd) as (Hlen & _ & _).
    split.
    + unfold assetAppend, updateAssetPriceHistory. fold h. rewrite Hd.
      apply lookup_insert_eq.
    + rewrite appendAssetPoint_prices, length_push.
      destruct (Nat.ltb_spec 50 (S (length (AssetChartData.prices d))));
        destruct (Nat.ltb_spec (length (AssetChartData.prices d)) 50);
        try lia; [|done].
      rewrite shift_push; [done|]. intros E. rewrite E in Hlen. simpl in Hlen. lia.
  - destruct (portfolioRun_wf pops) as (Hlen & _ & _). fold ph in Hlen.
    rewrite portfolioAppend_values, length_push.
    destruct (Nat.ltb_spec 200 (S (length (PortfolioHistoryData.values ph))));
      destruct (Nat.ltb_spec (length (PortfolioHistoryData.values ph)) 200);
      try lia; [|done].
    rewrite shift_push; [done|]. intros E. rewrite E in *. simpl in *. lia.
Qed.

Lemma portfolioRun_first pops :
  (length (PortfolioHistoryData.values (portfolioRun pops)) =? 0)%nat
  = (length pops =? 0)%nat.
Proof.
  rewrite portfolioRun_length.
  destruct (Nat.eqb_spec (Nat.min (length pops) 200) 0);
    destruct (Nat.eqb_spec (length pops) 0); lia.
Qed.

(** Every appended value, evicted or not, stays within the padded bounds. *)
Lemma portfolioRun_bounds pops :
  Forall (fun op =>
            PortfolioHistoryData.min (portfolioRun pops) <= pa_value op * 0.9
            /\ pa_value op * 1.1 <= PortfolioHistoryData.max (portfolioRun pops))
    pops.
Proof.
  induction pops as [|op pops IH] using rev_ind; [constructor|].
  rewrite portfolioRun_snoc. apply Forall_app. split.
  - rewrite portfolioAppend_min, portfolioAppend_max, portfolioRun_first.
    destruct pops as [|op0 pops]; [constructor|].
    simpl length. simpl Nat.eqb. cbv iota.
    eapply Forall_impl; [exact IH|]. simpl. intros x [Hlo Hhi]. split.
    + eapply Qle_trans; [apply Q.le_min_l|exact Hlo].
    + eapply Qle_trans; [exact Hhi|apply Q.le_max_l].
  - repeat constructor.
    + rewrite portfolioAppend_min.
      destruct (_ =? _)%nat; [apply Qle_refl|apply Q.le_min_r].
    + rewrite portfolioAppend_max.
      destruct (_ =? _)%nat; [apply Qle_refl|apply Q.le_max_r].
Qed.

(** An append to a full portfolio history drops the oldest value and
    updates the bounds exactly as any other append does. *)
Lemma portfolioAppend_full pops pnext :
  (200 <= length pops)%nat ->
  let ph := portfolioRun pops in
  PortfolioHistoryData.values (portfolioAppend ph pnext)
  = tail (PortfolioHistoryData.values ph) ++ [pa_value pnext]
  /\ PortfolioHistoryData.min (portfolioAppend ph pnext)
     = Qmin (PortfolioHistoryData.min ph) (pa_value pnext * 0.9)
  /\ PortfolioHistoryData.max (portfolioAppend ph pnext)
     = Qmax (PortfolioHistoryData.max ph) (pa_value pnext * 1.1).
Proof.
  intros Hfull ph.
  assert (length (PortfolioHistoryData.values ph) = 200%nat) as Hlen.
  { unfold ph. rewrite portfolioRun_length. lia. }
  rewrite portfolioAppend_min, portfolioAppend_max, portfolioAppend_values.
  rewrite length_push, Hlen. simpl.
  split; [|done].
  rewrite shift_push; [done|].
  intros E. rewrite E in Hlen. discriminate.
Qed.

(** C10: the bounds of the portfolio history carry a 10% padding and are
    monotone.  The first append sets min to value * 0.9 and max to
    value * 1.1; every later append sets min to the lesser of the old min
    and value * 0.9, and max to the greater of the old max and
    value * 1.1, whether or not the oldest point is evicted; hence min is
    at most v * 0.9 and max at least v * 1.1 for every value v ever
    appended, evicted ones included. *)
Theorem portfolio_bounds_padded_monotone
    (pops : list PortfolioAppend) (pnext : PortfolioAppend) :
  let ph := portfolioRun pops in
  let ph' := portfolioAppend ph pnext in
  let v := pa_value pnext in
  PortfolioHistoryData.min ph'
  = (if (length pops =? 0)%nat then v * 0.9
     else Qmin (PortfolioHistoryData.min ph) (v * 0.9))
  /\ PortfolioHistoryData.max ph'
     = (if (length pops =? 0)%nat then v * 1.1
        else Qmax (PortfolioHistoryData.max ph) (v * 1.1))
  /\ (pops <> [] ->
      PortfolioHistoryData.min ph' <= PortfolioHistoryData.min ph
      /\ PortfolioHistoryData.max ph <= PortfolioHistoryData.max ph')
  /\ ((200 <= length pops)%nat ->
      PortfolioHistoryData.values ph'
      = tail (PortfolioHistoryData.values ph) ++ [v]
      /\ PortfolioHistoryData.min ph'
         = Qmin (PortfolioHistoryData.min ph) (v * 0.9)
      /\ PortfolioHistoryData.max ph'
         = Qmax (PortfolioHistoryData.max ph) (v * 1.1))
  /\ Forall (fun op =>
               PortfolioHistoryData.min ph' <= pa_value op * 0.9
               /\ pa_value op * 1.1 <= PortfolioHistoryData.max ph')
       (pops ++ [pnext]).
Proof.
  intros ph ph' v.
  assert (Hmin := portfolioAppend_min ph pnext).
  assert (Hmax := portfolioAppend_max ph pnext).
  unfold ph in Hmin, Hmax. rewrite portfolioRun_first in Hmin, Hmax.
  fold ph in Hmin, Hmax. fold ph' in Hmin, Hmax. fold v in Hmin, Hmax.
  split; [exact Hmin|]. split; [exact Hmax|]. split; [|split].
  - intros Hne. destruct pops as [|op0 pops]; [done|].
    simpl in Hmin, Hmax. rewrite Hmin, Hmax.
    split; [apply Q.le_min_l|apply Q.le_max_l].
  - intros Hfull. exact (portfolioAppend_full pops pnext Hfull).
  - unfold ph', ph. rewrite <- portfolioRun_snoc. apply portfolioRun_bounds.
Qed.

(** C4, counterexample: in the portfolio history, the 201st append of the
    run [opsA] evicts the first point (value 1), and yet the stored min
    stays 0.9, the padded bound of the evicted point: it is not among the
    200 stored values (all equal to 100), and the run [opsB], which stores
    exactly the same values, has min 90.  The portfolio bounds are not
    rescanned on eviction and do not reflect the stored points only. *)
Lemma portfolio_bounds_keep_evicted_point :
  length (PortfolioHistoryData.values (portfolioRun (removelast opsA)))
  = 200%nat
  /\ PortfolioHistoryData.values (portfolioRun opsA) = repeat 100 200
  /\ PortfolioHistoryData.values (portfolioRun opsB) = repeat 100 200
  /\ PortfolioHistoryData.min (portfolioRun opsA) == 0.9
  /\ PortfolioHistoryData.min (portfolioRun opsB) == 90
  /\ ~ is_minimum (PortfolioHistoryData.min (portfolioRun opsA))
         (PortfolioHistoryData.values (portfolioRun opsA)).
Proof.
  split; [vm_compute; reflexivity|].
  split; [vm_compute; reflexivity|].
  split; [vm_compute; reflexivity|].
  split; [vm_compute; reflexivity|].
  split; [vm_compute; reflexivity|].
  intros [Hin _].
  assert (PortfolioHistoryData.values (portfolioRun opsA) = repeat 100 200)
    as E by (vm_compute; reflexivity).
  rewrite E in Hin. apply repeat_spec in Hin.
  vm_compute in Hin. discriminate Hin.
Qed.

(** C4, amended: in a per-asset history, min and max are after every
    append the least and the greatest of the prices currently stored, and
    an append that evicts recomputes both by a rescan of the remaining
    prices.  The portfolio history does not rescan: an append that evicts
    updates its bounds with the padded new value alone. *)
Theorem asset_bounds_rescanned_on_eviction
    (aops : list AssetAppend) (anext : AssetAppend)
    (pops : list PortfolioAppend) (pnext : PortfolioAppend) :
  let h := assetRun aops in
  let ph := portfolioRun pops in
  (forall assetId d, h !! assetId = Some d ->
     is_minimum (AssetChartData.min d) (AssetChartData.prices d)
     /\ is_maximum (AssetChartData.max d) (AssetChartData.prices d))
  /\ (forall d, h !! aa_assetId anext = Some d ->
      length (AssetChartData.prices d) = 50%nat ->
      let d' := appendAssetPoint (aa_price anext) (aa_timestamp anext) d in
      exists p ps,
        AssetChartData.prices d' = p :: ps
        /\ p :: ps = tail (AssetChartData.prices d) ++ [aa_price anext]
        /\ AssetChartData.min d' = spread_min p ps
        /\ AssetChartData.max d' = spread_max p ps)
  /\ ((200 <= length pops)%nat ->
      PortfolioHistoryData.values (portfolioAppend ph pnext)
      = tail (PortfolioHistoryData.values ph) ++ [pa_value pnext]
      /\ PortfolioHistoryData.min (portfolioAppend ph pnext)
         = Qmin (PortfolioHistoryData.min ph) (pa_value pnext * 0.9)
      /\ PortfolioHistoryData.max (portfolioAppend ph pnext)
         = Qmax (PortfolioHistoryData.max ph) (pa_value pnext * 1.1)).
Proof.
  intros h ph. split; [|split].
  - intros assetId d Hd. exact (assetRun_minmax aops assetId d Hd).
  - intros d Hd Hlen d'.
    destruct (AssetChartData.prices d) as [|p0 [|p ps]] eqn:Hp;
      [discriminate Hlen|discriminate Hlen|].
    exists p, (ps ++ [aa_price anext]).
    unfold d', appendAssetPoint. rewrite Hp.
    assert ((50 <? length (push (p0 :: p :: ps) (aa_price anext)))%nat = true)
      as ->.
    { apply Nat.ltb_lt. rewrite length_push. lia. }
    simpl. done.
  - intros Hfull. exact (portfolioAppend_full pops pnext Hfull).
Qed.

End ChartTheorems.

(** ** Trend series *)

Module TrendFacts.
Import Types TrendSpec.

Lemma Qltb_true x y : Qltb x y = true <-> x < y.
Proof.
  unfold Qltb. destruct (Qlt_le_dec x y) as [H|H]; split; auto; try discriminate.
  intros H'. exfalso. apply (Qlt_not_le _ _ H'), H.
Qed.

Lemma Qltb_false x y : Qltb x y = false <-> y <= x.
Proof.
  unfold Qltb. destruct (Qlt_le_dec x y) as [H|H]; split; auto; try discriminate.
  intros H'. exfalso. apply (Qlt_not_le _ _ H), H'.
Qed.

(** The position of sample [i] among [n] passes one half exactly when
    [2 * i] passes [n - 1]. *)
Lemma position_after_midpoint (n i : Z) :
  (0 < n - 1)%Z ->
  Qltb 0.5 (inject_Z i / inject_Z (n - 1)) = negb (2 * i <=? n - 1)%Z.
Proof.
  intros Hn.
  assert (0 < inject_Z (n - 1)) as Hpos.
  { change 0 with (inject_Z 0). by rewrite <- Zlt_Qlt. }
  destruct (Z.leb_spec (2 * i) (n - 1)) as [Hle|Hgt]; simpl.
  - apply Qltb_false. apply Qle_shift_div_r; [exact Hpos|].
    rewrite Zle_Qle in Hle. rewrite inject_Z_mult in Hle.
    change (inject_Z 2) with 2 in Hle. lra.
  - apply Qltb_true. apply Qlt_shift_div_l; [exact Hpos|].
    rewrite Zlt_Qlt in Hgt. rewrite inject_Z_mult in Hgt.
    change (inject_Z 2) with 2 in Hgt. lra.
Qed.

(** The blend computed by both generators, for their scale constant. *)
Lemma blend_value (scale prev base vol r : Q) (n i : Z) :
  (0 < n - 1)%Z ->
  let position := inject_Z i / inject_Z (n - 1) in
  let trendFactor :=
    if Qltb 0.5 position then (position - 0.5) * 2 else 0 in
  prev * (1 - position) + base * position
  + (r - 0.5) * vol * base * scale * (1 - trendFactor)
  == interpolation prev base n i + deviation scale r vol base * weight n i.
Proof.
  intros Hn position trendFactor.
  unfold trendFactor, position, interpolation, deviation, weight.
  rewrite position_after_midpoint by exact Hn.
  destruct (2 * i <=? n - 1)%Z; simpl; ring.
Qed.

Lemma weight_before_midpoint (n i : Z) :
  (2 * i <= n - 1)%Z -> weight n i = 1.
Proof.
  intros H. unfold weight. by destruct (Z.leb_spec (2 * i) (n - 1)); [|lia].
Qed.

Lemma weight_after_midpoint (n i : Z) :
  (n - 1 < 2 * i)%Z ->
  weight n i = 2 * (1 - inject_Z i / inject_Z (n - 1)).
Proof.
  intros H. unfold weight. by destruct (Z.leb_spec (2 * i) (n - 1)); [lia|].
Qed.

Lemma position_lt (n i j : Z) :
  (0 < n - 1)%Z -> (i < j)%Z ->
  inject_Z i / inject_Z (n - 1) < inject_Z j / inject_Z (n - 1).
Proof.
  intros Hn Hij. unfold Qdiv. apply Qmult_lt_compat_r.
  - apply Qinv_lt_0_compat. change 0 with (inject_Z 0). by rewrite <- Zlt_Qlt.
  - by rewrite <- Zlt_Qlt.
Qed.

Lemma weight_range (n i : Z) :
  (n - 1 < 2 * i)%Z -> (i <= n - 2)%Z -> 0 < weight n i /\ weight n i < 1.
Proof.
  intros Hmid Hend. rewrite weight_after_midpoint by exact Hmid.
  assert (0 < n - 1)%Z as Hn by lia.
  assert (0 < inject_Z (n - 1)) as Hpos.
  { change 0 with (inject_Z 0). by rewrite <- Zlt_Qlt. }
  assert (inject_Z i / inject_Z (n - 1) < 1) as Hlt.
  { apply Qlt_shift_div_r; [exact Hpos|]. rewrite Qmult_1_l.
    rewrite <- Zlt_Qlt. lia. }
  assert (0.5 < inject_Z i / inject_Z (n - 1)) as Hgt.
  { apply Qltb_true. rewrite position_after_midpoint by exact Hn.
    by destruct (Z.leb_spec (2 * i) (n - 1)); [lia|]. }
  set (p := inject_Z i / inject_Z (n - 1)) in *. split; lra.
Qed.

Lemma weight_decreasing (n i j : Z) :
  (n - 1 < 2 * i)%Z -> (i < j)%Z -> (j <= n - 2)%Z ->
  weight n j < weight n i.
Proof.
  intros Hmid Hij Hend.
  rewrite !weight_after_midpoint by lia.
  assert (0 < n - 1)%Z as Hn by lia.
  pose proof (position_lt n i j Hn Hij) as Hlt.
  set (p := inject_Z i / inject_Z (n - 1)) in *.
  set (q := inject_Z j / inject_Z (n - 1)) in *. lra.
Qed.

(** *** The loops as maps over the index range *)

Section Sparkline.
Import ChartUtils.
Variables (basePrice previousPrice volatility : Q) (len t0 : Z).
Variable random : Z -> Q.

Lemma sparklineLoop_spec (n : nat) : forall (i : Z) history,
  sparklineLoop basePrice previousPrice volatility len t0 random n i history
  = history
    ++ map (fun j => sparklinePoint basePrice previousPrice volatility len t0
                       j (random j))
         (seqZ i (Z.of_nat n)).
Proof.
  induction n as [|n IH]; intros i history.
  - simpl. by rewrite app_nil_r.
  - cbn [sparklineLoop]. rewrite IH. unfold push.
    rewrite (seqZ_cons i (Z.of_nat (S n))) by lia.
    rewrite <- app_assoc. simpl.
    by replace (Z.pred (Z.of_nat (S n))) with (Z.of_nat n) by lia.
Qed.

End Sparkline.

Section History.
Import AssetList.
Variables (basePrice previousPrice volatility : Q) (points : Z).
Variable random : Z -> Q.

Lemma historyLoop_spec (n : nat) : forall (i : Z) history,
  historyLoop basePrice previousPrice volatility points random n i history
  = history
    ++ map (fun j => historyPoint basePrice previousPrice volatility points
                       j (random j))
         (seqZ i (Z.of_nat n)).
Proof.
  induction n as [|n IH]; intros i history.
  - simpl. by rewrite app_nil_r.
  - cbn [historyLoop]. rewrite IH. unfold ChartUtils.push.
    rewrite (seqZ_cons i (Z.of_nat (S n))) by lia.
    rewrite <- app_assoc. simpl.
    by replace (Z.pred (Z.of_nat (S n))) with (Z.of_nat n) by lia.
Qed.

End History.

Lemma generateEnhancedSparklineData_spec now0 now1 random asset (n : Z) :
  ChartUtils.generateEnhancedSparklineData now0 now1 random asset n
  = ChartUtils.mkPoint (ChartUtils.previousPrice asset) (now0 - n * 500)
    :: map (fun j =>
              ChartUtils.sparklinePoint (ChartUtils.price asset)
                (ChartUtils.previousPrice asset) (ChartUtils.volatility asset)
                n (now0 - n * 500) j (random j))
         (seqZ 1 (Z.of_nat (Z.to_nat (n - 2))))
    ++ [ChartUtils.mkPoint (ChartUtils.price asset) now1].
Proof.
  unfold ChartUtils.generateEnhancedSparklineData, ChartUtils.push.
  by rewrite sparklineLoop_spec.
Qed.

Lemma generatePriceHistory_spec random asset :
  AssetList.generatePriceHistory random asset
  = AssetList.mkHistoryPoint (Asset.previousPrice asset)
    :: map (fun j =>
              AssetList.historyPoint (Asset.price asset)
                (Asset.previousPrice asset) (Asset.volatility asset)
                20 j (random j))
         (seqZ 1 18)
    ++ [AssetList.mkHistoryPoint (Asset.price asset)].
Proof.
  unfold AssetList.generatePriceHistory, ChartUtils.push.
  by rewrite historyLoop_spec.
Qed.

(** Sample [i] of a series laid out as first point, mapped range, last
    point. *)
Lemma lookup_series {A} (f : Z -> A) (first last : A) (m i : Z) :
  (1 <= i <= m)%Z ->
  (first :: map f (seqZ 1 m) ++ [last]) !! Z.to_nat i = Some (f i).
Proof.
  intros Hi.
  replace (Z.to_nat i) with (S (Z.to_nat (i - 1))) by lia.
  change ((first :: map f (seqZ 1 m) ++ [last]) !! S (Z.to_nat (i - 1)))
    with ((map f (seqZ 1 m) ++ [last]) !! Z.to_nat (i - 1)).
  rewrite lookup_app_l by (rewrite length_map, length_seqZ; lia).
  change (map f (seqZ 1 m)) with (f <$> seqZ 1 m).
  rewrite list_lookup_fmap, lookup_seqZ_lt by lia.
  simpl. f_equal. f_equal. lia.
Qed.

End TrendFacts.

Module TrendTheorems.
Import Types TrendSpec TrendFacts Examples.

(** C7: for a requested length [n >= 2], the sparkline series starts
    with previousPrice and ends with the current price, with exactly
    [n - 2] points in between; the chart history, whose length is fixed
    at 20, starts and ends likewise with 18 points in between. *)
Theorem trend_series_endpoints
    (now0 now1 : Z) (random random' : Z -> Q)
    (asset : ChartUtils.SparkAsset) (asset' : Asset.t) (n : Z) :
  (2 <= n)%Z ->
  (exists mid,
     ChartUtils.generateEnhancedSparklineData now0 now1 random asset n
     = ChartUtils.mkPoint (ChartUtils.previousPrice asset) (now0 - n * 500)
       :: mid ++ [ChartUtils.mkPoint (ChartUtils.price asset) now1]
     /\ Z.of_nat (length mid) = (n - 2)%Z)
  /\ (exists mid,
        AssetList.generatePriceHistory random' asset'
        = AssetList.mkHistoryPoint (Asset.previousPrice asset')
          :: mid ++ [AssetList.mkHistoryPoint (Asset.price asset')]
        /\ Z.of_nat (length mid) = (20 - 2)%Z).
Proof.
  intros Hn. split.
  - eexists. split; [apply generateEnhancedSparklineData_spec|].
    rewrite length_map, length_seqZ. lia.
  - eexists. split; [apply generatePriceHistory_spec|].
    rewrite length_map, length_seqZ. lia.
Qed.

Lemma trend_series_endpoints_witness :
  (2 <= 20)%Z
  /\ (exists mid,
        ChartUtils.generateEnhancedSparklineData 10000 10000 random0
          sparkAsset 20
        = ChartUtils.mkPoint 100 0 :: mid ++ [ChartUtils.mkPoint 120 10000]
        /\ Z.of_nat (length mid) = 18%Z).
Proof.
  split; [lia|].
  exact (proj1 (trend_series_endpoints 10000 10000 random0 random0
                  sparkAsset chartAsset 20 ltac:(lia))).
Defined.

(** C8, counterexample: with previousPrice 100, price 120, volatility 0.1
    and a random draw of 0, the sample at index 1 of 20, well before the
    midpoint, differs from the linear interpolation between the two
    prices, in the sparkline as in the chart history. *)
Lemma early_samples_carry_the_deviation :
  (exists pt,
     ChartUtils.generateEnhancedSparklineData 10000 10000 random0
       sparkAsset 20 !! 1%nat = Some pt
     /\ (2 * 1 < 20 - 1)%Z
     /\ ~ ChartUtils.value pt == interpolation 100 120 20 1)
  /\ (exists pt,
        AssetList.generatePriceHistory random0 chartAsset !! 1%nat = Some pt
        /\ ~ AssetList.value pt == interpolation 100 120 20 1).
Proof.
  split; eexists; (split; [vm_compute; reflexivity|]).
  - split; [lia|]. intros H. vm_compute in H. discriminate H.
  - intros H. vm_compute in H. discriminate H.
Qed.

(** C8, amended: every intermediate sample is the linear interpolation
    between previousPrice and the current price plus the random deviation
    times a weight.  The deviation is (random - 0.5) * volatility * price
    * scale, with scale 0.6 for the sparkline and 0.3 for the chart
    history.  The weight is 1 up to the midpoint (the deviation counts in
    full), and past the midpoint it lies strictly between 0 and 1 and
    decreases as the position approaches the end. *)
Theorem trend_samples_blend
    (now0 now1 : Z) (random random' : Z -> Q)
    (asset : ChartUtils.SparkAsset) (asset' : Asset.t) (n i k : Z) :
  (1 <= i <= n - 2)%Z ->
  (1 <= k <= 20 - 2)%Z ->
  (exists pt,
     ChartUtils.generateEnhancedSparklineData now0 now1 random asset n
       !! Z.to_nat i = Some pt
     /\ ChartUtils.value pt
        == interpolation (ChartUtils.previousPrice asset)
             (ChartUtils.price asset) n i
           + deviation 0.6 (random i) (ChartUtils.volatility asset)
               (ChartUtils.price asset) * weight n i)
  /\ (exists pt,
        AssetList.generatePriceHistory random' asset' !! Z.to_nat k = Some pt
        /\ AssetList.value pt
           == interpolation (Asset.previousPrice asset') (Asset.price asset')
                20 k
              + deviation 0.3 (random' k) (Asset.volatility asset')
                  (Asset.price asset') * weight 20 k)
  /\ ((2 * i <= n - 1)%Z -> weight n i = 1)
  /\ ((n - 1 < 2 * i)%Z ->
      0 < weight n i /\ weight n i < 1
      /\ forall j, (i < j <= n - 2)%Z -> weight n j < weight n i).
Proof.
  intros Hi Hk. split; [|split; [|split]].
  - eexists. split.
    + rewrite generateEnhancedSparklineData_spec.
      replace (Z.of_nat (Z.to_nat (n - 2))) with (n - 2)%Z by lia.
      apply (lookup_series _ _ _ (n - 2) i Hi).
    + unfold ChartUtils.sparklinePoint. cbn [ChartUtils.value].
      apply blend_value. lia.
  - eexists. split.
    + rewrite generatePriceHistory_spec.
      apply (lookup_series _ _ _ 18 k Hk).
    + unfold AssetList.historyPoint. cbn [AssetList.value].
      apply blend_value. lia.
  - apply weight_before_midpoint.
  - intros Hmid. destruct (weight_range n i Hmid) as [H0 H1]; [lia|].
    repeat split; [exact H0|exact H1|].
    intros j [Hij Hj]. by apply weight_decreasing.
Qed.

Lemma trend_samples_blend_witness :
  (1 <= 12 <= 20 - 2)%Z /\ (1 <= 5 <= 20 - 2)%Z
  /\ (exists pt,
        ChartUtils.generateEnhancedSparklineData 10000 10000 random0
          sparkAsset 20 !! Z.to_nat 12 = Some pt
        /\ ChartUtils.value pt
           == interpolation 100 120 20 12
              + deviation 0.6 0 0.1 120 * weight 20 12).
Proof.
  split; [lia|]. split; [lia|].
  exact (proj1 (trend_samples_blend 10000 10000 random0 random0
                  sparkAsset chartAsset 20 12 5 ltac:(lia) ltac:(lia))).
Defined.

End TrendTheorems.

(** ** The provider *)

Module GameFacts.
Import Types GameContext NetWorthSpec Handlers.

Lemma calculateNetWorth_spec state :
  calculateNetWorth state == NetWorthSpec.netWorth state.
Proof.
  destruct state as [cash holdings assets ? ? ? ? ? ? ?].
  unfold calculateNetWorth, netWorth, longValue, shortPnL, heldAssets, Qsum.
  cbn [GameState.cash GameState.holdings GameState.assets].
  revert cash.
  induction holdings as [|[assetId holding] holdings IH]; intros cash.
  - simpl. ring.
  - cbn [fold_left omap list_omap]. rewrite IH. clear IH.
    destruct (findAsset assets assetId) as [asset|]; cbn [mbind option_bind];
      [|reflexivity].
    cbn [map List.filter fold_right].
    destruct (Qltb 0 (Holding.shortQuantity holding));
      cbn [map fold_right]; ring.
Qed.

(** *** Steps of the world, composed along a handler *)

#[export] Instance quiet_preorder : PreOrder quiet.
Proof.
  split.
  - intros w. repeat split. exists []. by rewrite app_nil_r.
  - intros w1 w2 w3 (Ht1 & Hs1 & acts1 & Hd1 & Hn1)
      (Ht2 & Hs2 & acts2 & Hd2 & Hn2).
    split; [congruence|]. split; [congruence|].
    exists (acts1 ++ acts2). split.
    + rewrite Hd2, Hd1. by rewrite app_assoc.
    + by apply Forall_app.
Qed.

#[export] Instance arming_preorder : PreOrder arming.
Proof.
  split.
  - intros w. exists []. by rewrite app_nil_r.
  - intros w1 w2 w3 (new1 & Ht1 & Ha1) (new2 & Ht2 & Ha2).
    exists (new1 ++ new2). split.
    + rewrite Ht2, Ht1. by rewrite app_assoc.
    + by apply Forall_app.
Qed.

Lemma silent_quiet w w' : silent w w' -> quiet w w'.
Proof.
  intros (Ht & Hd & Hs). repeat split; [done|done|].
  exists []. by rewrite app_nil_r.
Qed.

Lemma silent_arming w w' : silent w w' -> arming w w'.
Proof. intros (Ht & _ & _). exists []. by rewrite app_nil_r. Qed.

Section Respects.
Context (R : World -> World -> Prop) `{!PreOrder R}.

Lemma respects_ret {A} (a : A) : respects R (mret a).
Proof. intros w. cbn. reflexivity. Qed.

Lemma respects_bind {A B} (m : M A) (k : A -> M B) :
  respects R m -> (forall a, respects R (k a)) -> respects R (m ≫= k).
Proof.
  intros Hm Hk w. unfold mbind, M_bind.
  specialize (Hm w). destruct (m w) as [a w1]. cbn [snd] in Hm.
  specialize (Hk a w1). destruct (k a w1) as [b w2]. cbn [snd] in *.
  by transitivity w1.
Qed.

Lemma respects_when b (m : M unit) : respects R m -> respects R (when b m).
Proof. intros H. destruct b; [exact H|apply respects_ret]. Qed.

Lemma respects_forEachFrom {A} (f : A -> nat -> M unit) xs :
  (forall x i, respects R (f x i)) ->
  forall index, respects R (forEachFrom f index xs).
Proof.
  intros Hf. induction xs as [|x xs IH]; intros index; cbn [forEachFrom].
  - apply respects_ret.
  - apply respects_bind; [apply Hf|]. intros _. apply IH.
Qed.

End Respects.

(** The primitives that change no timer, no action and no schedule. *)
Lemma silent_draw {A} (oracle : nat -> A) : respects silent (draw oracle).
Proof. by intros w. Qed.
Lemma silent_Date_now : respects silent Date_now.
Proof. by intros w. Qed.
Lemma silent_toast t : respects silent (toast t).
Proof. by intros w. Qed.
Lemma silent_setLastTickTime v : respects silent (setLastTickTime v).
Proof. by intros w. Qed.
Lemma silent_setLastPriceUpdate v : respects silent (setLastPriceUpdate v).
Proof. by intros w. Qed.
Lemma silent_setLastNetWorthUpdate v :
  respects silent (setLastNetWorthUpdate v).
Proof. by intros w. Qed.
Lemma silent_updateAssetPriceHistory assetId price timestamp :
  respects silent
    (GameContext.updateAssetPriceHistory assetId price timestamp).
Proof. by intros w. Qed.
Lemma silent_updatePortfolioHistory value timestamp :
  respects silent (GameContext.updatePortfolioHistory value timestamp).
Proof. by intros w. Qed.

Lemma respects_silent_quiet {A} (m : M A) :
  respects silent m -> respects quiet m.
Proof. intros H w. apply silent_quiet, H. Qed.

Lemma respects_silent_arming {A} (m : M A) :
  respects silent m -> respects arming m.
Proof. intros H w. apply silent_arming, H. Qed.

Lemma quiet_dispatch a : not_news a -> respects quiet (dispatch a).
Proof.
  intros Ha w. cbn. repeat split. exists [a]. split; [done|].
  by repeat constructor.
Qed.

Lemma arming_dispatch a : respects arming (dispatch a).
Proof. intros w. exists []. cbn. by rewrite app_nil_r. Qed.

Lemma arming_setEventSchedule f : respects arming (setEventSchedule f).
Proof. intros w. exists []. cbn. by rewrite app_nil_r. Qed.

Lemma arming_setTimeout cb delay :
  armed cb -> respects arming (setTimeout cb delay).
Proof.
  intros Hcb w. exists [((clock w + delay)%Z, cb)]. cbn. split; [done|].
  by repeat constructor.
Qed.

(** *** Running a handler symbolically *)

Lemma wp_post {A} (m : M A) (P : World -> Prop) (w : World) :
  wp m (fun _ w' => P w') w -> P (snd (m w)).
Proof. done. Qed.

Lemma wp_ret {A} (a : A) (Q : A -> World -> Prop) (w : World) : Q a w -> wp (mret a) Q w.
Proof. done. Qed.

Lemma wp_bind {A B} (m : M A) (k : A -> M B) (Q : B -> World -> Prop)
    (w : World) :
  wp m (fun a w' => wp (k a) Q w') w -> wp (m ≫= k) Q w.
Proof. unfold wp, mbind, M_bind. by destruct (m w). Qed.

Lemma wp_when (b : bool) (m : M unit) (Q : unit -> World -> Prop) (w : World) :
  (if b then wp m Q w else Q tt w) -> wp (when b m) Q w.
Proof. by destruct b. Qed.

Lemma wp_draw {A} (oracle : nat -> A) (Q : A -> World -> Prop)
    (w : World) :
  Q (oracle (draws w))
    (mkWorld (clock w) (S (draws w)) (dispatched w) (timers w) (toasts w)
       (hooks w) (assetPriceHistory w) (portfolioHistory w)) ->
  wp (draw oracle) Q w.
Proof. done. Qed.

Lemma wp_Date_now (Q : Z -> World -> Prop) (w : World) : Q (clock w) w -> wp Date_now Q w.
Proof. done. Qed.

Lemma wp_dispatch a (Q : unit -> World -> Prop) (w : World) :
  Q tt (mkWorld (clock w) (draws w) (dispatched w ++ [a]) (timers w)
          (toasts w) (hooks w) (assetPriceHistory w) (portfolioHistory w)) ->
  wp (dispatch a) Q w.
Proof. done. Qed.

Lemma wp_setTimeout cb delay (Q : unit -> World -> Prop) (w : World) :
  Q tt (mkWorld (clock w) (draws w) (dispatched w)
          (timers w ++ [((clock w + delay)%Z, cb)])
          (toasts w) (hooks w) (assetPriceHistory w) (portfolioHistory w)) ->
  wp (setTimeout cb delay) Q w.
Proof. done. Qed.

Lemma wp_toast t (Q : unit -> World -> Prop) (w : World) :
  Q tt (mkWorld (clock w) (draws w) (dispatched w) (timers w)
          (toasts w ++ [t]) (hooks w) (assetPriceHistory w)
          (portfolioHistory w)) ->
  wp (toast t) Q w.
Proof. done. Qed.

Lemma wp_setEventSchedule f (Q : unit -> World -> Prop) (w : World) :
  Q tt (mkWorld (clock w) (draws w) (dispatched w) (timers w) (toasts w)
          (mkHooks (lastTickTime (hooks w)) (lastPriceUpdate (hooks w))
             (lastNetWorthUpdate (hooks w)) (f (eventSchedule (hooks w))))
          (assetPriceHistory w) (portfolioHistory w)) ->
  wp (setEventSchedule f) Q w.
Proof. done. Qed.

(** Turn a goal about the world a handler ends in into a [wp] goal. *)
Ltac wp_start :=
  lazymatch goal with
  | |- context [snd (?m ?w)] =>
      pattern (snd (m w)); apply (wp_post m)
  end.

(** One step of symbolic execution, chosen by the head of the handler. *)
Ltac wp_step :=
  lazymatch goal with
  | |- wp (mbind _ _) _ _ => apply wp_bind
  | |- wp (mret _) _ _ => apply wp_ret
  | |- wp (draw _) _ _ => apply wp_draw
  | |- wp Date_now _ _ => apply wp_Date_now
  | |- wp (dispatch _) _ _ => apply wp_dispatch
  | |- wp (setTimeout _ _) _ _ => apply wp_setTimeout
  | |- wp (toast _) _ _ => apply wp_toast
  | |- wp (setEventSchedule _) _ _ => apply wp_setEventSchedule
  | |- wp (when ?b _) _ _ => apply wp_when; destruct b
  end;
  cbn [clock draws dispatched timers toasts hooks assetPriceHistory
       portfolioHistory].

Create HintDb handlers.
#[export] Hint Resolve silent_draw silent_Date_now silent_toast
  silent_setLastTickTime silent_setLastPriceUpdate
  silent_setLastNetWorthUpdate silent_updateAssetPriceHistory
  silent_updatePortfolioHistory : handlers.
#[export] Hint Resolve respects_silent_quiet respects_silent_arming
  arming_dispatch arming_setEventSchedule : handlers.

(** Walk down a handler, one combinator at a time. *)
Ltac handler_step :=
  first
    [ lazymatch goal with
      | |- respects _ (when false _) => apply respects_ret; exact _
      end
    | apply respects_bind; [exact _| |intros ?]
    | apply respects_when; [exact _|]
    | apply respects_forEachFrom; [exact _|intros ? ?]
    | apply respects_ret; exact _
    | apply quiet_dispatch; exact I
    | apply arming_setTimeout; first [exact I|split; assumption]
    | lazymatch goal with
      | |- respects _ (if ?b then _ else _) => destruct b
      end
    | solve [auto with handlers] ].

Section Externals.
Variable generateMarketNews : list Asset.t -> Z -> bool -> nat -> NewsItem.t.
Variable shouldBeHighImpactEvent : Density -> nat -> bool.
Variable shouldBeChainedEvent : Density -> nat -> bool.
Variable uuidv4 : nat -> string.
Variable Math_random : nat -> Q.

#[local] Abbreviation updateTimer :=
  (updateTimer generateMarketNews shouldBeHighImpactEvent
     shouldBeChainedEvent uuidv4 Math_random).
#[local] Abbreviation onScheduledEvent :=
  (onScheduledEvent generateMarketNews shouldBeHighImpactEvent
     shouldBeChainedEvent uuidv4 Math_random).
#[local] Abbreviation runCallback := (runCallback generateMarketNews).
#[local] Abbreviation fireTimer := (fireTimer generateMarketNews).

(** While the snapshot is paused, a frame arms nothing, keeps the schedule
    and emits no news. *)
Lemma updateTimer_quiet state hk timestamp :
  GameState.isPaused state = true ->
  respects quiet (updateTimer state hk timestamp).
Proof.
  intros Hp. unfold GameContext.updateTimer. rewrite Hp.
  destruct (negb (GameState.isGameOver state)); [|apply respects_ret; exact _].
  destruct (lastTickTime hk); [|auto with handlers].
  unfold forEach. cbn [negb]. repeat handler_step.
Qed.

(** The callbacks armed by a due event closed over a running snapshot. *)
Lemma onScheduledEvent_arming state index :
  GameState.isPaused state = false ->
  GameState.isGameOver state = false ->
  respects arming (onScheduledEvent state index).
Proof.
  intros Hp Hg. unfold GameContext.onScheduledEvent.
  repeat handler_step.
Qed.

Lemma updateTimer_arming state hk timestamp :
  respects arming (updateTimer state hk timestamp).
Proof.
  unfold GameContext.updateTimer.
  destruct (GameState.isGameOver state) eqn:Hg; cbn [negb];
    [apply respects_ret; exact _|].
  destruct (lastTickTime hk); [|auto with handlers].
  destruct (GameState.isPaused state) eqn:Hp; cbn [negb]; unfold forEach.
  - repeat handler_step.
  - repeat handler_step.
Qed.

(** A due event emits one item and arms its expiry 15000 ms later; when
    the event is chained, the follow-up callback is armed just before. *)
Lemma onScheduledEvent_effects state index w :
  let w' := snd (onScheduledEvent state index w) in
  exists item,
    dispatched w' = dispatched w ++ [ADD_NEWS item]
    /\ (if shouldBeChainedEvent (GameState.eventDensity state)
             (S (S (draws w)))
        then
          exists chainId delay,
            NewsItem.chainId item = Some chainId
            /\ NewsItem.chainSequence item = Some 1%Z
            /\ timers w'
               = timers w
                 ++ [((clock w + delay)%Z, FollowUpNews state item chainId);
                     ((clock w + 15000)%Z, ExpireNews item)]
        else
          timers w' = timers w ++ [((clock w + 15000)%Z, ExpireNews item)]).
Proof.
  wp_start.
  unfold GameContext.onScheduledEvent.
  repeat wp_step.
  destruct (shouldBeChainedEvent _ _); repeat wp_step.
  all: eexists; (split; [reflexivity|]).
  all: try reflexivity.
  all: do 2 eexists; repeat split; by rewrite <- app_assoc.
Qed.

(** An armed callback dispatches exactly one action when it runs, and
    arms nothing. *)
Lemma runCallback_armed cb w :
  armed cb ->
  exists a,
    dispatched (snd (runCallback cb w)) = dispatched w ++ [a]
    /\ timers (snd (runCallback cb w)) = timers w
    /\ match cb with
       | FollowUpNews state newsItem chainId =>
           a = ADD_NEWS
                 (followUpPayload
                    (generateMarketNews (GameState.assets state)
                       (GameState.round state) true (draws w))
                    newsItem chainId)
       | ExpireNews newsItem => a = EXPIRE_NEWS (NewsItem.id newsItem)
       end.
Proof.
  destruct cb as [state newsItem chainId|newsItem]; cbn [armed].
  - intros [Hp Hg]. unfold GameContext.runCallback. rewrite Hp, Hg.
    cbn [negb andb]. wp_start. repeat wp_step.
    eexists. by repeat split.
  - intros _. cbn [GameContext.runCallback]. wp_start. repeat wp_step.
    eexists. by repeat split.
Qed.

(** Running any callback arms no timer. *)
Lemma runCallback_timers cb w :
  timers (snd (runCallback cb w)) = timers w.
Proof.
  destruct cb as [state newsItem chainId|newsItem];
    cbn [GameContext.runCallback].
  - destruct (negb (GameState.isPaused state)
              && negb (GameState.isGameOver state));
      wp_start; by repeat wp_step.
  - wp_start; by repeat wp_step.
Qed.

End Externals.
End GameFacts.

Module GameTheorems.
Import Types GameContext GameReducer NetWorthSpec Handlers Examples
  GameFacts.

(** C1: the computed net worth is cash, plus quantity times current price
    over the held assets, plus shortQuantity times (averageShortPrice -
    current price) over the holdings with a short position; for cash 1000,
    2 units at price 50, and 1 unit shorted at 40 now priced 30, it is
    1110. *)
Theorem netWorth_formula :
  (forall state, calculateNetWorth state == NetWorthSpec.netWorth state)
  /\ calculateNetWorth exampleState == 1110.
Proof.
  split; [apply calculateNetWorth_spec|]. vm_compute. reflexivity.
Qed.

(** C2, counterexample: a buy attempted while the game is over makes
    [executeTrade] return [undefined], not the error InvalidState. *)
Lemma executeTrade_returns_no_error :
  GameState.isGameOver gameOverState = true
  /\ fst (executeTrade gameOverState "stock" buy 100 world0) = undefined
  /\ fst (executeTrade gameOverState "stock" buy 100 world0)
     <> error InvalidState.
Proof. repeat split. discriminate. Qed.

(** C2, amended: a trade attempted while the game-over flag is set, or
    against an assetId that is not on the asset list, returns [undefined]
    and changes nothing: no action reaches the reducer, so cash and every
    holding stay as they are. *)
Theorem executeTrade_rejects_silently
    (state : GameState.t) (assetId : string) (action : TradeAction)
    (amount : Q) (w : World) :
  GameState.isGameOver state = true
  \/ findAsset (GameState.assets state) assetId = None ->
  executeTrade state assetId action amount w = (undefined, w).
Proof.
  intros [H|H]; unfold executeTrade.
  - by rewrite H.
  - rewrite H. by destruct (GameState.isGameOver state).
Qed.

Lemma executeTrade_rejects_silently_witness :
  executeTrade gameOverState "stock" sell 100 world0 = (undefined, world0)
  /\ executeTrade exampleState "gold" short 100 world0 = (undefined, world0).
Proof.
  split.
  - apply executeTrade_rejects_silently. left. reflexivity.
  - apply executeTrade_rejects_silently. right. reflexivity.
Defined.

(** C5: when a due event is chained, the item emitted carries a chainId
    and chainSequence 1, and the follow-up callback armed with it emits,
    whenever it runs, an item with the same chainId, chainSequence 2, a
    magnitude of 1.5 times the original's and the original's impacted
    assets. *)
Theorem followUp_carries_the_chain
    (generateMarketNews : list Asset.t -> Z -> bool -> nat -> NewsItem.t)
    (shouldBeHighImpactEvent shouldBeChainedEvent : Density -> nat -> bool)
    (uuidv4 : nat -> string) (Math_random : nat -> Q)
    (state : GameState.t) (index : nat) (w : World) :
  GameState.isPaused state = false ->
  GameState.isGameOver state = false ->
  shouldBeChainedEvent (GameState.eventDensity state) (S (S (draws w)))
  = true ->
  let w' :=
    snd (onScheduledEvent generateMarketNews shouldBeHighImpactEvent
           shouldBeChainedEvent uuidv4 Math_random state index w) in
  exists original chainId delay,
    dispatched w' = dispatched w ++ [ADD_NEWS original]
    /\ NewsItem.chainId original = Some chainId
    /\ NewsItem.chainSequence original = Some 1%Z
    /\ timers w'
       = timers w
         ++ [((clock w + delay)%Z, FollowUpNews state original chainId);
             ((clock w + 15000)%Z, ExpireNews original)]
    /\ forall w2, exists followUp,
         dispatched
           (snd (runCallback generateMarketNews
                   (FollowUpNews state original chainId) w2))
         = dispatched w2 ++ [ADD_NEWS followUp]
         /\ NewsItem.chainId followUp = NewsItem.chainId original
         /\ NewsItem.chainSequence followUp = Some 2%Z
         /\ NewsItem.magnitude followUp = NewsItem.magnitude original * 1.5
         /\ NewsItem.impactedAssets followUp
            = NewsItem.impactedAssets original.
Proof.
  intros Hp Hg Hc w'.
  destruct (onScheduledEvent_effects generateMarketNews
              shouldBeHighImpactEvent shouldBeChainedEvent uuidv4
              Math_random state index w) as (item & Hd & Ht).
  rewrite Hc in Ht. destruct Ht as (chainId & delay & Hid & Hseq & Ht).
  exists item, chainId, delay. repeat split; try assumption.
  intros w2.
  destruct (runCallback_armed generateMarketNews
              (FollowUpNews state item chainId) w2) as (a & Hd2 & _ & Ha);
    [by split|].
  subst a. eexists. split; [exact Hd2|]. by rewrite Hid.
Qed.

Lemma followUp_carries_the_chain_witness :
  exists original chainId delay,
    dispatched afterEvent = dispatched world0 ++ [ADD_NEWS original]
    /\ NewsItem.chainId original = Some chainId
    /\ NewsItem.chainSequence original = Some 1%Z
    /\ timers afterEvent
       = timers world0
         ++ [((clock world0 + delay)%Z,
              FollowUpNews exampleState original chainId);
             ((clock world0 + 15000)%Z, ExpireNews original)]
    /\ forall w2, exists followUp,
         dispatched
           (snd (runCallback exampleNews
                   (FollowUpNews exampleState original chainId) w2))
         = dispatched w2 ++ [ADD_NEWS followUp]
         /\ NewsItem.chainId followUp = NewsItem.chainId original
         /\ NewsItem.chainSequence followUp = Some 2%Z
         /\ NewsItem.magnitude followUp = NewsItem.magnitude original * 1.5
         /\ NewsItem.impactedAssets followUp
            = NewsItem.impactedAssets original.
Proof.
  apply (followUp_carries_the_chain exampleNews neverHighImpact
           alwaysChained exampleUuid exampleRandom exampleState 0 world0);
    reflexivity.
Defined.

(** C6: the item emitted by a due event has its removal armed 15000 ms
    after the emission, but the follow-up callback arms no timer at all
    when it emits its item.  In the example run, once both pending timers
    have fired, no timer is left, the only removal dispatched is the
    original item's, and the follow-up item is still on the active news
    list. *)
Theorem followUp_is_never_expired :
  (forall generateMarketNews shouldBeHighImpactEvent shouldBeChainedEvent
          uuidv4 Math_random state index w,
     let w' :=
       snd (onScheduledEvent generateMarketNews shouldBeHighImpactEvent
              shouldBeChainedEvent uuidv4 Math_random state index w) in
     exists item,
       last (dispatched w') = Some (ADD_NEWS item)
       /\ last (timers w') = Some ((clock w + 15000)%Z, ExpireNews item))
  /\ (forall generateMarketNews state newsItem chainId w,
        timers (snd (runCallback generateMarketNews
                       (FollowUpNews state newsItem chainId) w))
        = timers w)
  /\ (exists w3 state3,
        afterExpiry = Some w3
        /\ dispatched w3
           = [ADD_NEWS exampleOriginal; ADD_NEWS exampleFollowUp;
              EXPIRE_NEWS (NewsItem.id exampleOriginal)]
        /\ timers w3 = []
        /\ reduceAll exampleState (dispatched w3) = Some state3
        /\ GameState.activeNews state3 = [exampleFollowUp]).
Proof.
  split; [|split].
  - intros gen hi ch uuid rnd state index w w'.
    destruct (onScheduledEvent_effects gen hi ch uuid rnd state index w)
      as (item & Hd & Ht).
    fold w' in Hd, Ht. exists item. split.
    + rewrite Hd. apply last_snoc.
    + destruct (ch _ _).
      * destruct Ht as (chainId & delay & _ & _ & ->).
        by rewrite last_app.
      * rewrite Ht. apply last_snoc.
  - intros gen state newsItem chainId w. apply runCallback_timers.
  - do 2 eexists. repeat split; vm_compute; reflexivity.
Qed.

End GameTheorems.

(** ** More on the history stores *)

Module HistoryFacts.
Import ChartUtils Runs ChartFacts HistorySpec.

Lemma length_lastN {A} (n : nat) (l : list A) :
  length (lastN n l) = Nat.min n (length l).
Proof. unfold lastN. rewrite length_drop. lia. Qed.

Lemma lastN_short {A} (n : nat) (l : list A) :
  (length l <= n)%nat -> lastN n l = l.
Proof.
  intros H. unfold lastN. by replace (length l - n)%nat with 0%nat by lia.
Qed.

Lemma tail_drop {A} (k : nat) (l : list A) :
  tail (drop k l) = drop (S k) l.
Proof.
  change (tail (drop k l)) with (drop 1 (drop k l)) at 1.
  - rewrite drop_drop. f_equal. lia.
Qed.

(** Pushing onto a capped list and dropping the head when the cap was
    reached keeps the last [n] elements. *)
Lemma lastN_snoc {A} (n : nat) (l : list A) (x : A) :
  (1 <= n)%nat ->
  lastN n (l ++ [x])
  = if (n <=? length l)%nat then shift (push (lastN n l) x)
    else push (lastN n l) x.
Proof.
  intros Hn.
  destruct (Nat.leb_spec n (length l)) as [Hle|Hlt].
  - rewrite shift_push.
    + unfold lastN, push, shift. rewrite length_app, tail_drop. simpl.
      replace (length l + 1 - n)%nat with (S (length l - n)) by lia.
      by rewrite drop_app_le by lia.
    + intros E. apply (f_equal length) in E.
      rewrite length_lastN in E. simpl in E. lia.
  - rewrite (lastN_short n l) by lia.
    unfold push. apply lastN_short. rewrite length_app. simpl. lia.
Qed.
Lemma paired_push values timestamps v t :
  length values = length timestamps ->
  paired (push values v) (push timestamps t)
  = push (paired values timestamps) (mkPoint v t).
Proof.
  intros Hlen. unfold paired, push. by rewrite zip_with_app by exact Hlen.
Qed.

Lemma paired_shift values timestamps :
  paired (shift values) (shift timestamps) = shift (paired values timestamps).
Proof.
  destruct values as [|v values], timestamps as [|t timestamps]; try done.
  unfold paired. simpl. apply zip_with_nil_r.
Qed.

Lemma callsFor_snoc assetId ops op :
  callsFor assetId (ops ++ [op])
  = callsFor assetId ops
    ++ (if String.eqb (aa_assetId op) assetId then [op] else []).
Proof. unfold callsFor. by rewrite List.filter_app. Qed.

Lemma appendedStamps_snoc assetId ops op :
  String.eqb (aa_assetId op) assetId = true ->
  appendedStamps assetId (ops ++ [op])
  = appendedStamps assetId ops
    ++ [match callsFor assetId ops with
        | [] => aa_now op
        | _ :: _ => aa_timestamp op
        end].
Proof.
  intros Heq. unfold appendedStamps. rewrite callsFor_snoc, Heq.
  destruct (callsFor assetId ops) as [|op0 rest]; [done|].
  simpl. by rewrite map_app.
Qed.

Lemma length_appendedStamps assetId ops :
  length (appendedStamps assetId ops) = length (appendedPrices assetId ops).
Proof.
  unfold appendedStamps, appendedPrices.
  destruct (callsFor assetId ops); simpl; by rewrite ?length_map.
Qed.

Lemma appendAssetPoint_tracks assetId ops op d :
  String.eqb (aa_assetId op) assetId = true ->
  asset_tracks assetId ops (Some d) ->
  asset_tracks assetId (ops ++ [op])
    (Some (appendAssetPoint (aa_price op) (aa_timestamp op) d)).
Proof.
  intros Heq (Hne & Hp & Ht & Hd). unfold asset_tracks.
  assert ((50 <? length (push (AssetChartData.prices d) (aa_price op)))%nat
          = (50 <=? length (appendedPrices assetId ops))%nat) as Hc.
  { rewrite length_push, Hp, length_lastN.
    destruct (Nat.ltb_spec 50
                (S (Nat.min 50 (length (appendedPrices assetId ops)))));
      destruct (Nat.leb_spec 50 (length (appendedPrices assetId ops)));
      lia. }
  assert (length (AssetChartData.prices d)
          = length (AssetChartData.timestamps d)) as Hlen.
  { rewrite Hp, Ht, !length_lastN, length_appendedStamps. done. }
  rewrite appendAssetPoint_prices, appendAssetPoint_timestamps,
    appendAssetPoint_data, Hc.
  split; [|split; [|split]].
  - rewrite callsFor_snoc. by destruct (callsFor assetId ops).
  - unfold appendedPrices. rewrite callsFor_snoc, Heq, map_app. simpl.
    rewrite lastN_snoc by lia. fold (appendedPrices assetId ops).
    by rewrite Hp.
  - rewrite appendedStamps_snoc by exact Heq.
    destruct (callsFor assetId ops) as [|op0 rest] eqn:Hcalls; [done|].
    rewrite lastN_snoc by lia. rewrite length_appendedStamps.
    by rewrite Ht.
  - rewrite Hd.
    destruct (50 <=? length (appendedPrices assetId ops))%nat.
    + by rewrite paired_shift, paired_push.
    + by rewrite paired_push.
Qed.

Lemma assetRun_tracks assetId ops :
  asset_tracks assetId ops (assetRun ops !! assetId).
Proof.
  induction ops as [|op ops IH] using rev_ind; [done|].
  rewrite assetRun_snoc. unfold assetAppend, updateAssetPriceHistory.
  destruct (String.eqb_spec (aa_assetId op) assetId) as [Heq|Hne].
  - rewrite Heq in *.
    assert (String.eqb (aa_assetId op) assetId = true) as Heqb
      by (rewrite Heq; apply String.eqb_refl).
    destruct (assetRun ops !! assetId) as [d|] eqn:Hd.
    + rewrite lookup_insert_eq. by apply appendAssetPoint_tracks.
    + unfold initAssetPriceHistory. rewrite lookup_insert_eq.
      cbn [asset_tracks] in *.
      unfold appendedPrices, appendedStamps.
      rewrite callsFor_snoc, Heqb, IH. simpl. by repeat split.
  - assert (String.eqb (aa_assetId op) assetId = false) as Heqb
      by (by apply String.eqb_neq).
    assert (forall m : gmap string AssetChartData.t,
              forall x, <[aa_assetId op := x]> m !! assetId = m !! assetId)
      as Hother by (intros; by apply lookup_insert_ne).
    assert (asset_tracks assetId (ops ++ [op]) (assetRun ops !! assetId))
      as Hkeep.
    { destruct (assetRun ops !! assetId) as [d|]; cbn [asset_tracks] in *;
        unfold appendedPrices, appendedStamps in *;
        rewrite callsFor_snoc, Heqb, app_nil_r; exact IH. }
    destruct (assetRun ops !! aa_assetId op);
      unfold initAssetPriceHistory; by rewrite Hother.
Qed.

Lemma assetAppend_lookup h op assetId :
  assetAppend h op !! assetId
  = if String.eqb (aa_assetId op) assetId
    then Some (entryStep (h !! assetId) op)
    else h !! assetId.
Proof.
  unfold assetAppend, updateAssetPriceHistory, initAssetPriceHistory.
  destruct (String.eqb_spec (aa_assetId op) assetId) as [<-|Hne].
  - destruct (h !! aa_assetId op); by rewrite lookup_insert_eq.
  - destruct (h !! aa_assetId op); by rewrite lookup_insert_ne.
Qed.

Lemma callsFor_idemp assetId ops :
  callsFor assetId (callsFor assetId ops) = callsFor assetId ops.
Proof.
  unfold callsFor. induction ops as [|op ops IH]; [done|]. simpl.
  destruct (String.eqb (aa_assetId op) assetId) eqn:E; simpl;
    by rewrite ?E, IH.
Qed.

Lemma portfolioAppend_events ph op :
  PortfolioHistoryData.events (portfolioAppend ph op)
  = PortfolioHistoryData.events ph
    ++ match pa_event op with
       | Some (type, description) =>
           [mkEvent (pa_timestamp op) (pa_value op) type description]
       | None => []
       end.
Proof.
  unfold portfolioAppend, updatePortfolioHistory. destruct ph; simpl.
  destruct (length values =? 0)%nat; simpl;
    destruct (200 <? _)%nat; simpl;
    destruct (pa_event op) as [[type description]|]; simpl;
    by rewrite ?app_nil_r.
Qed.

Lemma portfolioAppend_annotations ph op :
  PortfolioHistoryData.annotations (portfolioAppend ph op)
  = PortfolioHistoryData.annotations ph.
Proof.
  unfold portfolioAppend, updatePortfolioHistory. destruct ph; simpl.
  destruct (length values =? 0)%nat; simpl; by destruct (200 <? _)%nat.
Qed.

Lemma portfolioAppend_startValue ph op :
  PortfolioHistoryData.startValue (portfolioAppend ph op)
  = if (length (PortfolioHistoryData.values ph) =? 0)%nat
    then pa_value op else PortfolioHistoryData.startValue ph.
Proof.
  unfold portfolioAppend, updatePortfolioHistory. destruct ph; simpl.
  destruct (length values =? 0)%nat; simpl; by destruct (200 <? _)%nat.
Qed.

Lemma appendedEvents_snoc ops op :
  appendedEvents (ops ++ [op])
  = appendedEvents ops
    ++ match pa_event op with
       | Some (type, description) =>
           [mkEvent (pa_timestamp op) (pa_value op) type description]
       | None => []
       end.
Proof.
  unfold appendedEvents. rewrite omap_app. simpl.
  by destruct (pa_event op) as [[type description]|].
Qed.

Lemma portfolioRun_values ops :
  PortfolioHistoryData.values (portfolioRun ops)
  = lastN 200 (map pa_value ops)
  /\ PortfolioHistoryData.timestamps (portfolioRun ops)
     = lastN 200 (map pa_timestamp ops)
  /\ PortfolioHistoryData.data (portfolioRun ops)
     = paired (PortfolioHistoryData.values (portfolioRun ops))
         (PortfolioHistoryData.timestamps (portfolioRun ops)).
Proof.
  induction ops as [|op ops (Hv & Ht & Hd)] using rev_ind; [done|].
  assert ((200 <? length (push (PortfolioHistoryData.values (portfolioRun ops))
                            (pa_value op)))%nat
          = (200 <=? length (map pa_value ops))%nat) as Hc.
  { rewrite length_push, Hv, length_lastN.
    destruct (Nat.ltb_spec 200 (S (Nat.min 200 (length (map pa_value ops)))));
      destruct (Nat.leb_spec 200 (length (map pa_value ops))); lia. }
  assert (length (PortfolioHistoryData.values (portfolioRun ops))
          = length (PortfolioHistoryData.timestamps (portfolioRun ops)))
    as Hlen.
  { by rewrite Hv, Ht, !length_lastN, !length_map. }
  rewrite portfolioRun_snoc, portfolioAppend_values,
    portfolioAppend_timestamps, portfolioAppend_data, Hc, !map_app.
  cbn [map]. rewrite !lastN_snoc by lia. rewrite !length_map.
  rewrite length_map in Hc.
  split; [by rewrite Hv|]. split; [by rewrite Ht|].
  rewrite Hd. destruct (200 <=? length ops)%nat.
  - by rewrite paired_shift, paired_push.
  - by rewrite paired_push.
Qed.

Lemma In_lastN {A} (n : nat) (l : list A) (x : A) :
  In x (lastN n l) -> In x l.
Proof.
  unfold lastN. intros Hin.
  rewrite <- (take_drop (length l - n) l). apply in_or_app. by right.
Qed.

Lemma ownIds_callsFor ops assetId :
  ObjectStore.ownIds ops = true ->
  assetId ∈ ObjectPrototype.inherited ->
  callsFor assetId ops = [].
Proof.
  intros Hown Hin. unfold callsFor.
  induction ops as [|op ops IH]; [done|].
  cbn [ObjectStore.ownIds forallb] in Hown.
  apply andb_prop in Hown as [Hop Hown]. cbn [List.filter].
  destruct (String.eqb_spec (aa_assetId op) assetId) as [Heq|Hne].
  - rewrite Heq in Hop. by rewrite bool_decide_eq_true_2 in Hop.
  - by apply IH.
Qed.

Lemma run_snoc ops op :
  ObjectStore.run (ops ++ [op])
  = ObjectStore.run ops
    ≫= ObjectStore.updateAssetPriceHistory (aa_now op) (aa_assetId op)
         (aa_price op) (aa_timestamp op).
Proof. unfold ObjectStore.run. by rewrite fold_left_app. Qed.

End HistoryFacts.

Module HistoryTheorems.
Import ChartUtils Runs ChartFacts HistorySpec HistoryFacts.

(** X1: the histories of different assets do not interfere.  The entry of
    an asset after a run is the entry it has after the calls of the run
    that concern this asset alone. *)
Theorem asset_histories_are_independent
    (ops : list AssetAppend) (assetId : string) :
  assetRun ops !! assetId = assetRun (callsFor assetId ops) !! assetId.
Proof.
  induction ops as [|op ops IH] using rev_ind; [done|].
  rewrite callsFor_snoc, assetRun_snoc, assetAppend_lookup.
  destruct (String.eqb (aa_assetId op) assetId) eqn:Heq.
  - rewrite assetRun_snoc, assetAppend_lookup, Heq. by rewrite IH.
  - by rewrite app_nil_r.
Qed.

(** X2: after any run, an asset has no entry exactly when it was never
    updated; otherwise its entry holds the last 50 prices it was given, in
    the order given, the stamps kept with them (the clock reading for the
    call that created the entry, the timestamp argument for the later
    ones), and a [data] array that pairs the two point by point. *)
Theorem asset_history_holds_the_last_50
    (ops : list AssetAppend) (assetId : string) :
  match assetRun ops !! assetId with
  | None => callsFor assetId ops = []
  | Some d =>
      callsFor assetId ops <> []
      /\ AssetChartData.prices d = lastN 50 (appendedPrices assetId ops)
      /\ AssetChartData.timestamps d
         = lastN 50 (appendedStamps assetId ops)
      /\ AssetChartData.data d
         = paired (AssetChartData.prices d) (AssetChartData.timestamps d)
  end.
Proof. exact (assetRun_tracks assetId ops). Qed.

(** X3: after any run, the portfolio history holds the last 200 values and
    timestamps it was given, in the order given, and a [data] array that
    pairs them; its events are all the events ever given, none is evicted
    with its point; no annotation is ever stored; and the start value is
    the first value ever given (0 before any). *)
Theorem portfolio_history_holds_the_last_200 (ops : list PortfolioAppend) :
  let ph := portfolioRun ops in
  PortfolioHistoryData.values ph = lastN 200 (map pa_value ops)
  /\ PortfolioHistoryData.timestamps ph = lastN 200 (map pa_timestamp ops)
  /\ PortfolioHistoryData.data ph
     = paired (PortfolioHistoryData.values ph)
         (PortfolioHistoryData.timestamps ph)
  /\ PortfolioHistoryData.events ph = appendedEvents ops
  /\ PortfolioHistoryData.annotations ph = []
  /\ PortfolioHistoryData.startValue ph
     = match ops with [] => 0 | op :: _ => pa_value op end.
Proof.
  intros ph. destruct (portfolioRun_values ops) as (Hv & Ht & Hd).
  split; [exact Hv|]. split; [exact Ht|]. split; [exact Hd|].
  unfold ph. clear. induction ops as [|op ops (He & Ha & Hs)] using rev_ind;
    [done|].
  rewrite portfolioRun_snoc, portfolioAppend_events,
    portfolioAppend_annotations, portfolioAppend_startValue,
    appendedEvents_snoc, He, Ha.
  split; [done|]. split; [done|].
  rewrite portfolioRun_length.
  destruct ops as [|op0 ops]; [done|]. simpl length.
  rewrite Hs. by destruct (length ops).
Qed.

(** X4: when no value given to the portfolio history is negative, its
    bounds bracket every stored value and min is at most max.  A negative
    first value inverts the bounds: max lies below min. *)
Theorem portfolio_bounds_bracket_the_values (ops : list PortfolioAppend) :
  (Forall (fun op => 0 <= pa_value op) ops ->
   Forall (fun v =>
             PortfolioHistoryData.min (portfolioRun ops) <= v
             /\ v <= PortfolioHistoryData.max (portfolioRun ops))
     (PortfolioHistoryData.values (portfolioRun ops))
   /\ (ops <> [] ->
       PortfolioHistoryData.min (portfolioRun ops)
       <= PortfolioHistoryData.max (portfolioRun ops)))
  /\ (forall op, pa_value op < 0 ->
        PortfolioHistoryData.max (portfolioRun [op])
        < PortfolioHistoryData.min (portfolioRun [op])).
Proof.
  split.
  - intros Hpos.
    pose proof (ChartTheorems.portfolioRun_bounds ops) as Hb.
    assert (forall op, In op ops ->
              PortfolioHistoryData.min (portfolioRun ops) <= pa_value op
              /\ pa_value op <= PortfolioHistoryData.max (portfolioRun ops))
      as Hall.
    { intros op Hin. rewrite Forall_forall in Hb, Hpos.
      apply list_elem_of_In in Hin.
      destruct (Hb op Hin) as [Hlo Hhi]. specialize (Hpos op Hin).
      split; lra. }
    split.
    + destruct (portfolioRun_values ops) as (Hv & _).
      apply List.Forall_forall. intros v Hin. rewrite Hv in Hin.
      apply In_lastN, in_map_iff in Hin. destruct Hin as (op & <- & Hin).
      by apply Hall.
    + intros Hne. destruct ops as [|op ops]; [done|].
      destruct (Hall op) as [Hlo Hhi]; [by left|]. lra.
  - intros op Hneg.
    change (portfolioRun [op]) with (portfolioAppend portfolioHistory0 op).
    rewrite portfolioAppend_min, portfolioAppend_max. simpl. lra.
Qed.

Lemma portfolio_bounds_bracket_the_values_witness :
  Forall (fun v =>
            PortfolioHistoryData.min (portfolioRun Examples.opsA) <= v
            /\ v <= PortfolioHistoryData.max (portfolioRun Examples.opsA))
    (PortfolioHistoryData.values (portfolioRun Examples.opsA)).
Proof.
  apply (portfolio_bounds_bracket_the_values Examples.opsA).
  unfold Examples.opsA. constructor; [by vm_compute|].
  apply List.Forall_forall. intros op Hin. apply repeat_spec in Hin.
  subst op. by vm_compute.
Defined.

(** X24: the asset store is a plain object, and looking up an id that
    names a property every object inherits finds that property.  A
    sequence of calls of [updateAssetPriceHistory] from the empty store
    throws exactly when one of its calls names such an id; otherwise the
    store it leaves is the finite map of the other theorems. *)
Theorem inherited_ids_make_the_store_throw (ops : list AssetAppend) :
  ObjectStore.run ops
  = if ObjectStore.ownIds ops then Some (assetRun ops) else None.
Proof.
  induction ops as [|op ops IH] using rev_ind; [done|].
  rewrite run_snoc, IH, assetRun_snoc.
  unfold ObjectStore.ownIds in *. rewrite forallb_app. cbn [forallb].
  destruct (forallb _ ops) eqn:Hown; [|done].
  cbn [andb mbind option_bind].
  unfold ObjectStore.updateAssetPriceHistory, assetAppend,
    updateAssetPriceHistory.
  destruct (assetRun ops !! aa_assetId op) as [d|] eqn:Hentry.
  - destruct (bool_decide_reflect
                (aa_assetId op ∈ ObjectPrototype.inherited)) as [Hin|Hnot];
      [|done].
    pose proof (assetRun_tracks (aa_assetId op) ops) as Htracks.
    rewrite Hentry in Htracks. destruct Htracks as [Hcalls _].
    exfalso. apply Hcalls. by apply ownIds_callsFor.
  - by destruct (bool_decide (aa_assetId op ∈ ObjectPrototype.inherited)).
Qed.

End HistoryTheorems.

(** ** More on the trend series *)

Module TrendMoreFacts.
Import Types TrendSpec TrendFacts.

Lemma interpolation_first prev base (n : Z) :
  interpolation prev base n 0 == prev.
Proof. unfold interpolation, Qdiv. change (inject_Z 0) with 0. ring. Qed.

Lemma interpolation_last prev base (n : Z) :
  (2 <= n)%Z -> interpolation prev base n (n - 1) == base.
Proof.
  intros Hn. unfold interpolation, Qdiv.
  rewrite Qmult_inv_r; [ring|].
  change 0 with (inject_Z 0). rewrite inject_Z_injective. lia.
Qed.

(** The deviation applied to a sample stays within half the scale times
    volatility times price, whatever the weight. *)
Lemma weighted_deviation_bound (scale r vol base : Q) (n i : Z) :
  0 <= scale -> 0 <= r -> r < 1 -> 0 <= vol -> 0 <= base ->
  (1 <= i <= n - 2)%Z ->
  - (scale / 2 * vol * base) <= deviation scale r vol base * weight n i
  /\ deviation scale r vol base * weight n i <= scale / 2 * vol * base.
Proof.
  intros Hs Hr0 Hr1 Hv Hb Hi.
  assert (0 <= weight n i /\ weight n i <= 1) as [Hw0 Hw1].
  { destruct (Z.le_gt_cases (2 * i) (n - 1)) as [Hle|Hgt].
    - rewrite weight_before_midpoint by exact Hle. split; lra.
    - destruct (weight_range n i) as [H0 H1]; [lia|lia|]. split; lra. }
  unfold deviation. set (w := weight n i) in *.
  (* the deviation is d = (r - 1/2) * m with m = vol * base * scale >= 0,
     and |d * w| <= m / 2 for a weight in [0, 1] *)
  assert (0 <= vol * base) as Hvb by (by apply Qmult_le_0_compat).
  assert (0 <= vol * base * scale) as Hm by (by apply Qmult_le_0_compat).
  set (m := vol * base * scale) in *.
  assert (0 <= m * w) as Hmw by (by apply Qmult_le_0_compat).
  assert (m * w <= m * 1) as Hmw1.
  { rewrite !(Qmult_comm m). by apply Qmult_le_compat_r. }
  assert (0 <= r * (m * w)) as Hr0' by (by apply Qmult_le_0_compat).
  assert (r * (m * w) <= 1 * (m * w)) as Hr1'.
  { apply Qmult_le_compat_r; [by apply Qlt_le_weak|exact Hmw]. }
  assert ((r - 0.5) * vol * base * scale * w == r * (m * w) - 0.5 * (m * w))
    as -> by (unfold m; ring).
  assert (scale / 2 * vol * base == 0.5 * m) as -> by (unfold m; field).
  set (x := m * w) in *. set (y := r * x) in *. clearbody y x m.
  split; lra.
Qed.

(** The points of a series laid out as first point, mapped range, last
    point, by position. *)
Lemma series_lookup_cases {A} (f : Z -> A) (first last : A) (m : Z)
    (i : nat) (pt : A) :
  (0 <= m)%Z ->
  (first :: map f (seqZ 1 m) ++ [last]) !! i = Some pt ->
  (i = 0%nat /\ pt = first)
  \/ ((1 <= Z.of_nat i <= m)%Z /\ pt = f (Z.of_nat i))
  \/ (Z.of_nat i = (m + 1)%Z /\ pt = last).
Proof.
  intros Hm Hi. destruct i as [|i]; [left; by inversion Hi|right].
  change ((map f (seqZ 1 m) ++ [last]) !! i = Some pt) in Hi.
  apply lookup_app_Some in Hi as [Hi|[Hlen Hi]].
  - left. change (map f (seqZ 1 m)) with (f <$> seqZ 1 m) in Hi.
    rewrite list_lookup_fmap in Hi.
    destruct (seqZ 1 m !! i) as [j|] eqn:Hj; [|done].
    apply lookup_seqZ in Hj as [-> Hlt]. inversion Hi.
    split; [lia|]. f_equal. lia.
  - right. rewrite length_map, length_seqZ in Hlen, Hi.
    destruct (i - Z.to_nat m)%nat as [|k] eqn:Hk; [|by destruct k].
    inversion Hi. split; [lia|done].
Qed.

(** The timestamp of the point at position [i] of a sparkline. *)
Lemma sparkline_timestamp now0 now1 random asset (n : Z) (i : nat) pt :
  (2 <= n)%Z ->
  ChartUtils.generateEnhancedSparklineData now0 now1 random asset n !! i
  = Some pt ->
  (Z.of_nat i <= n - 1)%Z
  /\ ChartUtils.timestamp pt
     = if (Z.of_nat i <? n - 1)%Z
       then (now0 - n * 500 + Z.of_nat i * 500)%Z
       else now1.
Proof.
  intros Hn Hi. rewrite generateEnhancedSparklineData_spec in Hi.
  replace (Z.of_nat (Z.to_nat (n - 2))) with (n - 2)%Z in Hi by lia.
  apply series_lookup_cases in Hi; [|lia].
  destruct Hi as [[-> ->]|[[Hi ->]|[Hi ->]]]; cbn [ChartUtils.timestamp].
  - split; [lia|]. destruct (Z.ltb_spec (Z.of_nat 0) (n - 1)); lia.
  - split; [lia|]. unfold ChartUtils.sparklinePoint.
    cbn [ChartUtils.timestamp].
    by destruct (Z.ltb_spec (Z.of_nat i) (n - 1)); [|lia].
  - split; [lia|]. by destruct (Z.ltb_spec (Z.of_nat i) (n - 1)); [lia|].
Qed.

End TrendMoreFacts.

Module TrendMoreTheorems.
Import Types TrendSpec TrendFacts TrendMoreFacts.

(** X5: the sparkline never has fewer than two points.  For a requested
    length of 2 or less (0 and negative lengths included) it is exactly
    the pair of the previous and the current price; for any length [n] it
    has [max n 2] points.  The chart history always has 20 points. *)
Theorem sparkline_has_at_least_two_points
    (now0 now1 : Z) (random random' : Z -> Q)
    (asset : ChartUtils.SparkAsset) (asset' : Asset.t) (n : Z) :
  length (ChartUtils.generateEnhancedSparklineData now0 now1 random asset n)
  = Z.to_nat (Z.max n 2)
  /\ ((n <= 2)%Z ->
      ChartUtils.generateEnhancedSparklineData now0 now1 random asset n
      = [ChartUtils.mkPoint (ChartUtils.previousPrice asset)
           (now0 - n * 500);
         ChartUtils.mkPoint (ChartUtils.price asset) now1])
  /\ length (AssetList.generatePriceHistory random' asset') = 20%nat.
Proof.
  rewrite generateEnhancedSparklineData_spec, generatePriceHistory_spec.
  split; [|split].
  - cbn [length]. rewrite length_app, length_map, length_seqZ. simpl. lia.
  - intros Hn. by rewrite seqZ_nil by lia.
  - cbn [length]. rewrite length_app, length_map, length_seqZ. simpl. lia.
Qed.

(** X6: with a random source in [0, 1) and a volatility and a price that
    are not negative, every point of a sparkline of length [n >= 2] lies
    within 0.3 * volatility * price of the straight line between the
    previous and the current price, and every point of the chart history
    within 0.15 * volatility * price of it. *)
Theorem trend_samples_stay_in_a_band
    (now0 now1 : Z) (random random' : Z -> Q)
    (asset : ChartUtils.SparkAsset) (asset' : Asset.t) (n : Z) :
  (2 <= n)%Z ->
  (forall i, 0 <= random i /\ random i < 1) ->
  (forall i, 0 <= random' i /\ random' i < 1) ->
  0 <= ChartUtils.volatility asset -> 0 <= ChartUtils.price asset ->
  0 <= Asset.volatility asset' -> 0 <= Asset.price asset' ->
  (forall (i : nat) pt,
     ChartUtils.generateEnhancedSparklineData now0 now1 random asset n !! i
     = Some pt ->
     let line :=
       interpolation (ChartUtils.previousPrice asset)
         (ChartUtils.price asset) n (Z.of_nat i) in
     let band := 0.3 * ChartUtils.volatility asset * ChartUtils.price asset in
     line - band <= ChartUtils.value pt
     /\ ChartUtils.value pt <= line + band)
  /\ (forall (i : nat) pt,
        AssetList.generatePriceHistory random' asset' !! i = Some pt ->
        let line :=
          interpolation (Asset.previousPrice asset') (Asset.price asset')
            20 (Z.of_nat i) in
        let band := 0.15 * Asset.volatility asset' * Asset.price asset' in
        line - band <= AssetList.value pt
        /\ AssetList.value pt <= line + band).
Proof.
  intros Hn Hr Hr' Hv Hp Hv' Hp'. split.
  - intros i pt Hi line band.
    assert (0 <= band) as Hband.
    { unfold band. apply Qmult_le_0_compat; [|exact Hp].
      apply Qmult_le_0_compat; [lra|exact Hv]. }
    rewrite generateEnhancedSparklineData_spec in Hi.
    replace (Z.of_nat (Z.to_nat (n - 2))) with (n - 2)%Z in Hi by lia.
    apply series_lookup_cases in Hi; [|lia].
    destruct Hi as [[-> ->]|[[Hi ->]|[Hi ->]]].
    + cbn [ChartUtils.value]. unfold line.
      rewrite (interpolation_first _ _ n). split; lra.
    + unfold ChartUtils.sparklinePoint. cbn [ChartUtils.value].
      rewrite (blend_value 0.6) by lia. fold line.
      destruct (Hr (Z.of_nat i)) as [H0 H1].
      destruct (weighted_deviation_bound 0.6 (random (Z.of_nat i))
                  (ChartUtils.volatility asset) (ChartUtils.price asset)
                  n (Z.of_nat i) ltac:(lra) H0 H1 Hv Hp ltac:(lia))
        as [Hlo Hhi].
      assert (0.6 / 2 * ChartUtils.volatility asset * ChartUtils.price asset
              == band) as E by (unfold band; field).
      rewrite E in Hlo, Hhi. split; lra.
    + cbn [ChartUtils.value]. unfold line.
      replace (Z.of_nat i) with (n - 1)%Z by lia.
      rewrite interpolation_last by lia. split; lra.
  - intros i pt Hi line band.
    assert (0 <= band) as Hband.
    { unfold band. apply Qmult_le_0_compat; [|exact Hp'].
      apply Qmult_le_0_compat; [lra|exact Hv']. }
    rewrite generatePriceHistory_spec in Hi.
    apply series_lookup_cases in Hi; [|lia].
    destruct Hi as [[-> ->]|[[Hi ->]|[Hi ->]]].
    + cbn [AssetList.value]. unfold line.
      rewrite (interpolation_first _ _ 20). split; lra.
    + unfold AssetList.historyPoint. cbn [AssetList.value].
      rewrite (blend_value 0.3) by lia. fold line.
      destruct (Hr' (Z.of_nat i)) as [H0 H1].
      destruct (weighted_deviation_bound 0.3 (random' (Z.of_nat i))
                  (Asset.volatility asset') (Asset.price asset')
                  20 (Z.of_nat i) ltac:(lra) H0 H1 Hv' Hp' ltac:(lia))
        as [Hlo Hhi].
      assert (0.3 / 2 * Asset.volatility asset' * Asset.price asset'
              == band) as E by (unfold band; field).
      rewrite E in Hlo, Hhi. split; lra.
    + cbn [AssetList.value]. unfold line.
      replace (Z.of_nat i) with (20 - 1)%Z by lia.
      rewrite interpolation_last by lia. split; lra.
Qed.

Lemma trend_samples_stay_in_a_band_witness :
  (2 <= 20)%Z
  /\ forall (i : nat) pt,
    ChartUtils.generateEnhancedSparklineData 10000 10000 Examples.random0
      Examples.sparkAsset 20 !! i = Some pt ->
    interpolation 100 120 20 (Z.of_nat i) - 0.3 * 0.1 * 120
    <= ChartUtils.value pt
    /\ ChartUtils.value pt
       <= interpolation 100 120 20 (Z.of_nat i) + 0.3 * 0.1 * 120.
Proof.
  split; [lia|].
  apply (trend_samples_stay_in_a_band 10000 10000 Examples.random0
           Examples.random0 Examples.sparkAsset Examples.chartAsset 20).
  - lia.
  - intros i. by vm_compute.
  - intros i. by vm_compute.
  - by vm_compute.
  - by vm_compute.
  - by vm_compute.
  - by vm_compute.
Defined.

(** X7: with a volatility of 0, every point of a sparkline of length
    [n >= 2], and every point of the chart history, lies on the straight
    line between the previous and the current price, whatever the random
    source returns. *)
Theorem flat_volatility_gives_the_line
    (now0 now1 : Z) (random random' : Z -> Q)
    (asset : ChartUtils.SparkAsset) (asset' : Asset.t) (n : Z) :
  (2 <= n)%Z ->
  ChartUtils.volatility asset == 0 ->
  Asset.volatility asset' == 0 ->
  (forall (i : nat) pt,
     ChartUtils.generateEnhancedSparklineData now0 now1 random asset n !! i
     = Some pt ->
     ChartUtils.value pt
     == interpolation (ChartUtils.previousPrice asset)
          (ChartUtils.price asset) n (Z.of_nat i))
  /\ (forall (i : nat) pt,
        AssetList.generatePriceHistory random' asset' !! i = Some pt ->
        AssetList.value pt
        == interpolation (Asset.previousPrice asset') (Asset.price asset')
             20 (Z.of_nat i)).
Proof.
  intros Hn Hv Hv'. split.
  - intros i pt Hi.
    rewrite generateEnhancedSparklineData_spec in Hi.
    replace (Z.of_nat (Z.to_nat (n - 2))) with (n - 2)%Z in Hi by lia.
    apply series_lookup_cases in Hi; [|lia].
    destruct Hi as [[-> ->]|[[Hi ->]|[Hi ->]]].
    + cbn [ChartUtils.value]. by rewrite (interpolation_first _ _ n).
    + unfold ChartUtils.sparklinePoint. cbn [ChartUtils.value].
      rewrite (blend_value 0.6) by lia. unfold deviation.
      rewrite Hv. ring.
    + cbn [ChartUtils.value].
      replace (Z.of_nat i) with (n - 1)%Z by lia.
      by rewrite interpolation_last by lia.
  - intros i pt Hi.
    rewrite generatePriceHistory_spec in Hi.
    apply series_lookup_cases in Hi; [|lia].
    destruct Hi as [[-> ->]|[[Hi ->]|[Hi ->]]].
    + cbn [AssetList.value]. by rewrite (interpolation_first _ _ 20).
    + unfold AssetList.historyPoint. cbn [AssetList.value].
      rewrite (blend_value 0.3) by lia. unfold deviation.
      rewrite Hv'. ring.
    + cbn [AssetList.value].
      replace (Z.of_nat i) with (20 - 1)%Z by lia.
      by rewrite interpolation_last by lia.
Qed.

Lemma flat_volatility_gives_the_line_witness :
  (2 <= 20)%Z
  /\ forall (i : nat) pt,
    ChartUtils.generateEnhancedSparklineData 10000 10000
      (fun _ => 0.75) (ChartUtils.mkSparkAsset 120 100 0) 20 !! i = Some pt ->
    ChartUtils.value pt == interpolation 100 120 20 (Z.of_nat i).
Proof.
  split; [lia|].
  apply (flat_volatility_gives_the_line 10000 10000 (fun _ => 0.75)
           (fun _ => 0.75) (ChartUtils.mkSparkAsset 120 100 0)
           (Asset.mk "gold" "Gold" 120 100 0 "gold") 20).
  - lia.
  - reflexivity.
  - reflexivity.
Defined.

(** X8: the timestamps of a sparkline of length [n >= 2] run forward when
    the clock does.  The first [n - 1] points are 500 ms apart, starting
    500 * n ms before the first clock reading; the last point carries the
    second clock reading; and if that reading is not before the first,
    the timestamps increase strictly along the series. *)
Theorem sparkline_timestamps_increase
    (now0 now1 : Z) (random : Z -> Q) (asset : ChartUtils.SparkAsset)
    (n : Z) :
  (2 <= n)%Z ->
  (now0 <= now1)%Z ->
  (forall (i : nat) pt,
     ChartUtils.generateEnhancedSparklineData now0 now1 random asset n !! i
     = Some pt ->
     ChartUtils.timestamp pt
     = if (Z.of_nat i <? n - 1)%Z
       then (now0 - n * 500 + Z.of_nat i * 500)%Z
       else now1)
  /\ (forall (i j : nat) pi pj,
        (i < j)%nat ->
        ChartUtils.generateEnhancedSparklineData now0 now1 random asset n !! i
        = Some pi ->
        ChartUtils.generateEnhancedSparklineData now0 now1 random asset n !! j
        = Some pj ->
        (ChartUtils.timestamp pi < ChartUtils.timestamp pj)%Z).
Proof.
  intros Hn Hnow. split.
  - intros i pt Hi.
    by destruct (sparkline_timestamp now0 now1 random asset n i pt Hn Hi).
  - intros i j pi pj Hij Hi Hj.
    destruct (sparkline_timestamp now0 now1 random asset n i pi Hn Hi)
      as [Hi1 ->].
    destruct (sparkline_timestamp now0 now1 random asset n j pj Hn Hj)
      as [Hj1 ->].
    destruct (Z.ltb_spec (Z.of_nat i) (n - 1));
      destruct (Z.ltb_spec (Z.of_nat j) (n - 1)); lia.
Qed.

Lemma sparkline_timestamps_increase_witness :
  (10000 <= 10004)%Z
  /\ forall (i j : nat) pi pj,
    (i < j)%nat ->
    ChartUtils.generateEnhancedSparklineData 10000 10004 Examples.random0
      Examples.sparkAsset 20 !! i = Some pi ->
    ChartUtils.generateEnhancedSparklineData 10000 10004 Examples.random0
      Examples.sparkAsset 20 !! j = Some pj ->
    (ChartUtils.timestamp pi < ChartUtils.timestamp pj)%Z.
Proof.
  split; [lia|].
  apply (sparkline_timestamps_increase 10000 10004 Examples.random0
           Examples.sparkAsset 20); lia.
Defined.

End TrendMoreTheorems.

(** ** Chart colours and the investment summary *)

Module DisplayFacts.
Import TrendFacts ObjectPrototype ChartColors.

Lemma last_index {A} (l : list A) (x y : A) :
  (x :: l ++ [y]) !! (length (x :: l ++ [y]) - 1)%nat = Some y.
Proof.
  cbn [length]. rewrite length_app. simpl.
  replace (length l + 1 - 0)%nat with (S (length l)) by lia.
  change ((l ++ [y]) !! length l = Some y).
  by rewrite list_lookup_middle.
Qed.

Lemma default_palette :
  lookupColors "default" = Some (palette (mkColorSet "#10B981" "#EF4444")).
Proof. by vm_compute. Qed.

(** No own property of the colour mapping is an inherited one. *)
Lemma inherited_no_palette assetType :
  assetType ∈ inherited -> baseColors !! assetType = None.
Proof.
  unfold inherited. rewrite !elem_of_cons, elem_of_nil.
  intros H. repeat destruct H as [->|H]; try done.
Qed.

Lemma lookupColors_cases assetType :
  lookupColors assetType
  = match baseColors !! assetType with
    | Some colorSet => Some (palette colorSet)
    | None =>
        if bool_decide (assetType ∈ inherited) then Some inheritedProperty
        else None
    end.
Proof. reflexivity. Qed.

End DisplayFacts.

Module DisplayTheorems.
Import TrendFacts ObjectPrototype ChartColors DisplayFacts
  InvestmentSummary.

(** X9: [getAssetChartColors] always yields a result, whose area colour
    is the line colour followed by "20" for either trend.  An asset type
    that is neither in the colour mapping nor a property inherited by
    every object gets the default palette.  An asset type that names an
    inherited property gets no line colour at all and the area colour
    "undefined20".  The points between the first and the last price never
    matter. *)
Theorem chart_colours_follow_the_endpoints
    (assetType : string) (prices : list Q) :
  (exists c,
     getAssetChartColors assetType prices = Some c
     /\ area c = withAlpha (line c)
     /\ (assetType ∉ inherited -> is_Some (line c))
     /\ (assetType ∈ inherited ->
         line c = None /\ area c = "undefined20"%string))
  /\ (baseColors !! assetType = None ->
      assetType ∉ inherited ->
      getAssetChartColors assetType prices
      = getAssetChartColors "default" prices)
  /\ (forall first mid last,
        getAssetChartColors assetType (first :: mid ++ [last])
        = getAssetChartColors assetType [first; last]).
Proof.
  split; [|split].
  - unfold getAssetChartColors. rewrite lookupColors_cases.
    destruct (baseColors !! assetType) as [colorSet|] eqn:Hown.
    + eexists. split; [reflexivity|]. cbn [line area].
      split; [by destruct (if (1 <? length prices)%nat then _ else true)|].
      split; [by eexists|].
      intros Hin. apply inherited_no_palette in Hin. congruence.
    + case_bool_decide as Hin.
      * eexists. split; [reflexivity|]. cbn [line area].
        split; [by destruct (if (1 <? length prices)%nat then _ else true)|].
        split; [done|].
        intros _. split; [done|].
        by destruct (if (1 <? length prices)%nat then _ else true).
      * rewrite default_palette.
        eexists. split; [reflexivity|]. cbn [line area].
        split; [by destruct (if (1 <? length prices)%nat then _ else true)|].
        split; [by eexists|done].
  - intros Hnone Hnot. unfold getAssetChartColors.
    rewrite (lookupColors_cases assetType), Hnone.
    rewrite bool_decide_eq_false_2 by exact Hnot.
    by rewrite default_palette.
  - intros first mid last. unfold getAssetChartColors.
    rewrite last_index.
    assert ((1 <? length (first :: mid ++ [last]))%nat = true) as ->.
    { apply Nat.ltb_lt. cbn [length]. rewrite length_app. simpl. lia. }
    reflexivity.
Qed.

(** X10: the two cash warnings of the investment summary exclude each
    other: at most one hint is shown, and the panel is green exactly when
    the cash share lies between 10 and 50 per cent.  With a net worth that
    is not positive both percentages are 0, so the panel is red and warns
    of low cash whatever the cash is. *)
Theorem cash_warnings_exclude_each_other (p : Props) :
  (lowCash p && highCash p = false)
  /\ (length (hints p) <= 1)%nat
  /\ (cashTone p = green <-> 10 <= cashPercentage p /\ cashPercentage p <= 50)
  /\ (netWorth p <= 0 ->
      investedPercentage p = 0 /\ cashPercentage p = 0
      /\ cashTone p = red
      /\ hints p = ["Low on cash for new opportunities"%string]).
Proof.
  assert (lowCash p = true -> highCash p = true -> False) as Hexcl.
  { unfold lowCash, highCash. rewrite !Qltb_true. lra. }
  split; [|split; [|split]].
  - destruct (lowCash p) eqn:E1, (highCash p) eqn:E2; try done.
    exfalso. by apply Hexcl.
  - unfold hints. destruct (lowCash p) eqn:E1, (highCash p) eqn:E2;
      simpl; try lia; exfalso; by apply Hexcl.
  - unfold cashTone, lowCash, highCash.
    destruct (Qltb (cashPercentage p) 10) eqn:Hlow;
      destruct (Qltb 50 (cashPercentage p)) eqn:Hhigh;
      try apply Qltb_true in Hlow; try apply Qltb_false in Hlow;
      try apply Qltb_true in Hhigh; try apply Qltb_false in Hhigh;
      split; try done; try (intros [? ?]; lra).
  - intros Hnw.
    assert (Qltb 0 (netWorth p) = false) as Hnot by (by apply Qltb_false).
    assert (cashPercentage p = 0) as Hc
      by (unfold cashPercentage; by rewrite Hnot).
    unfold investedPercentage, cashTone, hints, lowCash, highCash.
    rewrite Hnot, Hc. by vm_compute.
Qed.



End DisplayTheorems.

(** ** More on the per-frame driver *)

Module DriverFacts.
Import Types GameContext Handlers GameFacts DriverBlocks.

(** Running a sequence is running its parts one after the other. *)
Lemma run_bind {A B} (m : M A) (k : A -> M B) (w : World) :
  (m ≫= k) w = k (fst (m w)) (snd (m w)).
Proof. unfold mbind, M_bind. by destruct (m w). Qed.

Lemma run_when (b : bool) (m : M unit) (w : World) :
  snd (when b m w) = if b then snd (m w) else w.
Proof. by destruct b. Qed.

(** Handing over the prices of a list of assets changes the asset
    histories and nothing else. *)
Lemma forEach_recordPrices (now : Z) (assets : list Asset.t) :
  forall (index : nat) (w : World),
    forEachFrom
      (fun asset (_ : nat) =>
         GameContext.updateAssetPriceHistory (Asset.id asset)
           (Asset.price asset) now)
      index assets w
    = (tt,
       mkWorld (clock w) (draws w) (dispatched w) (timers w) (toasts w)
         (hooks w)
         (recordPrices (clock w) now assets (assetPriceHistory w))
         (portfolioHistory w)).
Proof.
  induction assets as [|asset assets IH]; intros index w.
  - by destruct w.
  - cbn [forEachFrom]. rewrite run_bind. rewrite IH. reflexivity.
Qed.

Section Externals.
Variable generateMarketNews : list Asset.t -> Z -> bool -> nat -> NewsItem.t.
Variable shouldBeHighImpactEvent : Density -> nat -> bool.
Variable shouldBeChainedEvent : Density -> nat -> bool.
Variable uuidv4 : nat -> string.
Variable Math_random : nat -> Q.

#[local] Abbreviation updateTimer :=
  (updateTimer generateMarketNews shouldBeHighImpactEvent
     shouldBeChainedEvent uuidv4 Math_random).
#[local] Abbreviation onScheduledEvent :=
  (onScheduledEvent generateMarketNews shouldBeHighImpactEvent
     shouldBeChainedEvent uuidv4 Math_random).
#[local] Abbreviation eventsBlock :=
  (eventsBlock generateMarketNews shouldBeHighImpactEvent
     shouldBeChainedEvent uuidv4 Math_random).
#[local] Abbreviation healthBlock := (healthBlock Math_random).

Lemma updateTimer_blocks state hk timestamp :
  updateTimer state hk timestamp
  = updateTimerBlocks generateMarketNews shouldBeHighImpactEvent
      shouldBeChainedEvent uuidv4 Math_random state hk timestamp.
Proof. reflexivity. Qed.

Lemma priceBlock_run state hk now w :
  snd (priceBlock state hk now w)
  = if (PRICE_UPDATE_INTERVAL <=? now - lastPriceUpdate hk)%Z
    then
      mkWorld (clock w) (draws w) (dispatched w ++ [UPDATE_PRICES])
        (timers w) (toasts w)
        (mkHooks (lastTickTime (hooks w)) now
           (lastNetWorthUpdate (hooks w)) (eventSchedule (hooks w)))
        (recordPrices (clock w) now (GameState.assets state)
           (assetPriceHistory w))
        (portfolioHistory w)
    else w.
Proof.
  unfold priceBlock. rewrite run_when.
  destruct (PRICE_UPDATE_INTERVAL <=? now - lastPriceUpdate hk)%Z; [|done].
  rewrite !run_bind. unfold forEach. rewrite forEach_recordPrices.
  reflexivity.
Qed.

Lemma netWorthBlock_run state hk now w :
  snd (netWorthBlock state hk now w)
  = if (PRICE_UPDATE_INTERVAL <=? now - lastNetWorthUpdate hk)%Z
    then
      mkWorld (clock w) (draws w) (dispatched w ++ [UPDATE_NET_WORTH now])
        (timers w) (toasts w)
        (mkHooks (lastTickTime (hooks w)) (lastPriceUpdate (hooks w))
           now (eventSchedule (hooks w)))
        (assetPriceHistory w)
        (ChartUtils.updatePortfolioHistory (calculateNetWorth state) now
           None (portfolioHistory w))
    else w.
Proof.
  unfold netWorthBlock. rewrite run_when.
  by destruct (PRICE_UPDATE_INTERVAL <=? now - lastNetWorthUpdate hk)%Z.
Qed.

Lemma healthBlock_run state w :
  snd (healthBlock state w)
  = if Qltb (Math_random (draws w)) 0.02
    then
      mkWorld (clock w) (S (S (draws w)))
        (dispatched w ++ [UPDATE_MARKET_HEALTH (proposedHealth Math_random state w)])
        (timers w) (toasts w) (hooks w) (assetPriceHistory w)
        (portfolioHistory w)
    else
      mkWorld (clock w) (S (draws w)) (dispatched w) (timers w) (toasts w)
        (hooks w) (assetPriceHistory w) (portfolioHistory w).
Proof.
  unfold DriverBlocks.healthBlock. rewrite run_bind.
  cbn [draw fst snd]. rewrite run_when.
  by destruct (Qltb (Math_random (draws w)) 0.02).
Qed.


(** *** The news a block emits *)

Lemma announced_nil w : announced [] w w.
Proof.
  repeat split; [by rewrite app_nil_r|]. exists []. by rewrite app_nil_r.
Qed.

Lemma announced_app items1 items2 w w1 w2 :
  announced items1 w w1 -> announced items2 w1 w2 ->
  announced (items1 ++ items2) w w2.
Proof.
  intros (Hc1 & Ha1 & Hp1 & Ht1 & Hl1 & Hn1 & Hd1 & new1 & Hn1' & He1)
    (Hc2 & Ha2 & Hp2 & Ht2 & Hl2 & Hn2 & Hd2 & new2 & Hn2' & He2).
  repeat split; try congruence.
  - rewrite Hd2, Hd1, map_app. by rewrite app_assoc.
  - exists (new1 ++ new2). split.
    + rewrite Hn2', Hn1'. by rewrite app_assoc.
    + unfold expiriesOf in *. rewrite omap_app, map_app.
      fold (expiriesOf new1). fold (expiriesOf new2).
      unfold expiriesOf. rewrite He1, He2, Hc1. done.
Qed.

Lemma onScheduledEvent_announced state index w :
  exists item, announced [item] w (snd (onScheduledEvent state index w)).
Proof.
  wp_start. unfold GameContext.onScheduledEvent. repeat wp_step.
  destruct (shouldBeChainedEvent _ _); repeat wp_step.
  all: eexists; unfold announced;
    cbn [clock draws dispatched timers toasts hooks assetPriceHistory
         portfolioHistory lastTickTime lastPriceUpdate lastNetWorthUpdate
         map];
    do 6 (split; [reflexivity|]); (split; [reflexivity|]);
    eexists; (split; [rewrite <- ?app_assoc; reflexivity|reflexivity]).
Qed.

Lemma forEach_events_announced state (elapsedMs : Q) schedule :
  forall index w,
  exists items,
    length items
    = length (List.filter
                (fun timing => Qltb (Qabs (elapsedMs - timing)) 100)
                schedule)
    /\ announced items w
         (snd (forEachFrom
                 (fun timing index =>
                    when (Qltb (Qabs (elapsedMs - timing)) 100)
                      (onScheduledEvent state index))
                 index schedule w)).
Proof.
  induction schedule as [|timing schedule IH]; intros index w.
  - exists []. split; [done|]. apply announced_nil.
  - cbn [forEachFrom List.filter]. rewrite run_bind.
    set (w1 := snd (when (Qltb (Qabs (elapsedMs - timing)) 100)
                      (onScheduledEvent state index) w)).
    destruct (IH (S index) w1) as (items & Hlen & Hrest).
    assert (exists first,
              length first
              = (if Qltb (Qabs (elapsedMs - timing)) 100 then 1 else 0)%nat
              /\ announced first w w1) as (first & Hfirst & Hhead).
    { unfold w1. rewrite run_when.
      destruct (Qltb (Qabs (elapsedMs - timing)) 100).
      - destruct (onScheduledEvent_announced state index w) as [item Hitem].
        by exists [item].
      - exists []. split; [done|]. apply announced_nil. }
    exists (first ++ items). split.
    + rewrite length_app, Hfirst, Hlen.
      by destruct (Qltb (Qabs (elapsedMs - timing)) 100).
    + by apply (announced_app first items w w1).
Qed.

Lemma eventsBlock_announced state hk w :
  exists items,
    length items
    = (if GameState.isPaused state then 0%nat
       else length (dueTimings state (eventSchedule hk)))
    /\ announced items w (snd (eventsBlock state hk w)).
Proof.
  unfold DriverBlocks.eventsBlock. rewrite run_when.
  destruct (GameState.isPaused state); cbn [negb].
  - exists []. split; [done|]. apply announced_nil.
  - apply forEach_events_announced.
Qed.


(** *** A frame, block by block *)

(** The world a running frame ends in, when a previous frame time is
    known: the tick, the price block, the news of the events block, then
    the health block, the net worth block and the frame time. *)
Lemma updateTimer_run state hk timestamp last w :
  GameState.isGameOver state = false ->
  lastTickTime hk = Some last ->
  let w1 :=
    mkWorld (clock w) (draws w)
      (dispatched w ++ [TICK ((timestamp - last) / 1000)])
      (timers w) (toasts w) (hooks w) (assetPriceHistory w)
      (portfolioHistory w) in
  let w2 := snd (priceBlock state hk (clock w) w1) in
  exists items w3,
    length items
    = (if GameState.isPaused state then 0%nat
       else length (dueTimings state (eventSchedule hk)))
    /\ announced items w2 w3
    /\ snd (updateTimer state hk timestamp w)
       = snd (setLastTickTime timestamp
                (snd (netWorthBlock state hk (clock w)
                        (snd (healthBlock state w3))))).
Proof.
  intros Hover Hlast w1 w2.
  destruct (eventsBlock_announced state hk w2) as (items & Hlen & Hann).
  exists items, (snd (eventsBlock state hk w2)).
  split; [exact Hlen|]. split; [exact Hann|].
  rewrite updateTimer_blocks. unfold updateTimerBlocks.
  rewrite Hover, Hlast. cbn [negb].
  rewrite !run_bind. reflexivity.
Qed.

Lemma newsOf_app acts1 acts2 :
  newsOf (acts1 ++ acts2) = newsOf acts1 ++ newsOf acts2.
Proof. unfold newsOf. apply omap_app. Qed.

Lemma newsOf_news items : newsOf (map ADD_NEWS items) = items.
Proof.
  induction items as [|item items IH]; [done|].
  change (item :: newsOf (map ADD_NEWS items) = item :: items).
  by rewrite IH.
Qed.

Lemma proposedHealth_range state w :
  0 <= proposedHealth Math_random state w
  /\ proposedHealth Math_random state w <= 100.
Proof.
  unfold proposedHealth. split; [apply Q.le_max_l|].
  apply Q.max_lub; [lra|apply Q.le_min_l].
Qed.


(** Everything a running frame changes, in one statement. *)
Lemma updateTimer_frame state hk timestamp last w :
  GameState.isGameOver state = false ->
  lastTickTime hk = Some last ->
  let w' := snd (updateTimer state hk timestamp w) in
  let priceDue := (PRICE_UPDATE_INTERVAL <=? clock w - lastPriceUpdate hk)%Z in
  let netWorthDue :=
    (PRICE_UPDATE_INTERVAL <=? clock w - lastNetWorthUpdate hk)%Z in
  exists (items : list NewsItem.t) (health : option nat)
         (new : list (Z * Callback)),
    length items
    = (if GameState.isPaused state then 0%nat
       else length (dueTimings state (eventSchedule hk)))
    /\ dispatched w'
       = dispatched w
         ++ [TICK ((timestamp - last) / 1000)]
         ++ (if priceDue then [UPDATE_PRICES] else [])
         ++ map ADD_NEWS items
         ++ match health with
            | Some k =>
                [UPDATE_MARKET_HEALTH
                   (Qmax 0
                      (Qmin 100
                         (GameState.marketHealth state
                          + (Math_random k * 6 - 3))))]
            | None => []
            end
         ++ (if netWorthDue then [UPDATE_NET_WORTH (clock w)] else [])
    /\ timers w' = timers w ++ new
    /\ expiriesOf new = map (fun item => ((clock w + 15000)%Z, item)) items
    /\ clock w' = clock w
    /\ lastTickTime (hooks w') = Some timestamp
    /\ lastPriceUpdate (hooks w')
       = (if priceDue then clock w else lastPriceUpdate (hooks w))
    /\ lastNetWorthUpdate (hooks w')
       = (if netWorthDue then clock w else lastNetWorthUpdate (hooks w))
    /\ assetPriceHistory w'
       = (if priceDue
          then recordPrices (clock w) (clock w) (GameState.assets state)
                 (assetPriceHistory w)
          else assetPriceHistory w)
    /\ portfolioHistory w'
       = (if netWorthDue
          then ChartUtils.updatePortfolioHistory (calculateNetWorth state)
                 (clock w) None (portfolioHistory w)
          else portfolioHistory w).
Proof.
  intros Hover Hlast w' priceDue netWorthDue.
  destruct (updateTimer_run state hk timestamp last w Hover Hlast)
    as (items & w3 & Hlen & Hann & Hrun).
  subst w'. rewrite Hrun. clear Hrun.
  rewrite netWorthBlock_run, healthBlock_run.
  rewrite priceBlock_run in Hann.
  fold priceDue in Hann. fold netWorthDue.
  destruct Hann
    as (Hc & Ha & Hp & Ht & Hl & Hn & Hd & new & Hnew & Hexp).
  exists items,
    (if Qltb (Math_random (draws w3)) 0.02 then Some (S (draws w3))
     else None),
    new.
  split; [exact Hlen|].
  assert (clock w3 = clock w) as Hclock
    by (rewrite Hc; by destruct priceDue).
  destruct priceDue, netWorthDue,
    (Qltb (Math_random (draws w3)) 0.02);
    cbn [snd setLastTickTime setHooks dispatched timers clock hooks
         lastTickTime lastPriceUpdate lastNetWorthUpdate eventSchedule
         assetPriceHistory portfolioHistory] in *;
    rewrite ?Hclock, ?Hd, ?Hnew, ?Hexp, ?Ha, ?Hp, ?Hl, ?Hn;
    unfold proposedHealth;
    rewrite <- ?app_assoc; cbn [app]; rewrite ?app_nil_r;
    repeat split; reflexivity.
Qed.


(** The timers an event arms: at most one follow-up, whose delay is read
    off one draw, then the expiry of the item. *)
Lemma onScheduledEvent_chain state index w :
  let w' := snd (onScheduledEvent state index w) in
  exists item followUps,
    dispatched w' = dispatched w ++ [ADD_NEWS item]
    /\ timers w'
       = timers w ++ followUps ++ [((clock w + 15000)%Z, ExpireNews item)]
    /\ (length followUps <= 1)%nat
    /\ Forall
         (fun t =>
            exists k chainId,
              t = ((clock w + (Qfloor (Math_random k * 10000) + 5000))%Z,
                   FollowUpNews state item chainId)
              /\ NewsItem.chainId item = Some chainId)
         followUps.
Proof.
  wp_start.
  unfold GameContext.onScheduledEvent.
  repeat wp_step.
  destruct (shouldBeChainedEvent _ _); repeat wp_step.
  all: eexists.
  all: first
    [ exists []; split; [reflexivity|]; split; [reflexivity|];
      split; [simpl; lia|]; constructor
    | eexists [_]; split; [reflexivity|];
      split; [rewrite <- app_assoc; reflexivity|];
      split; [simpl; lia|];
      constructor; [|constructor]; by do 2 eexists ].
Qed.

Lemma onScheduledEvent_clock state index w :
  clock (snd (onScheduledEvent state index w)) = clock w.
Proof.
  wp_start.
  unfold GameContext.onScheduledEvent.
  repeat wp_step.
  destruct (shouldBeChainedEvent _ _); by repeat wp_step.
Qed.

End Externals.

(** *** Handing over a list of prices *)

Lemma updateAssetPriceHistory_lookup clock assetId price timestamp h id :
  ChartUtils.updateAssetPriceHistory clock assetId price timestamp h !! id
  = if String.eqb assetId id
    then Some match h !! id with
              | Some d => ChartUtils.appendAssetPoint price timestamp d
              | None =>
                  ChartUtils.AssetChartData.mk [clock] [price] price price
                    [ChartUtils.mkPoint price clock]
              end
    else h !! id.
Proof.
  unfold ChartUtils.updateAssetPriceHistory,
    ChartUtils.initAssetPriceHistory.
  destruct (String.eqb_spec assetId id) as [<-|Hne].
  - destruct (h !! assetId); by rewrite lookup_insert_eq.
  - destruct (h !! assetId); by rewrite lookup_insert_ne.
Qed.

Lemma recordPrices_snoc clock now assets asset h :
  recordPrices clock now (assets ++ [asset]) h
  = ChartUtils.updateAssetPriceHistory clock (Asset.id asset)
      (Asset.price asset) now (recordPrices clock now assets h).
Proof. unfold recordPrices. by rewrite fold_left_app. Qed.

Lemma last_shift {A} (l : list A) :
  (2 <= length l)%nat -> last (ChartUtils.shift l) = last l.
Proof. destruct l as [|x [|y l]]; simpl; try lia. done. Qed.

Lemma last_push {A} (l : list A) (x : A) :
  last (ChartUtils.push l x) = Some x.
Proof. unfold ChartUtils.push. apply last_snoc. Qed.

Lemma appendAssetPoint_last price timestamp d :
  length (ChartUtils.AssetChartData.timestamps d)
  = length (ChartUtils.AssetChartData.prices d) ->
  last (ChartUtils.AssetChartData.prices
          (ChartUtils.appendAssetPoint price timestamp d)) = Some price
  /\ last (ChartUtils.AssetChartData.timestamps
             (ChartUtils.appendAssetPoint price timestamp d))
     = Some timestamp
  /\ length (ChartUtils.AssetChartData.timestamps
               (ChartUtils.appendAssetPoint price timestamp d))
     = length (ChartUtils.AssetChartData.prices
                 (ChartUtils.appendAssetPoint price timestamp d)).
Proof.
  intros Hlen.
  rewrite ChartFacts.appendAssetPoint_prices,
    ChartFacts.appendAssetPoint_timestamps.
  destruct (Nat.ltb_spec 50
              (length (ChartUtils.push (ChartUtils.AssetChartData.prices d)
                         price))) as [Hlt|Hge].
  - rewrite !last_shift, !last_push, !ChartFacts.length_shift,
      !ChartFacts.length_push; rewrite ?ChartFacts.length_push in *;
      try lia.
    by rewrite Hlen.
  - by rewrite !last_push, !ChartFacts.length_push, Hlen.
Qed.

(** Handing over the prices of a list of assets leaves the history of
    every other asset alone. *)
Lemma recordPrices_other clock now assets h id :
  ~ In id (map Asset.id assets) ->
  recordPrices clock now assets h !! id = h !! id.
Proof.
  induction assets as [|asset assets IH] using rev_ind; [done|].
  rewrite map_app, in_app_iff. cbn [map In]. intros Hnot.
  rewrite recordPrices_snoc, updateAssetPriceHistory_lookup.
  destruct (String.eqb_spec (Asset.id asset) id) as [Heq|Hne].
  - exfalso. apply Hnot. right. by left.
  - apply IH. intros Hin. apply Hnot. by left.
Qed.

(** With distinct ids, each asset's history ends in its price. *)
Lemma recordPrices_latest clock now assets h asset :
  List.NoDup (map Asset.id assets) ->
  In asset assets ->
  exists d,
    recordPrices clock now assets h !! Asset.id asset = Some d
    /\ last (ChartUtils.AssetChartData.prices d) = Some (Asset.price asset).
Proof.
  induction assets as [|a assets IH] using rev_ind; [done|].
  rewrite map_app, in_app_iff. cbn [map In]. intros Hdup Hin.
  rewrite recordPrices_snoc, updateAssetPriceHistory_lookup.
  apply List.NoDup_remove in Hdup as [Hdup Hnot].
  rewrite app_nil_r in Hdup, Hnot.
  destruct Hin as [Hin|[->|[]]].
  - destruct (String.eqb_spec (Asset.id a) (Asset.id asset)) as [Heq|Hne].
    + exfalso. apply Hnot. rewrite Heq. by apply in_map.
    + by apply IH.
  - rewrite String.eqb_refl. eexists. split; [reflexivity|].
    destruct (recordPrices clock now assets h !! Asset.id asset) as [d|];
      [|done].
    rewrite ChartFacts.appendAssetPoint_prices.
    destruct (Nat.ltb_spec 50
                (length (ChartUtils.push (ChartUtils.AssetChartData.prices d)
                           (Asset.price asset)))) as [Hlt|Hge].
    + rewrite last_shift by lia. apply last_push.
    + apply last_push.
Qed.

(** The delay of a follow-up lies between 5000 and 14999 ms when the
    draw lies in the unit interval. *)
Lemma followUpDelay_range (r : Q) :
  0 <= r -> r < 1 ->
  (5000 <= Qfloor (r * 10000) + 5000 < 15000)%Z.
Proof.
  intros H0 H1.
  assert (0 <= Qfloor (r * 10000))%Z as Hlo.
  { change 0%Z with (Qfloor 0). apply Qfloor_resp_le. lra. }
  assert (Qfloor (r * 10000) < 10000)%Z as Hhi.
  { rewrite Zlt_Qlt.
    apply Qle_lt_trans with (r * 10000); [apply Qfloor_le|].
    change (inject_Z 10000) with 10000. lra. }
  lia.
Qed.

End DriverFacts.

Module DriverTheorems.
Import Types GameContext Handlers GameFacts DriverBlocks DriverFacts
  Examples MoreExamples.

(** Membership in the actions of an optional block. *)
Ltac in_block H :=
  repeat match type of H with
         | In _ (if ?b then _ else _) => destruct b
         | In _ (match ?o with Some _ => _ | None => _ end) => destruct o
         end;
  simpl in H.

(** X12: a frame of a running game that knows the time of the previous
    frame dispatches, in this order: one TICK with the elapsed seconds,
    UPDATE_PRICES when a second has passed since the last price update,
    one ADD_NEWS for each schedule entry within 100 ms of the elapsed
    round time (none while the game is paused), at most one
    UPDATE_MARKET_HEALTH, whose value lies between 0 and 100, and
    UPDATE_NET_WORTH when a second has passed since the last net worth
    update. *)
Theorem frame_dispatches_block_by_block
    (generateMarketNews : list Asset.t -> Z -> bool -> nat -> NewsItem.t)
    (shouldBeHighImpactEvent shouldBeChainedEvent : Density -> nat -> bool)
    (uuidv4 : nat -> string) (Math_random : nat -> Q)
    (state : GameState.t) (hk : Hooks) (timestamp previous : Q) (w : World) :
  GameState.isGameOver state = false ->
  lastTickTime hk = Some previous ->
  let w' :=
    snd (updateTimer generateMarketNews shouldBeHighImpactEvent
           shouldBeChainedEvent uuidv4 Math_random state hk timestamp w) in
  exists (items : list NewsItem.t) (health : list Q),
    length items
    = (if GameState.isPaused state then 0%nat
       else length (dueTimings state (eventSchedule hk)))
    /\ (length health <= 1)%nat
    /\ Forall (fun h => 0 <= h /\ h <= 100) health
    /\ dispatched w'
       = dispatched w
         ++ [TICK ((timestamp - previous) / 1000)]
         ++ (if (PRICE_UPDATE_INTERVAL <=? clock w - lastPriceUpdate hk)%Z
             then [UPDATE_PRICES] else [])
         ++ map ADD_NEWS items
         ++ map UPDATE_MARKET_HEALTH health
         ++ (if (PRICE_UPDATE_INTERVAL
                 <=? clock w - lastNetWorthUpdate hk)%Z
             then [UPDATE_NET_WORTH (clock w)] else []).
Proof.
  intros Hover Hlast w'.
  destruct (updateTimer_frame generateMarketNews shouldBeHighImpactEvent
              shouldBeChainedEvent uuidv4 Math_random state hk timestamp
              previous w Hover Hlast)
    as (items & health & new & Hlen & Hd & _).
  exists items,
    (match health with
     | Some k =>
         [Qmax 0
            (Qmin 100
               (GameState.marketHealth state + (Math_random k * 6 - 3)))]
     | None => []
     end).
  split; [exact Hlen|].
  split; [destruct health; simpl; lia|].
  split.
  - destruct health as [k|]; constructor; [|constructor].
    split; [apply Q.le_max_l|].
    apply Q.max_lub; [lra|apply Q.le_min_l].
  - subst w'. rewrite Hd. by destruct health.
Qed.

Lemma frame_dispatches_block_by_block_witness :
  exists (items : list NewsItem.t) (health : list Q),
    length items = 1%nat
    /\ (length health <= 1)%nat
    /\ Forall (fun h => 0 <= h /\ h <= 100) health
    /\ dispatched afterFrame
       = [TICK ((16 - 0) / 1000)] ++ [UPDATE_PRICES] ++ map ADD_NEWS items
         ++ map UPDATE_MARKET_HEALTH health
         ++ [UPDATE_NET_WORTH 1000000].
Proof.
  exact (frame_dispatches_block_by_block exampleNews neverHighImpact
           alwaysChained exampleUuid exampleRandom exampleState frameHooks
           16 0 world0 eq_refl eq_refl).
Defined.

(** X13: every news item a frame announces gets one removal timer, due
    15000 ms after the frame's clock reading, in the order of the
    announcements; the frame arms no other removal. *)
Theorem frame_expires_what_it_announces
    (generateMarketNews : list Asset.t -> Z -> bool -> nat -> NewsItem.t)
    (shouldBeHighImpactEvent shouldBeChainedEvent : Density -> nat -> bool)
    (uuidv4 : nat -> string) (Math_random : nat -> Q)
    (state : GameState.t) (hk : Hooks) (timestamp previous : Q) (w : World) :
  GameState.isGameOver state = false ->
  lastTickTime hk = Some previous ->
  let w' :=
    snd (updateTimer generateMarketNews shouldBeHighImpactEvent
           shouldBeChainedEvent uuidv4 Math_random state hk timestamp w) in
  exists (acts : list Action) (new : list (Z * Callback)),
    dispatched w' = dispatched w ++ acts
    /\ timers w' = timers w ++ new
    /\ expiriesOf new
       = map (fun item => ((clock w + 15000)%Z, item)) (newsOf acts).
Proof.
  intros Hover Hlast w'.
  destruct (updateTimer_frame generateMarketNews shouldBeHighImpactEvent
              shouldBeChainedEvent uuidv4 Math_random state hk timestamp
              previous w Hover Hlast)
    as (items & health & new & _ & Hd & Ht & He & _).
  eexists _, new. split; [exact Hd|]. split; [exact Ht|].
  rewrite He. f_equal.
  rewrite !newsOf_app, newsOf_news.
  destruct (PRICE_UPDATE_INTERVAL <=? clock w - lastPriceUpdate hk)%Z,
    (PRICE_UPDATE_INTERVAL <=? clock w - lastNetWorthUpdate hk)%Z, health;
    cbn [newsOf omap app]; by rewrite ?app_nil_r.
Qed.

Lemma frame_expires_what_it_announces_witness :
  exists (acts : list Action) (new : list (Z * Callback)),
    dispatched afterFrame = dispatched world0 ++ acts
    /\ timers afterFrame = timers world0 ++ new
    /\ expiriesOf new
       = map (fun item => ((clock world0 + 15000)%Z, item)) (newsOf acts).
Proof.
  exact (frame_expires_what_it_announces exampleNews neverHighImpact
           alwaysChained exampleUuid exampleRandom exampleState frameHooks
           16 0 world0 eq_refl eq_refl).
Defined.

(** X14: what a running frame leaves in the time cells and the chart
    stores.  The frame time is always recorded.  When a second has passed
    since the last price update, the clock reading becomes the last price
    update and the price of every asset of the snapshot is appended to
    its history, in list order; otherwise both stay.  When a second has
    passed since the last net worth update, the clock reading becomes the
    last net worth update and the net worth of the snapshot is appended
    to the portfolio history; otherwise both stay. *)
Theorem frame_records_times_and_charts
    (generateMarketNews : list Asset.t -> Z -> bool -> nat -> NewsItem.t)
    (shouldBeHighImpactEvent shouldBeChainedEvent : Density -> nat -> bool)
    (uuidv4 : nat -> string) (Math_random : nat -> Q)
    (state : GameState.t) (hk : Hooks) (timestamp previous : Q) (w : World) :
  GameState.isGameOver state = false ->
  lastTickTime hk = Some previous ->
  let w' :=
    snd (updateTimer generateMarketNews shouldBeHighImpactEvent
           shouldBeChainedEvent uuidv4 Math_random state hk timestamp w) in
  let priceDue := (PRICE_UPDATE_INTERVAL <=? clock w - lastPriceUpdate hk)%Z in
  let netWorthDue :=
    (PRICE_UPDATE_INTERVAL <=? clock w - lastNetWorthUpdate hk)%Z in
  lastTickTime (hooks w') = Some timestamp
  /\ lastPriceUpdate (hooks w')
     = (if priceDue then clock w else lastPriceUpdate (hooks w))
  /\ lastNetWorthUpdate (hooks w')
     = (if netWorthDue then clock w else lastNetWorthUpdate (hooks w))
  /\ assetPriceHistory w'
     = (if priceDue
        then recordPrices (clock w) (clock w) (GameState.assets state)
               (assetPriceHistory w)
        else assetPriceHistory w)
  /\ portfolioHistory w'
     = (if netWorthDue
        then ChartUtils.updatePortfolioHistory (calculateNetWorth state)
               (clock w) None (portfolioHistory w)
        else portfolioHistory w).
Proof.
  intros Hover Hlast w' priceDue netWorthDue.
  destruct (updateTimer_frame generateMarketNews shouldBeHighImpactEvent
              shouldBeChainedEvent uuidv4 Math_random state hk timestamp
              previous w Hover Hlast)
    as (items & health & new & _ & _ & _ & _ & _ & H).
  exact H.
Qed.

Lemma frame_records_times_and_charts_witness :
  lastTickTime (hooks afterFrame) = Some 16
  /\ lastPriceUpdate (hooks afterFrame) = 1000000%Z
  /\ lastNetWorthUpdate (hooks afterFrame) = 1000000%Z
  /\ assetPriceHistory afterFrame
     = recordPrices 1000000 1000000 [stock; oil] ∅
  /\ portfolioHistory afterFrame
     = ChartUtils.updatePortfolioHistory (calculateNetWorth exampleState)
         1000000 None ChartUtils.portfolioHistory0.
Proof.
  exact (frame_records_times_and_charts exampleNews neverHighImpact
           alwaysChained exampleUuid exampleRandom exampleState frameHooks
           16 0 world0 eq_refl eq_refl).
Defined.

(** X15: price updates are throttled.  When a frame updated the prices,
    a later frame that runs with the time cells the first one left, less
    than a second of clock time after it, dispatches its TICK first and no
    UPDATE_PRICES, and leaves the asset histories as they are. *)
Theorem price_updates_are_throttled
    (generateMarketNews : list Asset.t -> Z -> bool -> nat -> NewsItem.t)
    (shouldBeHighImpactEvent shouldBeChainedEvent : Density -> nat -> bool)
    (uuidv4 : nat -> string) (Math_random : nat -> Q)
    (state1 state2 : GameState.t) (hk : Hooks)
    (timestamp1 timestamp2 previous : Q) (w1 w2 : World) :
  GameState.isGameOver state1 = false ->
  GameState.isGameOver state2 = false ->
  lastTickTime hk = Some previous ->
  (PRICE_UPDATE_INTERVAL <= clock w1 - lastPriceUpdate hk)%Z ->
  (clock w2 - clock w1 < PRICE_UPDATE_INTERVAL)%Z ->
  let w1' :=
    snd (updateTimer generateMarketNews shouldBeHighImpactEvent
           shouldBeChainedEvent uuidv4 Math_random state1 hk timestamp1
           w1) in
  let w2' :=
    snd (updateTimer generateMarketNews shouldBeHighImpactEvent
           shouldBeChainedEvent uuidv4 Math_random state2 (hooks w1')
           timestamp2 w2) in
  exists acts,
    dispatched w2'
    = dispatched w2 ++ TICK ((timestamp2 - timestamp1) / 1000) :: acts
    /\ ~ In UPDATE_PRICES acts
    /\ assetPriceHistory w2' = assetPriceHistory w2.
Proof.
  intros Hover1 Hover2 Hlast Hdue Hsoon w1' w2'.
  destruct (updateTimer_frame generateMarketNews shouldBeHighImpactEvent
              shouldBeChainedEvent uuidv4 Math_random state1 hk timestamp1
              previous w1 Hover1 Hlast)
    as (_ & _ & _ & _ & _ & _ & _ & _ & Htick & Hprice & _).
  fold w1' in Htick, Hprice.
  apply Z.leb_le in Hdue. rewrite Hdue in Hprice.
  destruct (updateTimer_frame generateMarketNews shouldBeHighImpactEvent
              shouldBeChainedEvent uuidv4 Math_random state2 (hooks w1')
              timestamp2 timestamp1 w2 Hover2 Htick)
    as (items & health & new & _ & Hd & _ & _ & _ & _ & _ & _ & Ha & _).
  fold w2' in Hd, Ha.
  assert ((PRICE_UPDATE_INTERVAL <=? clock w2 - lastPriceUpdate (hooks w1'))%Z
          = false) as Hnot by (apply Z.leb_gt; lia).
  rewrite Hnot in Hd, Ha.
  eexists. split; [exact Hd|]. split; [|exact Ha].
  cbn [app]. rewrite !in_app_iff, in_map_iff.
  intros [(item & Habs & _)|[Habs|Habs]].
  - discriminate.
  - in_block Habs; by intuition.
  - in_block Habs; by intuition.
Qed.

Lemma price_updates_are_throttled_witness :
  exists acts,
    dispatched
      (snd (updateTimer exampleNews neverHighImpact alwaysChained
              exampleUuid exampleRandom exampleState (hooks afterFrame) 32
              (advanceClock 16 afterFrame)))
    = dispatched (advanceClock 16 afterFrame)
      ++ TICK ((32 - 16) / 1000) :: acts
    /\ ~ In UPDATE_PRICES acts
    /\ assetPriceHistory
         (snd (updateTimer exampleNews neverHighImpact alwaysChained
                 exampleUuid exampleRandom exampleState (hooks afterFrame)
                 32 (advanceClock 16 afterFrame)))
       = assetPriceHistory (advanceClock 16 afterFrame).
Proof.
  apply (price_updates_are_throttled exampleNews neverHighImpact
           alwaysChained exampleUuid exampleRandom exampleState
           exampleState frameHooks 16 32 0 world0
           (advanceClock 16 afterFrame));
    try reflexivity; vm_compute; congruence.
Defined.

(** X16: a frame that updates the prices leaves, for every asset of the
    snapshot, a history that ends in the price the snapshot holds for it,
    provided the asset ids are distinct; the history of an asset that is
    not in the snapshot is left alone. *)
Theorem frame_seeds_the_price_histories
    (generateMarketNews : list Asset.t -> Z -> bool -> nat -> NewsItem.t)
    (shouldBeHighImpactEvent shouldBeChainedEvent : Density -> nat -> bool)
    (uuidv4 : nat -> string) (Math_random : nat -> Q)
    (state : GameState.t) (hk : Hooks) (timestamp previous : Q) (w : World) :
  GameState.isGameOver state = false ->
  lastTickTime hk = Some previous ->
  (PRICE_UPDATE_INTERVAL <= clock w - lastPriceUpdate hk)%Z ->
  List.NoDup (map Asset.id (GameState.assets state)) ->
  let w' :=
    snd (updateTimer generateMarketNews shouldBeHighImpactEvent
           shouldBeChainedEvent uuidv4 Math_random state hk timestamp w) in
  (forall asset,
     In asset (GameState.assets state) ->
     exists d,
       assetPriceHistory w' !! Asset.id asset = Some d
       /\ last (ChartUtils.AssetChartData.prices d)
          = Some (Asset.price asset))
  /\ (forall id,
        ~ In id (map Asset.id (GameState.assets state)) ->
        assetPriceHistory w' !! id = assetPriceHistory w !! id).
Proof.
  intros Hover Hlast Hdue Hdup w'.
  destruct (updateTimer_frame generateMarketNews shouldBeHighImpactEvent
              shouldBeChainedEvent uuidv4 Math_random state hk timestamp
              previous w Hover Hlast)
    as (_ & _ & _ & _ & _ & _ & _ & _ & _ & _ & _ & Ha & _).
  fold w' in Ha. apply Z.leb_le in Hdue. rewrite Hdue in Ha.
  rewrite Ha. split.
  - intros asset Hin. by apply recordPrices_latest.
  - intros id Hnot. by apply recordPrices_other.
Qed.

Lemma frame_seeds_the_price_histories_witness :
  (forall asset,
     In asset [stock; oil] ->
     exists d,
       assetPriceHistory afterFrame !! Asset.id asset = Some d
       /\ last (ChartUtils.AssetChartData.prices d)
          = Some (Asset.price asset))
  /\ (forall id,
        ~ In id (map Asset.id [stock; oil]) ->
        assetPriceHistory afterFrame !! id
        = assetPriceHistory world0 !! id).
Proof.
  apply (frame_seeds_the_price_histories exampleNews neverHighImpact
           alwaysChained exampleUuid exampleRandom exampleState frameHooks
           16 0 world0); try reflexivity.
  - vm_compute. congruence.
  - repeat constructor; cbn [map In Asset.id stock oil GameState.assets
                               exampleState];
      intros H; repeat destruct H as [H|H]; try discriminate; exact H.
Defined.

(** X17: when the draws of the random source lie in the unit interval and
    the market health of the snapshot lies between 0 and 100, a market
    health that a frame dispatches is within 3 of the snapshot's: any
    UPDATE_MARKET_HEALTH in the log after the frame that was not there
    before carries such a value. *)
Theorem market_health_moves_by_at_most_3
    (generateMarketNews : list Asset.t -> Z -> bool -> nat -> NewsItem.t)
    (shouldBeHighImpactEvent shouldBeChainedEvent : Density -> nat -> bool)
    (uuidv4 : nat -> string) (Math_random : nat -> Q)
    (state : GameState.t) (hk : Hooks) (timestamp : Q) (w : World) :
  (forall k, 0 <= Math_random k /\ Math_random k < 1) ->
  0 <= GameState.marketHealth state ->
  GameState.marketHealth state <= 100 ->
  let w' :=
    snd (updateTimer generateMarketNews shouldBeHighImpactEvent
           shouldBeChainedEvent uuidv4 Math_random state hk timestamp w) in
  forall h,
    In (UPDATE_MARKET_HEALTH h) (dispatched w') ->
    In (UPDATE_MARKET_HEALTH h) (dispatched w)
    \/ (GameState.marketHealth state - 3 <= h
        /\ h <= GameState.marketHealth state + 3).
Proof.
  intros Hunit Hlo Hhi w' h Hin.
  destruct (GameState.isGameOver state) eqn:Hover.
  { left. subst w'. unfold updateTimer in Hin. by rewrite Hover in Hin. }
  destruct (lastTickTime hk) as [previous|] eqn:Hlast.
  2:{ left. subst w'. unfold updateTimer in Hin.
      by rewrite Hover, Hlast in Hin. }
  destruct (updateTimer_frame generateMarketNews shouldBeHighImpactEvent
              shouldBeChainedEvent uuidv4 Math_random state hk timestamp
              previous w Hover Hlast)
    as (items & health & new & _ & Hd & _).
  fold w' in Hd. rewrite Hd in Hin. clear Hd.
  rewrite !in_app_iff, in_map_iff in Hin.
  destruct Hin as [Hin|[Hin|[Hin|[(item & Habs & _)|[Hin|Hin]]]]].
  - by left.
  - destruct Hin as [Habs|[]]. discriminate.
  - in_block Hin; by intuition.
  - discriminate.
  - right. destruct health as [k|]; [|destruct Hin].
    destruct Hin as [Heq|[]]. injection Heq as <-.
    destruct (Hunit k) as [H0 H1].
    set (m := GameState.marketHealth state) in *.
    set (r := Math_random k) in *. clearbody m r.
    pose proof (Q.le_min_r 100 (m + (r * 6 - 3))) as Hle.
    assert (m - 3 <= Qmin 100 (m + (r * 6 - 3))) as Hge
      by (apply Q.min_glb; lra).
    set (x := Qmin 100 (m + (r * 6 - 3))) in *. clearbody x.
    split.
    + apply Qle_trans with x; [exact Hge|apply Q.le_max_r].
    + apply Q.max_lub; lra.
  - in_block Hin; by intuition.
Qed.

Lemma market_health_moves_by_at_most_3_witness :
  In (UPDATE_MARKET_HEALTH lowHealth)
    (dispatched
       (snd (updateTimer exampleNews neverHighImpact alwaysChained
               exampleUuid lowRandom exampleState frameHooks 16 world0)))
  /\ (In (UPDATE_MARKET_HEALTH lowHealth) (dispatched world0)
      \/ (GameState.marketHealth exampleState - 3 <= lowHealth
          /\ lowHealth <= GameState.marketHealth exampleState + 3)).
Proof.
  assert (In (UPDATE_MARKET_HEALTH lowHealth)
            (dispatched
               (snd (updateTimer exampleNews neverHighImpact alwaysChained
                       exampleUuid lowRandom exampleState frameHooks 16
                       world0)))) as Hin.
  { vm_compute. do 3 right. left. reflexivity. }
  split; [exact Hin|].
  apply (market_health_moves_by_at_most_3 exampleNews neverHighImpact
           alwaysChained exampleUuid lowRandom exampleState frameHooks 16
           world0); [| | |exact Hin].
  - intros k. unfold lowRandom. split; lra.
  - vm_compute. discriminate.
  - vm_compute. discriminate.
Defined.

(** X18: frames that do nothing.  Once the game is over a frame changes
    nothing at all: no action, no draw, no timer, no cell.  The first
    frame of a running game, which knows no previous frame time, records
    its own time and changes nothing else. *)
Theorem idle_frames_change_nothing
    (generateMarketNews : list Asset.t -> Z -> bool -> nat -> NewsItem.t)
    (shouldBeHighImpactEvent shouldBeChainedEvent : Density -> nat -> bool)
    (uuidv4 : nat -> string) (Math_random : nat -> Q)
    (state : GameState.t) (hk : Hooks) (timestamp : Q) (w : World) :
  let w' :=
    snd (updateTimer generateMarketNews shouldBeHighImpactEvent
           shouldBeChainedEvent uuidv4 Math_random state hk timestamp w) in
  (GameState.isGameOver state = true -> w' = w)
  /\ (GameState.isGameOver state = false ->
      lastTickTime hk = None ->
      w'
      = mkWorld (clock w) (draws w) (dispatched w) (timers w) (toasts w)
          (mkHooks (Some timestamp) (lastPriceUpdate (hooks w))
             (lastNetWorthUpdate (hooks w)) (eventSchedule (hooks w)))
          (assetPriceHistory w) (portfolioHistory w)).
Proof.
  intros w'. subst w'. unfold updateTimer. split.
  - intros ->. reflexivity.
  - intros -> ->. reflexivity.
Qed.

(** X19: when the draws of the random source lie in the unit interval,
    the follow-up of a chained event is due at least 5000 ms after the
    event and strictly before the 15000 ms at which the event's own item
    is removed.  An event arms at most one follow-up, then the removal of
    its item, and nothing else. *)
Theorem followUp_is_due_before_the_expiry
    (generateMarketNews : list Asset.t -> Z -> bool -> nat -> NewsItem.t)
    (shouldBeHighImpactEvent shouldBeChainedEvent : Density -> nat -> bool)
    (uuidv4 : nat -> string) (Math_random : nat -> Q)
    (state : GameState.t) (index : nat) (w : World) :
  (forall k, 0 <= Math_random k /\ Math_random k < 1) ->
  let w' :=
    snd (onScheduledEvent generateMarketNews shouldBeHighImpactEvent
           shouldBeChainedEvent uuidv4 Math_random state index w) in
  exists item followUps,
    dispatched w' = dispatched w ++ [ADD_NEWS item]
    /\ timers w'
       = timers w ++ followUps ++ [((clock w + 15000)%Z, ExpireNews item)]
    /\ (length followUps <= 1)%nat
    /\ Forall
         (fun t =>
            (clock w + 5000 <= fst t < clock w + 15000)%Z
            /\ exists chainId,
                 snd t = FollowUpNews state item chainId
                 /\ NewsItem.chainId item = Some chainId)
         followUps.
Proof.
  intros Hunit w'.
  destruct (onScheduledEvent_chain generateMarketNews
              shouldBeHighImpactEvent shouldBeChainedEvent uuidv4
              Math_random state index w)
    as (item & followUps & Hd & Ht & Hlen & Hall).
  exists item, followUps. split; [exact Hd|]. split; [exact Ht|].
  split; [exact Hlen|].
  eapply Forall_impl; [exact Hall|].
  intros t (k & chainId & -> & Hchain). cbn [fst snd]. split.
  - destruct (Hunit k) as [H0 H1].
    pose proof (followUpDelay_range (Math_random k) H0 H1). lia.
  - by exists chainId.
Qed.

Lemma followUp_is_due_before_the_expiry_witness :
  exists item followUps,
    dispatched afterEvent = dispatched world0 ++ [ADD_NEWS item]
    /\ timers afterEvent
       = timers world0 ++ followUps
         ++ [((clock world0 + 15000)%Z, ExpireNews item)]
    /\ (length followUps <= 1)%nat
    /\ Forall
         (fun t =>
            (clock world0 + 5000 <= fst t < clock world0 + 15000)%Z
            /\ exists chainId,
                 snd t = FollowUpNews exampleState item chainId
                 /\ NewsItem.chainId item = Some chainId)
         followUps.
Proof.
  apply (followUp_is_due_before_the_expiry exampleNews neverHighImpact
           alwaysChained exampleUuid exampleRandom exampleState 0 world0).
  intros k. unfold exampleRandom. split; lra.
Defined.

(** X20: the removal of an announced item.  The timer an event arms for
    its item cannot fire before 15000 ms have passed; once they have, it
    fires whatever else happened to the game, dispatches EXPIRE_NEWS with
    the id of that item and nothing else, and is gone from the pending
    timers. *)
Theorem announced_item_expires_after_15_seconds
    (generateMarketNews : list Asset.t -> Z -> bool -> nat -> NewsItem.t)
    (shouldBeHighImpactEvent shouldBeChainedEvent : Density -> nat -> bool)
    (uuidv4 : nat -> string) (Math_random : nat -> Q)
    (state : GameState.t) (index : nat) (w : World) :
  let w1 :=
    snd (onScheduledEvent generateMarketNews shouldBeHighImpactEvent
           shouldBeChainedEvent uuidv4 Math_random state index w) in
  exists item k,
    dispatched w1 = dispatched w ++ [ADD_NEWS item]
    /\ timers w1 !! k = Some ((clock w + 15000)%Z, ExpireNews item)
    /\ forall ms,
         ((ms < 15000)%Z ->
          fireTimer generateMarketNews k (advanceClock ms w1) = None)
         /\ ((15000 <= ms)%Z ->
             exists w2,
               fireTimer generateMarketNews k (advanceClock ms w1) = Some w2
               /\ dispatched w2
                  = dispatched w1 ++ [EXPIRE_NEWS (NewsItem.id item)]
               /\ timers w2 = delete k (timers w1)
               /\ draws w2 = draws w1).
Proof.
  intros w1.
  destruct (onScheduledEvent_chain generateMarketNews
              shouldBeHighImpactEvent shouldBeChainedEvent uuidv4
              Math_random state index w)
    as (item & followUps & Hd & Ht & _).
  fold w1 in Hd, Ht.
  assert (clock w1 = clock w) as Hclock.
  { pose proof (onScheduledEvent_clock generateMarketNews
                  shouldBeHighImpactEvent shouldBeChainedEvent uuidv4
                  Math_random state index w) as H. exact H. }
  exists item, (length (timers w ++ followUps)).
  split; [exact Hd|].
  assert (timers w1 !! length (timers w ++ followUps)
          = Some ((clock w + 15000)%Z, ExpireNews item)) as Hk.
  { rewrite Ht, app_assoc. by rewrite list_lookup_middle. }
  split; [exact Hk|].
  intros ms. unfold fireTimer, advanceClock. cbn [timers clock].
  rewrite Hk, Hclock. split.
  - intros Hms. by rewrite (proj2 (Z.leb_gt _ _)) by lia.
  - intros Hms. rewrite (proj2 (Z.leb_le _ _)) by lia.
    eexists. split; [reflexivity|]. by cbn.
Qed.

End DriverTheorems.

(** ** The mount effect and the achievements *)

Module LifecycleFacts.
Import Types GameContext GameFacts DriverBlocks DriverFacts Lifecycle.

Lemma elem_of_investedTypes state colour :
  colour ∈ investedTypes state <-> held state colour.
Proof.
  unfold investedTypes, held.
  assert (forall (l : list (string * Holding.t)) (s : gset string),
            colour
            ∈ fold_left
                (fun investedTypes '(assetId, holding) =>
                   if Qltb 0 (Holding.quantity holding) then
                     match findAsset (GameState.assets state) assetId with
                     | Some asset => {[Asset.color asset]} ∪ investedTypes
                     | None => investedTypes
                     end
                   else investedTypes) l s
            <-> colour ∈ s
                \/ exists assetId holding asset,
                     In (assetId, holding) l
                     /\ 0 < Holding.quantity holding
                     /\ findAsset (GameState.assets state) assetId
                        = Some asset
                     /\ Asset.color asset = colour) as Hfold.
  { induction l as [|[assetId holding] l IH]; intros s.
    - simpl. split; [by left|]. intros [H|(? & ? & ? & [] & _)]. exact H.
    - cbn [fold_left]. rewrite IH. clear IH.
      destruct (Qltb 0 (Holding.quantity holding)) eqn:Hq.
      + apply TrendFacts.Qltb_true in Hq.
        destruct (findAsset (GameState.assets state) assetId)
          as [asset|] eqn:Hfind.
        * rewrite elem_of_union, elem_of_singleton. split.
          -- intros [[->|Hs]|(i & h & a & Hin & Hrest)].
             ++ right. exists assetId, holding, asset.
                split; [by left|]. by repeat split.
             ++ by left.
             ++ right. exists i, h, a. split; [by right|exact Hrest].
          -- intros [Hs|(i & h & a & [Heq|Hin] & Hpos & Hf & Hc)].
             ++ left. by right.
             ++ injection Heq as <- <-. left. left.
                rewrite Hfind in Hf. injection Hf as <-. by rewrite Hc.
             ++ right. exists i, h, a. by repeat split.
        * split.
          -- intros [Hs|(i & h & a & Hin & Hrest)]; [by left|].
             right. exists i, h, a. split; [by right|exact Hrest].
          -- intros [Hs|(i & h & a & [Heq|Hin] & Hpos & Hf & Hc)];
               [by left| |].
             ++ injection Heq as <- <-. rewrite Hfind in Hf. discriminate.
             ++ right. exists i, h, a. by repeat split.
      + apply TrendFacts.Qltb_false in Hq. split.
        * intros [Hs|(i & h & a & Hin & Hrest)]; [by left|].
          right. exists i, h, a. split; [by right|exact Hrest].
        * intros [Hs|(i & h & a & [Heq|Hin] & Hpos & Hf & Hc)];
            [by left| |].
          -- injection Heq as <- <-. lra.
          -- right. exists i, h, a. by repeat split. }
  rewrite Hfold. split; [|by right].
  intros [H|H]; [by apply elem_of_empty in H|exact H].
Qed.

Lemma elem_of_assetTypes state colour :
  colour ∈ assetTypes state
  <-> exists asset,
        In asset (GameState.assets state) /\ Asset.color asset = colour.
Proof.
  unfold assetTypes. rewrite elem_of_list_to_set, list_elem_of_In, in_map_iff.
  split; intros (asset & H1 & H2); exists asset; by split.
Qed.

Lemma investedTypes_subseteq state :
  investedTypes state ⊆ assetTypes state.
Proof.
  intros colour. rewrite elem_of_investedTypes, elem_of_assetTypes.
  intros (assetId & holding & asset & _ & _ & Hfind & Hc).
  exists asset. split; [|exact Hc].
  unfold findAsset in Hfind. by apply List.find_some in Hfind as [H _].
Qed.

(** Handing over the prices of assets with distinct ids to empty
    histories gives each asset a one-point history. *)
Lemma recordPrices_fresh clock now assets asset :
  List.NoDup (map Asset.id assets) ->
  In asset assets ->
  recordPrices clock now assets ∅ !! Asset.id asset
  = Some (ChartUtils.AssetChartData.mk [clock] [Asset.price asset]
            (Asset.price asset) (Asset.price asset)
            [ChartUtils.mkPoint (Asset.price asset) clock]).
Proof.
  induction assets as [|a assets IH] using rev_ind; [done|].
  rewrite map_app, in_app_iff. cbn [map In]. intros Hdup Hin.
  rewrite recordPrices_snoc, updateAssetPriceHistory_lookup.
  apply List.NoDup_remove in Hdup as [Hdup Hnot].
  rewrite app_nil_r in Hdup, Hnot.
  destruct Hin as [Hin|[->|[]]].
  - destruct (String.eqb_spec (Asset.id a) (Asset.id asset)) as [Heq|Hne].
    + exfalso. apply Hnot. rewrite Heq. by apply in_map.
    + by apply IH.
  - rewrite String.eqb_refl.
    by rewrite (recordPrices_other clock now assets ∅ _ Hnot), lookup_empty.
Qed.

Lemma initEffect_run state w :
  snd (initEffect state w)
  = mkWorld (clock w) (draws w) (dispatched w) (timers w) (toasts w)
      (hooks w)
      (recordPrices (clock w) (clock w) (GameState.assets state)
         (assetPriceHistory w))
      (ChartUtils.updatePortfolioHistory (calculateNetWorth state) (clock w)
         None (portfolioHistory w)).
Proof.
  unfold initEffect. rewrite !run_bind. unfold forEach.
  cbn [Date_now fst snd]. rewrite forEach_recordPrices. reflexivity.
Qed.

(** One guarded call of [unlockAchievement]. *)
Lemma unlock_step (cond : bool) achievement seen b :
  let fresh := cond && negb (bool_decide (achievement ∈ seen)) in
  let b' := if fresh then unlockAchievement seen achievement b else b in
  let new := if fresh then [achievement] else [] in
  achievementToasts b' = achievementToasts b ++ new
  /\ achievementsUnlocked b'
     = list_to_set new ∪ achievementsUnlocked b.
Proof.
  unfold unlockAchievement.
  destruct cond, (bool_decide (achievement ∈ seen));
    cbn [andb negb achievementToasts achievementsUnlocked list_to_set];
    rewrite ?app_nil_r, ?(left_id_L ∅ (∪)), ?(right_id_L ∅ (∪)); done.
Qed.

(** The achievements one run of the tracking effect unlocks, in order. *)
Lemma trackAchievements_run state seen b :
  let new := newlyUnlocked state seen in
  achievementToasts (trackAchievements state seen b)
  = achievementToasts b ++ new
  /\ achievementsUnlocked (trackAchievements state seen b)
     = list_to_set new ∪ achievementsUnlocked b.
Proof.
  unfold newlyUnlocked, trackAchievements.
  pose proof (unlock_step (firstTrade state) "first-trade" seen b)
    as [Ht1 Hu1].
  cbv zeta in Ht1, Hu1.
  set (b1 := if firstTrade state && _ then _ else b) in *.
  pose proof (unlock_step (doubledPortfolio state) "doubled-portfolio"
                seen b1) as [Ht2 Hu2].
  cbv zeta in Ht2, Hu2.
  set (b2 := if doubledPortfolio state && _ then _ else b1) in *.
  pose proof (unlock_step (diversified state) "diversified" seen b2)
    as [Ht3 Hu3].
  cbv zeta in Ht3, Hu3. cbv zeta.
  rewrite Ht3, Ht2, Ht1, Hu3, Hu2, Hu1, !list_to_set_app_L.
  split; [by rewrite <- !app_assoc|].
  apply set_eq. intros x. rewrite !elem_of_union. tauto.
Qed.

(** Once the render has caught up, nothing is new. *)
Lemma newlyUnlocked_caught_up state seen seen' :
  seen ⊆ seen' ->
  (forall achievement,
     In achievement (newlyUnlocked state seen) -> achievement ∈ seen') ->
  newlyUnlocked state seen' = [].
Proof.
  intros Hsub Hnew. unfold newlyUnlocked in *.
  assert (forall (cond : bool) (achievement : string),
            (cond && negb (bool_decide (achievement ∈ seen)) = true ->
             achievement ∈ seen') ->
            (if cond && negb (bool_decide (achievement ∈ seen'))
             then [achievement] else []) = []) as Hstep.
  { intros cond achievement Hin. destruct cond; [|done].
    cbn [andb] in *.
    destruct (bool_decide_reflect (achievement ∈ seen')) as [|Hseen'];
      [done|].
    exfalso. apply Hseen'.
    destruct (bool_decide_reflect (achievement ∈ seen)) as [Hseen|Hseen].
    - by apply Hsub.
    - by apply Hin. }
  rewrite !Hstep; [done|..]; intros Hfresh; apply Hnew;
    rewrite !in_app_iff, Hfresh; cbn [In]; tauto.
Qed.

End LifecycleFacts.

Module LifecycleTheorems.
Import Types GameContext GameFacts DriverBlocks DriverFacts Lifecycle
  LifecycleFacts Examples.

(** X21: the condition of the 'diversified' achievement, which compares
    the number of colours invested in with the number of colours of the
    asset list, holds exactly when every asset of the list has its colour
    held: some holding with a positive quantity names an asset of the list
    with that colour.  Short positions do not count, and a game without
    assets meets the condition. *)
Theorem diversified_means_every_colour_is_held (state : GameState.t) :
  (diversified state = true
   <-> forall asset,
         In asset (GameState.assets state) ->
         held state (Asset.color asset))
  /\ (GameState.assets state = [] -> diversified state = true).
Proof.
  assert (diversified state = true
          <-> forall asset,
                In asset (GameState.assets state) ->
                held state (Asset.color asset)) as Hiff.
  { unfold diversified. rewrite Nat.leb_le. split.
    - intros Hsize asset Hin.
      apply elem_of_investedTypes.
      rewrite (set_subseteq_size_eq _ _ (investedTypes_subseteq state) Hsize).
      apply elem_of_assetTypes. by exists asset.
    - intros Hall. apply subseteq_size. intros colour.
      rewrite elem_of_assetTypes, elem_of_investedTypes.
      intros (asset & Hin & <-). by apply Hall. }
  split; [exact Hiff|].
  intros Hnil. apply Hiff. rewrite Hnil. intros asset [].
Qed.

(** X22: one run of the achievement tracking hands each achievement to
    the toast at most once, and none that the render already saw
    unlocked; the achievements it shows are the ones it adds to the
    unlocked set.  Once the render has caught up with the unlocked set,
    running the effect again on the same game state shows and unlocks
    nothing more. *)
Theorem achievements_are_announced_once (state : GameState.t)
    (seen : gset string) (b : Badges) :
  let b' := trackAchievements state seen b in
  exists new,
    achievementToasts b' = achievementToasts b ++ new
    /\ achievementsUnlocked b' = list_to_set new ∪ achievementsUnlocked b
    /\ List.NoDup new
    /\ (forall achievement, In achievement new -> achievement ∉ seen)
    /\ (seen ⊆ achievementsUnlocked b ->
        trackAchievements state (achievementsUnlocked b') b' = b').
Proof.
  intros b'. exists (newlyUnlocked state seen).
  destruct (trackAchievements_run state seen b) as [Ht Hu].
  fold b' in Ht, Hu.
  split; [exact Ht|]. split; [exact Hu|].
  assert (forall achievement,
            In achievement (newlyUnlocked state seen) ->
            achievement ∉ seen) as Hnew.
  { intros achievement. unfold newlyUnlocked.
    rewrite !in_app_iff. intros [Hin|[Hin|Hin]];
      [destruct (firstTrade state)|destruct (doubledPortfolio state)
      |destruct (diversified state)];
      cbn [andb] in Hin; try destruct Hin;
      case_bool_decide; cbn [negb] in Hin;
      try destruct Hin as [<-|[]]; done. }
  split; [|split; [exact Hnew|]].
  - unfold newlyUnlocked.
    destruct (firstTrade state && _), (doubledPortfolio state && _),
      (diversified state && _); cbn [app];
      repeat constructor; cbn [In]; intros H;
      repeat destruct H as [H|H]; try discriminate; exact H.
  - intros Hsub.
    destruct (trackAchievements_run state (achievementsUnlocked b') b')
      as [Ht2 Hu2].
    assert (newlyUnlocked state (achievementsUnlocked b') = []) as Hnone.
    { apply (newlyUnlocked_caught_up state seen).
      - intros x Hx. rewrite Hu. apply elem_of_union. right. by apply Hsub.
      - intros x Hx. rewrite Hu. apply elem_of_union. left.
        by apply elem_of_list_to_set, list_elem_of_In. }
    rewrite Hnone in Ht2, Hu2. rewrite app_nil_r in Ht2.
    cbn [list_to_set] in Hu2. rewrite (left_id_L ∅ (∪)) in Hu2.
    destruct (trackAchievements state (achievementsUnlocked b') b')
      as [u t], b' as [u' t']. cbn in *. by f_equal.
Qed.

(** X23: when the provider mounts on empty chart stores and the asset ids
    are distinct, the mount effect dispatches nothing and arms nothing;
    afterwards each asset of the snapshot has a history of one point, its
    price at the clock reading, with that price as minimum and maximum,
    no other asset has a history, and the portfolio history holds one
    point, the net worth of the snapshot, which is also its start value,
    with bounds 10 percent below and above it. *)
Theorem mount_seeds_the_charts (state : GameState.t) (w : World) :
  assetPriceHistory w = ∅ ->
  portfolioHistory w = ChartUtils.portfolioHistory0 ->
  List.NoDup (map Asset.id (GameState.assets state)) ->
  let w' := snd (initEffect state w) in
  let netWorth := calculateNetWorth state in
  dispatched w' = dispatched w
  /\ timers w' = timers w
  /\ (forall asset,
        In asset (GameState.assets state) ->
        assetPriceHistory w' !! Asset.id asset
        = Some (ChartUtils.AssetChartData.mk [clock w] [Asset.price asset]
                  (Asset.price asset) (Asset.price asset)
                  [ChartUtils.mkPoint (Asset.price asset) (clock w)]))
  /\ (forall id,
        ~ In id (map Asset.id (GameState.assets state)) ->
        assetPriceHistory w' !! id = None)
  /\ ChartUtils.PortfolioHistoryData.values (portfolioHistory w') = [netWorth]
  /\ ChartUtils.PortfolioHistoryData.timestamps (portfolioHistory w')
     = [clock w]
  /\ ChartUtils.PortfolioHistoryData.data (portfolioHistory w')
     = [ChartUtils.mkPoint netWorth (clock w)]
  /\ ChartUtils.PortfolioHistoryData.startValue (portfolioHistory w')
     = netWorth
  /\ ChartUtils.PortfolioHistoryData.min (portfolioHistory w')
     == netWorth * 0.9
  /\ ChartUtils.PortfolioHistoryData.max (portfolioHistory w')
     == netWorth * 1.1.
Proof.
  intros Hassets Hportfolio Hdup w' netWorth. subst w'.
  rewrite initEffect_run. cbn [dispatched timers assetPriceHistory
                                portfolioHistory].
  rewrite Hassets, Hportfolio.
  split; [reflexivity|]. split; [reflexivity|].
  split; [intros asset Hin; by apply recordPrices_fresh|].
  split.
  { intros id Hnot. by rewrite recordPrices_other, lookup_empty. }
  cbn. fold netWorth.
  repeat (split; [reflexivity|]).
  split; [apply Q.min_id|apply Q.max_id].
Qed.

Lemma mount_seeds_the_charts_witness :
  dispatched (snd (initEffect exampleState world0)) = dispatched world0
  /\ assetPriceHistory (snd (initEffect exampleState world0)) !! "oil"
     = Some (ChartUtils.AssetChartData.mk [1000000%Z] [30] 30 30
               [ChartUtils.mkPoint 30 1000000]).
Proof.
  destruct (mount_seeds_the_charts exampleState world0)
    as (Hd & _ & Ha & _).
  - reflexivity.
  - reflexivity.
  - repeat constructor; cbn [map In Asset.id stock oil GameState.assets
                               exampleState];
      intros H; repeat destruct H as [H|H]; try discriminate; exact H.
  - split; [exact Hd|]. apply (Ha oil). right. by left.
Defined.

End LifecycleTheorems.

(** ** Pausing *)

Module PauseFacts.
Import Types GameContext Handlers GameFacts DriverBlocks DriverFacts GameLoop.

Section Externals.
Variable generateMarketNews : list Asset.t -> Z -> bool -> nat -> NewsItem.t.
Variable shouldBeHighImpactEvent : Density -> nat -> bool.
Variable shouldBeChainedEvent : Density -> nat -> bool.
Variable uuidv4 : nat -> string.
Variable Math_random : nat -> Q.

#[local] Abbreviation updateTimer :=
  (updateTimer generateMarketNews shouldBeHighImpactEvent
     shouldBeChainedEvent uuidv4 Math_random).
#[local] Abbreviation pendingFrame :=
  (pendingFrame generateMarketNews shouldBeHighImpactEvent
     shouldBeChainedEvent uuidv4 Math_random).

(** A render that changes no dependency leaves the pending frame with the
    closure it had. *)
Lemma gameLoopEffect_keeps pending next :
  depsUnchanged pending next = true -> gameLoopEffect pending next = pending.
Proof. unfold gameLoopEffect. by intros ->. Qed.

(** A render that changes a dependency replaces the closure. *)
Lemma gameLoopEffect_replaces pending next :
  depsUnchanged pending next = false -> gameLoopEffect pending next = next.
Proof. unfold gameLoopEffect. by intros ->. Qed.

(** The frame that runs records its time, which is a dependency: the
    render that follows a running frame replaces the closure. *)
Lemma depsUnchanged_lastTickTime pending next :
  sameNumber (lastTickTime (cells pending)) (lastTickTime (cells next))
  = false ->
  depsUnchanged pending next = false.
Proof.
  intros H. unfold depsUnchanged. rewrite H.
  by rewrite andb_false_r.
Qed.

(** The news and the removals of a running frame, counted. *)
Lemma updateTimer_news state hk timestamp previous w :
  GameState.isGameOver state = false ->
  lastTickTime hk = Some previous ->
  let w' := snd (updateTimer state hk timestamp w) in
  exists acts new,
    dispatched w' = dispatched w ++ TICK ((timestamp - previous) / 1000) :: acts
    /\ timers w' = timers w ++ new
    /\ length (newsOf acts)
       = (if GameState.isPaused state then 0%nat
          else length (dueTimings state (eventSchedule hk)))
    /\ expiriesOf new
       = map (fun item => ((clock w + 15000)%Z, item)) (newsOf acts).
Proof.
  intros Hover Hlast w'.
  destruct (updateTimer_frame generateMarketNews shouldBeHighImpactEvent
              shouldBeChainedEvent uuidv4 Math_random state hk timestamp
              previous w Hover Hlast)
    as (items & health & new & Hlen & Hd & Ht & He & _).
  fold w' in Hd, Ht.
  eexists _, new. split; [exact Hd|]. split; [exact Ht|].
  assert (forall (b : bool) (a : Action) rest,
            match a with ADD_NEWS _ => False | _ => True end ->
            newsOf ((if b then [a] else []) ++ rest) = newsOf rest)
    as Hskip.
  { intros b a rest Ha. destruct b; [|done]. by destruct a. }
  rewrite Hskip by done. rewrite newsOf_app, newsOf_news.
  assert (newsOf
            (match health with
             | Some k =>
                 [UPDATE_MARKET_HEALTH
                    (Qmax 0
                       (Qmin 100
                          (GameState.marketHealth state
                           + (Math_random k * 6 - 3))))]
             | None => []
             end
             ++ (if (PRICE_UPDATE_INTERVAL
                     <=? clock w - lastNetWorthUpdate hk)%Z
                 then [UPDATE_NET_WORTH (clock w)] else []))
          = []) as ->.
  { by destruct health,
       (PRICE_UPDATE_INTERVAL <=? clock w - lastNetWorthUpdate hk)%Z. }
  rewrite app_nil_r. by split.
Qed.

(** An armed callback fires once it is due, whatever the world has
    become. *)
Lemma fireTimer_armed k due cb w :
  armed cb ->
  timers w !! k = Some (due, cb) -> (due <= clock w)%Z ->
  exists a w',
    fireTimer generateMarketNews k w = Some w'
    /\ dispatched w' = dispatched w ++ [a]
    /\ timers w' = delete k (timers w)
    /\ match cb with
       | FollowUpNews _ _ chainId =>
           exists followUp,
             a = ADD_NEWS followUp
             /\ NewsItem.chainId followUp = Some chainId
       | ExpireNews newsItem => a = EXPIRE_NEWS (NewsItem.id newsItem)
       end.
Proof.
  intros Harmed Hk Hdue.
  set (w0 := mkWorld (clock w) (draws w) (dispatched w)
               (delete k (timers w)) (toasts w) (hooks w)
               (assetPriceHistory w) (portfolioHistory w)).
  destruct (runCallback_armed generateMarketNews cb w0 Harmed)
    as (a & Hd & Ht & Ha).
  exists a, (snd (runCallback generateMarketNews cb w0)).
  split; [|split; [exact Hd|split; [exact Ht|]]].
  - unfold fireTimer. rewrite Hk.
    by destruct (Z.leb_spec due (clock w)); [|lia].
  - destruct cb as [state newsItem chainId|newsItem]; [|exact Ha].
    subst a. eexists. by split.
Qed.

End Externals.
End PauseFacts.

Module PauseTheorems.
Import Types GameContext Handlers GameFacts DriverBlocks DriverFacts GameLoop
  PauseFacts Examples MoreExamples.


End PauseTheorems.
